(** * Vector and Line: a shallow embedding of [Vector.py] and [Line.py]

    The two classes compute with Python's [decimal.Decimal] under the
    default context, whose precision [Vector.__init__] sets to 30
    significant digits.  The development has these parts:

    - [PyDecimal]: the finite decimals of that context and the operations
      the two classes call on them (rounding half-even to 30 digits, the
      exponent range, the trapped signals);
    - the Python values that reach the two classes, and generators;
    - [Vector]: the class [Vector] ([angle_with] leaves decimal
      arithmetic for binary floating point: it is modelled over
      [math.acos] and [math.degrees] as parameters);
    - [Line]: the class [Line];
    - the vocabulary and the example values of the properties;
    - the properties: of the decimal operations first, then of the two
      classes. *)

From Stdlib Require Import ZArith List String Ascii Bool Lia DecimalString.
Import ListNotations.
Local Open Scope string_scope.
Local Open Scope Z_scope.

(** ** Exceptions and results *)

(** The exceptions the two classes and the decimal context can raise.
    [Overflow], [InvalidOperation] and [DivisionByZero] are the three
    signals the default decimal context traps. *)
Inductive exn : Type :=
| ValueError (msg : string)
| TypeError (msg : string)
| IndexError (msg : string)
| AttributeError (msg : string)
| ZeroDivisionError (msg : string)
| ArithmeticError (msg : string)
| Exception (msg : string)
| Overflow
| InvalidOperation
| DivisionByZero.

(** [str(e)].  The text of a decimal signal lists the condition that
    raised it (for [0 / 0] the library prints its subclass
    DivisionUndefined); it is never a message of the two classes. *)
Definition exn_str (e : exn) : string :=
  match e with
  | ValueError m | TypeError m | IndexError m | AttributeError m
  | ZeroDivisionError m | ArithmeticError m | Exception m => m
  | Overflow => "[<class 'decimal.Overflow'>]"
  | InvalidOperation => "[<class 'decimal.InvalidOperation'>]"
  | DivisionByZero => "[<class 'decimal.DivisionByZero'>]"
  end.

(** [isinstance(e, ZeroDivisionError)]: [decimal.DivisionByZero] derives
    from [ZeroDivisionError]. *)
Definition is_ZeroDivisionError (e : exn) : bool :=
  match e with
  | ZeroDivisionError _ | DivisionByZero => true
  | _ => false
  end.

(** [isinstance(e, ArithmeticError)]: every decimal signal derives from
    [ArithmeticError], and so does [ZeroDivisionError]. *)
Definition is_ArithmeticError (e : exn) : bool :=
  match e with
  | ArithmeticError _ | ZeroDivisionError _
  | Overflow | InvalidOperation | DivisionByZero => true
  | _ => false
  end.

Inductive result (A : Type) : Type :=
| Ok (a : A)
| Raise (e : exn).
Arguments Ok {A} a.
Arguments Raise {A} e.

Definition bind {A B : Type} (r : result A) (k : A -> result B) : result B :=
  match r with
  | Ok a => k a
  | Raise e => Raise e
  end.

Notation "x <- r ;; k" := (bind r (fun x => k))
  (at level 61, r at next level, right associativity).

(** A generator expression: the computations of its items, run in order
    by whoever consumes it. *)
Definition generator (A : Type) : Type := list (result A).

(** [x for x in l] *)
Definition gen_of {A : Type} (l : list A) : generator A := map Ok l.

(** Consuming a generator to the end ([tuple(g)]): the items in order,
    or the first exception. *)
Fixpoint collect {A : Type} (g : generator A) : result (list A) :=
  match g with
  | [] => Ok []
  | item :: g' => x <- item ;; l <- collect g' ;; Ok (x :: l)
  end.

(** Python's [zip]: stops at the shorter argument. *)
Fixpoint zip {A B : Type} (l1 : list A) (l2 : list B) : list (A * B) :=
  match l1, l2 with
  | x :: l1', y :: l2' => (x, y) :: zip l1' l2'
  | _, _ => []
  end.

(** ** Decimal arithmetic *)

Module PyDecimal.

(** A finite [Decimal]: sign, coefficient and exponent, of value
    [(-1)^sign * coeff * 10^exponent].  With the three traps of the
    default context no operation below produces an infinity or a NaN from
    finite operands, so the finite decimals are closed under them. *)
Record dec : Type := mkdec { sign : bool; coeff : N; exponent : Z }.

(** The context: [getcontext().prec = 30], the other fields as the
    default context has them (ROUND_HALF_EVEN, Emax = 999999,
    Emin = -999999, clamp = 0). *)
Definition prec : Z := 30.
Definition Emax : Z := 999999.
Definition Emin : Z := -999999.
Definition Etiny (p : Z) : Z := Emin - p + 1.
Definition Etop (p : Z) : Z := Emax - p + 1.

Fixpoint ndigits_fuel (fuel : nat) (c : Z) : Z :=
  match fuel with
  | O => 1
  | S f => if c <? 10 then 1 else 1 + ndigits_fuel f (c / 10)
  end.

(** [len(str(c))] for [c >= 0]. *)
Definition ndigits (c : Z) : Z := ndigits_fuel (Z.to_nat (Z.log2 c)) c.

(** Dropping the last [drop] digits of [c], rounding half-even. *)
Definition round_half_even (c drop : Z) : Z :=
  if drop <=? 0 then c
  else
    let p := 10 ^ drop in
    let q := c / p in
    let r := c mod p in
    if (p <? 2 * r) || ((2 * r =? p) && Z.odd q) then q + 1 else q.

(** The rounding step of [_fix] and [_rescale]: the coefficient of
    [c * 10^e] at the larger exponent [exp].  A number whose digits all
    lie below [exp] is first replaced by [1 * 10^(exp - 1)], as the
    library does. *)
Definition round_to (c e exp : Z) : Z :=
  if ndigits c + e - exp <? 0 then round_half_even 1 1
  else round_half_even c (exp - e).

(** [Decimal._fix] at precision [p]: rounds a result to the context, or
    signals [Overflow] above [Emax]; a result below [Etiny] becomes
    subnormal or zero without an exception ([Underflow] is not trapped). *)
Definition fix_prec (p : Z) (s : bool) (c : Z) (e : Z) : result dec :=
  if c =? 0 then
    Ok (mkdec s 0 (Z.min (Z.max e (Etiny p)) Emax))
  else
    let exp_min := ndigits c + e - p in
    if Etop p <? exp_min then Raise Overflow
    else
      let exp_min := Z.max exp_min (Etiny p) in
      if e <? exp_min then
        let q := round_to c e exp_min in
        let '(q, exp_min) :=
          if p <? ndigits q then (q / 10, exp_min + 1) else (q, exp_min) in
        if Etop p <? exp_min then Raise Overflow
        else Ok (mkdec s (Z.to_N q) exp_min)
      else Ok (mkdec s (Z.to_N c) e).

Definition _fix (s : bool) (c : Z) (e : Z) : result dec := fix_prec prec s c e.

(** The coefficient with its sign. *)
Definition signed (x : dec) : Z :=
  if sign x then - Z.of_N (coeff x) else Z.of_N (coeff x).

(** [Decimal(z)] for an [int]. *)
Definition of_int (z : Z) : dec := mkdec (z <? 0) (Z.abs_N z) 0.

(** [x.is_zero()], also [not x]. *)
Definition is_zero (x : dec) : bool := (coeff x =? 0)%N.

Definition copy_negate (x : dec) : dec :=
  mkdec (negb (sign x)) (coeff x) (exponent x).

(** [x.adjusted()]: the exponent of the leading digit. *)
Definition adjusted (x : dec) : Z := ndigits (Z.of_N (coeff x)) + exponent x - 1.

(** [Decimal._cmp]: comparison of the values.  The zeros of both signs
    are equal; numbers of one sign are ordered by their adjusted
    exponents and, when these agree, by their coefficients padded to a
    common exponent. *)
Definition cmp (x y : dec) : comparison :=
  if is_zero x then
    if is_zero y then Eq else if sign y then Gt else Lt
  else if is_zero y then
    if sign x then Lt else Gt
  else if sign x && negb (sign y) then Lt
  else if negb (sign x) && sign y then Gt
  else
    let c :=
      match Z.compare (adjusted x) (adjusted y) with
      | Eq => Z.compare
                (Z.of_N (coeff x) * 10 ^ Z.max 0 (exponent x - exponent y))
                (Z.of_N (coeff y) * 10 ^ Z.max 0 (exponent y - exponent x))
      | c => c
      end in
    if sign x then CompOpp c else c.

(** [x < y], [x == y], [x >= y] *)
Definition lt (x y : dec) : bool :=
  match cmp x y with Lt => true | _ => false end.
Definition eqb (x y : dec) : bool :=
  match cmp x y with Eq => true | _ => false end.
Definition ge (x y : dec) : bool :=
  match cmp x y with Lt => false | _ => true end.

(** [-x]: the negation of a zero is the positive zero. *)
Definition neg (x : dec) : result dec :=
  if is_zero x then _fix false 0 (exponent x)
  else _fix (negb (sign x)) (Z.of_N (coeff x)) (exponent x).

(** [+x] *)
Definition pos (x : dec) : result dec :=
  if is_zero x then _fix false 0 (exponent x)
  else _fix (sign x) (Z.of_N (coeff x)) (exponent x).

(** [abs(x)]: rounds to the context like every operation. *)
Definition abs (x : dec) : result dec :=
  if sign x then neg x else pos x.

(** [x + y]: the exact sum at the smaller exponent, rounded once.  (The
    library bounds the distance of the exponents before it adds; the
    result is that of the exact sum.) *)
Definition add (x y : dec) : result dec :=
  let e := Z.min (exponent x) (exponent y) in
  if is_zero x && is_zero y then _fix (sign x && sign y) 0 e
  else
    let v := signed x * 10 ^ (exponent x - e)
             + signed y * 10 ^ (exponent y - e) in
    if v =? 0 then _fix false 0 e else _fix (v <? 0) (Z.abs v) e.

(** [x - y] is [x + y.copy_negate()]. *)
Definition sub (x y : dec) : result dec := add x (copy_negate y).

(** [x * y] *)
Definition mul (x y : dec) : result dec :=
  _fix (xorb (sign x) (sign y))
      (Z.of_N (coeff x) * Z.of_N (coeff y))
      (exponent x + exponent y).

(** The loop of [__truediv__] on an exact quotient: strip trailing zeros
    while the exponent is below the ideal one. *)
Fixpoint strip_zeros (fuel : nat) (q e ideal : Z) : Z * Z :=
  match fuel with
  | O => (q, e)
  | S f =>
      if (e <? ideal) && (q mod 10 =? 0) then strip_zeros f (q / 10) (e + 1) ideal
      else (q, e)
  end.

(** [x / y]: [0 / 0] signals [InvalidOperation] (DivisionUndefined),
    [x / 0] signals [DivisionByZero]. *)
Definition div (x y : dec) : result dec :=
  let s := xorb (sign x) (sign y) in
  let c1 := Z.of_N (coeff x) in
  let c2 := Z.of_N (coeff y) in
  if is_zero y then
    if is_zero x then Raise InvalidOperation else Raise DivisionByZero
  else if is_zero x then _fix s 0 (exponent x - exponent y)
  else
    let shift := ndigits c2 - ndigits c1 + prec + 1 in
    let e := exponent x - exponent y - shift in
    let '(q, r) :=
      if 0 <=? shift then (c1 * 10 ^ shift / c2, (c1 * 10 ^ shift) mod c2)
      else (c1 / (c2 * 10 ^ (- shift)), c1 mod (c2 * 10 ^ (- shift))) in
    if r =? 0 then
      let ideal := exponent x - exponent y in
      let '(q, e) := strip_zeros (Z.to_nat (ideal - e)) q e ideal in
      _fix s q e
    else
      _fix s (if q mod 5 =? 0 then q + 1 else q) e.

(** [x.sqrt()]: the square root is taken to [prec + 1] digits rounding
    down, its last digit is moved off 0 and 5 when inexact, and [_fix]
    rounds. *)
Definition sqrt (x : dec) : result dec :=
  let c := Z.of_N (coeff x) in
  let e := exponent x in
  if is_zero x then _fix (sign x) 0 (e / 2)
  else if sign x then Raise InvalidOperation
  else
    let p := prec + 1 in
    let '(c', l) :=
      if Z.odd e then (c * 10, ndigits c / 2 + 1)
      else (c, (ndigits c + 1) / 2) in
    let shift := p - l in
    let '(c', exact) :=
      if 0 <=? shift then (c' * 100 ^ shift, true)
      else (c' / 100 ^ (- shift), c' mod 100 ^ (- shift) =? 0) in
    let e' := e / 2 - shift in
    let n := Z.sqrt c' in
    if exact && (n * n =? c') then
      _fix false (if 0 <=? shift then n / 10 ^ shift else n * 10 ^ (- shift))
          (e' + shift)
    else
      _fix false (if n mod 5 =? 0 then n + 1 else n) e'.

(** [x ** 2], as the integer power of the C implementation computes it:
    a zero gives [Decimal('0')], a coefficient of value one keeps the
    doubled exponent (at least [1 - prec]), and otherwise the square is
    rounded to [prec + 3] digits and then to the context. *)
Definition pow2 (x : dec) : result dec :=
  if is_zero x then Ok (mkdec false 0 0)
  else if eqb (mkdec false (coeff x) (exponent x)) (mkdec false 1 0) then
    let e := Z.max (exponent x * 2) (1 - prec) in
    Ok (mkdec false (Z.to_N (10 ^ (- e))) e)
  else
    t <- fix_prec (prec + 3) false
           (Z.of_N (coeff x) * Z.of_N (coeff x)) (2 * exponent x) ;;
    _fix (sign t) (Z.of_N (coeff t)) (exponent t).

(** [round(x, n)], that is [x.quantize(Decimal('1E-n'))]: signals
    [InvalidOperation] when the result needs more than [prec] digits. *)
Definition round (x : dec) (n : Z) : result dec :=
  let target := - n in
  let c := Z.of_N (coeff x) in
  if negb ((Etiny prec <=? target) && (target <=? Emax)) then Raise InvalidOperation
  else if is_zero x then _fix (sign x) 0 target
  else if Emax <? adjusted x then Raise InvalidOperation
  else if prec <? adjusted x - target + 1 then Raise InvalidOperation
  else
    let q := if target <=? exponent x then c * 10 ^ (exponent x - target)
             else round_to c (exponent x) target in
    if Emax <? ndigits q + target - 1 then Raise InvalidOperation
    else if prec <? ndigits q then Raise InvalidOperation
    else _fix (sign x) q target.

(** [x % y] through [Decimal._divide]; the quotient must fit the
    precision. *)
Definition mod_ (x y : dec) : result dec :=
  let c1 := Z.of_N (coeff x) in
  let c2 := Z.of_N (coeff y) in
  if is_zero y then Raise InvalidOperation
  else
    let ideal := Z.min (exponent x) (exponent y) in
    let expdiff := adjusted x - adjusted y in
    if is_zero x then _fix (sign x) 0 ideal
    else if expdiff <=? -2 then
      _fix (sign x) (c1 * 10 ^ (exponent x - ideal)) ideal
    else if expdiff <=? prec then
      let a := c1 * 10 ^ (exponent x - ideal) in
      let b := c2 * 10 ^ (exponent y - ideal) in
      if a / b <? 10 ^ prec then _fix (sign x) (a mod b) ideal
      else Raise InvalidOperation
    else Raise InvalidOperation.

(** [int(x)]: truncation toward zero. *)
Definition to_int (x : dec) : Z :=
  let c := Z.of_N (coeff x) in
  let m := if 0 <=? exponent x then c * 10 ^ exponent x
           else c / 10 ^ (- exponent x) in
  if sign x then - m else m.

(** The decimal digits of a natural number, [str(n)]. *)
Definition digits (n : Z) : string :=
  NilZero.string_of_uint (N.to_uint (Z.to_N n)).

Fixpoint zeros (n : nat) : string :=
  match n with
  | O => ""
  | S n' => "0" ++ zeros n'
  end.

(** [str(z)] for an [int]. *)
Definition str_int (z : Z) : string :=
  if z <? 0 then "-" ++ digits (- z) else digits z.

(** [str(x)], which is also ['{}'.format(x)]: scientific notation only
    for a positive exponent or a value below 1E-6. *)
Definition str (x : dec) : string :=
  let ds := digits (Z.of_N (coeff x)) in
  let len := Z.of_nat (String.length ds) in
  let leftdigits := exponent x + len in
  let dotplace :=
    if (exponent x <=? 0) && (-6 <? leftdigits) then leftdigits else 1 in
  let '(intpart, fracpart) :=
    if dotplace <=? 0 then
      ("0", "." ++ zeros (Z.to_nat (- dotplace)) ++ ds)
    else if len <=? dotplace then
      (ds ++ zeros (Z.to_nat (dotplace - len)), "")
    else
      (substring 0 (Z.to_nat dotplace) ds,
       "." ++ substring (Z.to_nat dotplace) (Z.to_nat (len - dotplace)) ds) in
  let exp :=
    if leftdigits =? dotplace then ""
    else
      let d := leftdigits - dotplace in
      "E" ++ (if d <? 0 then "-" else "+") ++ digits (Z.abs d) in
  (if sign x then "-" else "") ++ intpart ++ fracpart ++ exp.

End PyDecimal.

(** ** Python values *)

(** A number as the two classes meet it: an [int] or a [Decimal].  The
    [int] is the [0] that [sum] starts from, and the integer that
    [Line.__str__] makes of a whole coefficient. *)
Inductive pynum : Type :=
| NInt (z : Z)
| NDec (d : PyDecimal.dec).

(** [Decimal(n)], the conversion the decimal operators apply to an [int]
    operand. *)
Definition num_dec (n : pynum) : PyDecimal.dec :=
  match n with
  | NInt z => PyDecimal.of_int z
  | NDec d => d
  end.

(** [n + d] for a [Decimal] [d]: on an [int] it is [d.__radd__(n)]. *)
Definition num_add (n : pynum) (d : PyDecimal.dec) : result pynum :=
  match n with
  | NInt z => r <- PyDecimal.add d (PyDecimal.of_int z) ;; Ok (NDec r)
  | NDec a => r <- PyDecimal.add a d ;; Ok (NDec r)
  end.

(** [n - d] for a [Decimal] [d]: on an [int] it is [d.__rsub__(n)]. *)
Definition num_sub (n : pynum) (d : PyDecimal.dec) : result PyDecimal.dec :=
  PyDecimal.sub (num_dec n) d.

(** [abs(n)] *)
Definition num_abs (n : pynum) : result pynum :=
  match n with
  | NInt z => Ok (NInt (Z.abs z))
  | NDec d => r <- PyDecimal.abs d ;; Ok (NDec r)
  end.

(** [n < d] for a [Decimal] [d]. *)
Definition num_lt (n : pynum) (d : PyDecimal.dec) : bool :=
  PyDecimal.lt (num_dec n) d.

(** [sum(g)] over a generator of decimals: starts from the [int] zero and
    adds the items as they are produced. *)
Definition sum (g : generator PyDecimal.dec) : result pynum :=
  fold_left (fun acc item => a <- acc ;; x <- item ;; num_add a x)
            g (Ok (NInt 0)).

(** What a coordinate can be given as: [None], an [int] or a [Decimal].
    A numeric string such as ['10.115'] is taken as the [Decimal] it
    reads as. *)
Inductive pyelem : Type :=
| ENone
| EInt (z : Z)
| EDec (d : PyDecimal.dec).

(** [Decimal(x)] *)
Definition Decimal (x : pyelem) : result PyDecimal.dec :=
  match x with
  | ENone => Raise (TypeError "conversion from NoneType to Decimal is not supported")
  | EInt z => Ok (PyDecimal.of_int z)
  | EDec d => Ok d
  end.

(** [bool(x)] *)
Definition elem_truthy (x : pyelem) : bool :=
  match x with
  | ENone => false
  | EInt z => negb (z =? 0)
  | EDec d => negb (PyDecimal.is_zero d)
  end.

(** What [Vector] can be given as coordinates: [None], a number, a list,
    a tuple, or a generator (any iterator). *)
Inductive pyobj : Type :=
| ONone
| OInt (z : Z)
| OList (l : list pyelem)
| OTuple (l : list pyelem)
| OGen (g : generator pyelem).

(** [bool(o)]: an empty list or tuple is false; a generator is true
    whatever it yields. *)
Definition truthy (o : pyobj) : bool :=
  match o with
  | ONone => false
  | OInt z => negb (z =? 0)
  | OList l | OTuple l => match l with [] => false | _ => true end
  | OGen _ => true
  end.

(** [iter(o)] *)
Definition iter (o : pyobj) : result (generator pyelem) :=
  match o with
  | ONone => Raise (TypeError "'NoneType' object is not iterable")
  | OInt _ => Raise (TypeError "'int' object is not iterable")
  | OList l | OTuple l => Ok (gen_of l)
  | OGen g => Ok g
  end.

(** A generator of decimals as a generator of coordinates. *)
Definition gen_dec (g : generator PyDecimal.dec) : generator pyelem :=
  map (fun item => x <- item ;; Ok (EDec x)) g.

(** ** The class [Vector] *)

Module Vector.

Record t : Type := mk { coordinates : list PyDecimal.dec; tolerance : PyDecimal.dec }.

(** [self.dimension = len(self.coordinates)] *)
Definition dimension (v : t) : Z := Z.of_nat (List.length (coordinates v)).

(** The default of the parameter [tolerance]: [Decimal('1e-15')]. *)
Definition default_tolerance : PyDecimal.dec := PyDecimal.mkdec false 1 (-15).

(** [Vector(coordinates, tolerance)]: the [try] block, and the two
    handlers that replace a [ValueError] and a [TypeError] raised in
    it, whatever raised them. *)
Definition __init__ (coordinates : pyobj) (tolerance : PyDecimal.dec) : result t :=
  let body :=
    if negb (truthy coordinates) then Raise (ValueError "")
    else
      g <- iter coordinates ;;
      cs <- collect (map (fun item => x <- item ;; Decimal x) g) ;;
      Ok (mk cs tolerance) in
  match body with
  | Raise (ValueError _) => Raise (ValueError "Coordinates must be non-empty")
  | Raise (TypeError _) => Raise (TypeError "Coordinates must be an iterable")
  | r => r
  end.

(** [Vector(g)] on a generator expression of decimals, with the default
    tolerance: the form every method below returns its result in. *)
Definition of_gen (g : generator PyDecimal.dec) : result t :=
  __init__ (OGen (gen_dec g)) default_tolerance.

(** [self[i]]: indexing of a tuple, negative indices counting from the
    end. *)
Definition __getitem__ (v : t) (i : Z) : result PyDecimal.dec :=
  let n := dimension v in
  let j := if i <? 0 then i + n else i in
  if (0 <=? j) && (j <? n) then
    match nth_error (coordinates v) (Z.to_nat j) with
    | Some x => Ok x
    | None => Raise (IndexError "tuple index out of range")
    end
  else Raise (IndexError "tuple index out of range").

(** [self == other]: equality of the coordinate tuples, item by item in
    value. *)
Fixpoint coords_eqb (l1 l2 : list PyDecimal.dec) : bool :=
  match l1, l2 with
  | [], [] => true
  | x :: l1', y :: l2' => PyDecimal.eqb x y && coords_eqb l1' l2'
  | _, _ => false
  end.

Definition __eq__ (v w : t) : bool := coords_eqb (coordinates v) (coordinates w).

Definition add (v w : t) : result t :=
  of_gen (map (fun '(x, y) => PyDecimal.add x y) (zip (coordinates v) (coordinates w))).

Definition subtract (v w : t) : result t :=
  of_gen (map (fun '(x, y) => PyDecimal.sub x y) (zip (coordinates v) (coordinates w))).

Definition dot (v w : t) : result pynum :=
  sum (map (fun '(x, y) => PyDecimal.mul x y) (zip (coordinates v) (coordinates w))).

(** [self * other] for a number [other]: scalar multiplication. *)
Definition scale (v : t) (other : pynum) : result t :=
  of_gen (map (fun x => PyDecimal.mul x (num_dec other)) (coordinates v)).

(** [sum(...).sqrt()]: the sum of no coordinates is the [int] [0], which
    has no method [sqrt]. *)
Definition magnitude (v : t) : result PyDecimal.dec :=
  s <- sum (map PyDecimal.pow2 (coordinates v)) ;;
  match s with
  | NInt _ => Raise (AttributeError "'int' object has no attribute 'sqrt'")
  | NDec d => PyDecimal.sqrt d
  end.

Definition normalized (v : t) : result t :=
  m <- magnitude v ;;
  if PyDecimal.is_zero m then
    Raise (ZeroDivisionError "Cannot normalize the zero vector")
  else of_gen (map (fun x => PyDecimal.div x m) (coordinates v)).

Definition is_zero (v : t) : result bool :=
  m <- magnitude v ;;
  Ok (PyDecimal.lt m (tolerance v)).

Definition is_orthogonal_to (v w : t) : result bool :=
  d <- dot v w ;;
  a <- num_abs d ;;
  Ok (num_lt a (tolerance v)).

Definition is_parallel_to (v w : t) : result bool :=
  zv <- is_zero v ;;
  zw <- (if zv then Ok true else is_zero w) ;;
  if zv || zw then Ok true
  else
    d <- dot v w ;;
    a <- num_abs d ;;
    mv <- magnitude v ;;
    mw <- magnitude w ;;
    p <- PyDecimal.mul mv mw ;;
    diff <- num_sub a p ;;
    r <- PyDecimal.abs diff ;;
    Ok (PyDecimal.lt r (tolerance v)).

(** The handler of [parallel_to]: a [ZeroDivisionError] becomes an
    [ArithmeticError]. *)
Definition parallel_to (v w : t) : result t :=
  let body :=
    norm_other <- normalized w ;;
    s <- dot v norm_other ;;
    scale norm_other s in
  match body with
  | Raise e =>
      if is_ZeroDivisionError e then
        Raise (ArithmeticError "No unique parallel component to zero vector")
      else Raise e
  | r => r
  end.

(** The handler of [orthogonal_to]: every [ArithmeticError] is replaced. *)
Definition orthogonal_to (v w : t) : result t :=
  let body := p <- parallel_to v w ;; subtract v p in
  match body with
  | Raise e =>
      if is_ArithmeticError e then
        Raise (ArithmeticError "No unique orthogonal component to zero vector")
      else Raise e
  | r => r
  end.

Definition cross (v w : t) : result t :=
  if negb ((dimension v =? dimension w) && (dimension w =? 3)) then
    Raise (Exception "Cross product is only defined in three dimensions")
  else
    v0 <- __getitem__ v 0 ;; v1 <- __getitem__ v 1 ;; v2 <- __getitem__ v 2 ;;
    w0 <- __getitem__ w 0 ;; w1 <- __getitem__ w 1 ;; w2 <- __getitem__ w 2 ;;
    a <- PyDecimal.mul v1 w2 ;; b <- PyDecimal.mul v2 w1 ;;
    x <- PyDecimal.sub a b ;;
    a <- PyDecimal.mul v0 w2 ;; b <- PyDecimal.mul v2 w0 ;;
    d <- PyDecimal.sub a b ;;
    y <- PyDecimal.neg d ;;
    a <- PyDecimal.mul v0 w1 ;; b <- PyDecimal.mul v1 w0 ;;
    z <- PyDecimal.sub a b ;;
    __init__ (OList [EDec x; EDec y; EDec z]) default_tolerance.

(** [angle_with]: [math.acos] and [math.degrees] work in binary floating
    point, outside decimal arithmetic, and are parameters here: [acos]
    takes the number that the product of the two normalized vectors
    returns.  The handler replaces a [ZeroDivisionError], whatever
    raised it. *)
Definition angle_with {float : Type} (acos : pynum -> result float)
    (degrees : float -> float) (v w : t) (in_degrees : bool) : result float :=
  let body :=
    nv <- normalized v ;;
    nw <- normalized w ;;
    d <- dot nv nw ;;
    angle <- acos d ;;
    if in_degrees then Ok (degrees angle) else Ok angle in
  match body with
  | Raise e =>
      if is_ZeroDivisionError e then
        Raise (ArithmeticError "Cannot compute an angle with the zero vector")
      else Raise e
  | r => r
  end.

End Vector.

(** ** The class [Line] *)

Module Line.

Definition NO_NONZERO_ELTS_FOUND_MSG : string := "No non-zero elements found".

(** [self.dimension = 2] *)
Definition dimension : Z := 2.

(** [base_point] is [None] or a [Vector]. *)
Record t : Type := mk {
  normal_vector : Vector.t;
  constant_term : PyDecimal.dec;
  tolerance : PyDecimal.dec;
  base_point : option Vector.t
}.

(** The loop of [first_nonzero_index] over [enumerate(normal_vector)],
    from [position] on. *)
Fixpoint first_nonzero_from (items : list PyDecimal.dec) (tol : PyDecimal.dec)
    (position : Z) : result Z :=
  match items with
  | [] => Raise (Exception NO_NONZERO_ELTS_FOUND_MSG)
  | item :: rest =>
      a <- PyDecimal.abs item ;;
      if negb (PyDecimal.lt a tol) then Ok position
      else first_nonzero_from rest tol (position + 1)
  end.

(** [first_nonzero_index] on the two fields it reads; [set_basepoint]
    calls it before the line has its base point. *)
Definition first_nonzero_index_of (n : Vector.t) (tol : PyDecimal.dec) : result Z :=
  first_nonzero_from (Vector.coordinates n) tol 0.

Definition first_nonzero_index (l : t) : result Z :=
  first_nonzero_index_of (normal_vector l) (tolerance l).

(** [l[i] = x] on a list, for [i >= 0]. *)
Fixpoint list_set {A : Type} (l : list A) (i : nat) (x : A) : result (list A) :=
  match l, i with
  | [], _ => Raise (IndexError "list assignment index out of range")
  | _ :: l', O => Ok (x :: l')
  | y :: l', S i' => l'' <- list_set l' i' x ;; Ok (y :: l'')
  end.

(** The string ['0'] of [basepoint_coords], as the [Decimal] it reads as. *)
Definition str_0 : pyelem := EDec (PyDecimal.mkdec false 0 0).

(** [set_basepoint]: the base point the constructor stores, [None] when
    the exception caught carries the message of [first_nonzero_index]. *)
Definition set_basepoint (n : Vector.t) (c tol : PyDecimal.dec)
    : result (option Vector.t) :=
  let body :=
    let basepoint_coords := repeat str_0 (Z.to_nat dimension) in
    initial_index <- first_nonzero_index_of n tol ;;
    initial_coefficient <- Vector.__getitem__ n initial_index ;;
    q <- PyDecimal.div c initial_coefficient ;;
    basepoint_coords <- list_set basepoint_coords (Z.to_nat initial_index) (EDec q) ;;
    v <- Vector.__init__ (OList basepoint_coords) Vector.default_tolerance ;;
    Ok (Some v) in
  match body with
  | Raise e =>
      if String.eqb (exn_str e) NO_NONZERO_ELTS_FOUND_MSG then Ok None
      else Raise e
  | r => r
  end.

(** [Line(normal_vector, constant_term, tolerance)]; a [Vector] is always
    true, so only [None] takes the default normal vector. *)
Definition __init__ (normal_vector : option Vector.t) (constant_term : pyelem)
    (tolerance : PyDecimal.dec) : result t :=
  n <- match normal_vector with
       | Some v => Ok v
       | None => Vector.__init__ (OList (repeat (EInt 0) (Z.to_nat dimension))) tolerance
       end ;;
  let constant_term :=
    if negb (elem_truthy constant_term) then EDec (PyDecimal.of_int 0)
    else constant_term in
  c <- Decimal constant_term ;;
  bp <- set_basepoint n c tolerance ;;
  Ok (mk n c tolerance bp).

(** [if x % 1 == 0: x = int(x)] *)
Definition whole (x : PyDecimal.dec) : result pynum :=
  m <- PyDecimal.mod_ x (PyDecimal.of_int 1) ;;
  Ok (if PyDecimal.eqb m (PyDecimal.of_int 0) then NInt (PyDecimal.to_int x)
      else NDec x).

(** ['{}'.format(n)] *)
Definition num_str (n : pynum) : string :=
  match n with
  | NInt z => PyDecimal.str_int z
  | NDec d => PyDecimal.str d
  end.

Definition write_coefficient (num_decimal_places : Z)
    (coefficient : PyDecimal.dec) (is_initial_term : bool) : result string :=
  r <- PyDecimal.round coefficient num_decimal_places ;;
  coefficient <- whole r ;;
  let zero := PyDecimal.of_int 0 in
  let output := "" in
  let output := if num_lt coefficient zero then output ++ "-" else output in
  let output :=
    if PyDecimal.lt zero (num_dec coefficient) && negb is_initial_term
    then output ++ "+" else output in
  let output := if negb is_initial_term then output ++ " " else output in
  a <- num_abs coefficient ;;
  if negb (PyDecimal.eqb (num_dec a) (PyDecimal.of_int 1))
  then Ok (output ++ num_str a) else Ok output.

(** The list comprehension of [__str__] over the indices [range]. *)
Fixpoint terms (num_decimal_places : Z) (n : Vector.t) (initial_index : Z)
    (range : list Z) : result (list string) :=
  match range with
  | [] => Ok []
  | i :: range' =>
      x <- Vector.__getitem__ n i ;;
      r <- PyDecimal.round x num_decimal_places ;;
      if negb (PyDecimal.eqb r (PyDecimal.of_int 0)) then
        x <- Vector.__getitem__ n i ;;
        w <- write_coefficient num_decimal_places x (i =? initial_index) ;;
        ts <- terms num_decimal_places n initial_index range' ;;
        Ok ((w ++ "x_" ++ PyDecimal.str_int (i + 1)) :: ts)
      else terms num_decimal_places n initial_index range'
  end.

(** [' '.join(l)] *)
Fixpoint join (sep : string) (l : list string) : string :=
  match l with
  | [] => ""
  | [s] => s
  | s :: l' => s ++ sep ++ join sep l'
  end.

(** The left-hand side that [__str__] builds in its [try] block and
    handler. *)
Definition lhs (l : t) : result string :=
  let num_decimal_places := 3 in
  let n := normal_vector l in
  let body :=
    initial_index <- first_nonzero_index l ;;
    ts <- terms num_decimal_places n initial_index [0; 1] ;;
    Ok (join " " ts) in
  match body with
  | Raise e =>
      if String.eqb (exn_str e) NO_NONZERO_ELTS_FOUND_MSG then Ok "0"
      else Raise e
  | r => r
  end.

(** [str(l)] *)
Definition __str__ (l : t) : result string :=
  let num_decimal_places := 3 in
  output <- lhs l ;;
  constant <- PyDecimal.round (constant_term l) num_decimal_places ;;
  constant <- whole constant ;;
  Ok (output ++ " = " ++ num_str constant).

Definition is_parallel_to (l other : t) : result bool :=
  Vector.is_parallel_to (normal_vector l) (normal_vector other).

(** [self.base_point - other.base_point]: [None] has no subtraction, and
    [Vector.subtract] reads [other.coordinates]. *)
Definition sub_base_points (p q : option Vector.t) : result Vector.t :=
  match p, q with
  | Some v, Some w => Vector.subtract v w
  | Some _, None =>
      Raise (AttributeError "'NoneType' object has no attribute 'coordinates'")
  | None, Some _ =>
      Raise (TypeError "unsupported operand type(s) for -: 'NoneType' and 'Vector'")
  | None, None =>
      Raise (TypeError "unsupported operand type(s) for -: 'NoneType' and 'NoneType'")
  end.

(** [self == other] *)
Definition __eq__ (l other : t) : result bool :=
  p <- is_parallel_to l other ;;
  if p then
    z <- Vector.is_zero (normal_vector l) ;;
    if z then
      z' <- Vector.is_zero (normal_vector other) ;;
      if negb z' then Ok false
      else
        diff <- PyDecimal.sub (constant_term l) (constant_term other) ;;
        a <- PyDecimal.abs diff ;;
        Ok (PyDecimal.lt a (tolerance l))
    else
      z' <- Vector.is_zero (normal_vector other) ;;
      if z' then Ok false
      else
        connecting_vector <- sub_base_points (base_point l) (base_point other) ;;
        z'' <- Vector.is_zero connecting_vector ;;
        if z'' then Ok true
        else
          o <- Vector.is_orthogonal_to connecting_vector (normal_vector l) ;;
          if o then Ok true else Ok false
  else Ok false.

(** What [intersection] returns: [self], [None], or the pair [(x, y)]. *)
Inductive intersection_result : Type :=
| ISelf (l : t)
| INone
| IPoint (x y : PyDecimal.dec).

(** The [else] branch of [intersection]. *)
Definition solve (l other : t) : result intersection_result :=
  a <- Vector.__getitem__ (normal_vector l) 0 ;;
  b <- Vector.__getitem__ (normal_vector l) 1 ;;
  let c := constant_term l in
  d <- Vector.__getitem__ (normal_vector other) 0 ;;
  e <- Vector.__getitem__ (normal_vector other) 1 ;;
  let f := constant_term other in
  ce <- PyDecimal.mul c e ;; bf <- PyDecimal.mul b f ;;
  nx <- PyDecimal.sub ce bf ;;
  ae <- PyDecimal.mul a e ;; bd <- PyDecimal.mul b d ;;
  den <- PyDecimal.sub ae bd ;;
  x <- PyDecimal.div nx den ;;
  af <- PyDecimal.mul a f ;; dc <- PyDecimal.mul d c ;;
  ny <- PyDecimal.sub af dc ;;
  ae <- PyDecimal.mul a e ;; bd <- PyDecimal.mul b d ;;
  den <- PyDecimal.sub ae bd ;;
  y <- PyDecimal.div ny den ;;
  Ok (IPoint x y).

Definition intersection (l other : t) : result intersection_result :=
  e <- __eq__ l other ;;
  if e then Ok (ISelf l)
  else
    p <- is_parallel_to l other ;;
    if p then Ok INone else solve l other.

End Line.

(** ** Vocabulary of the properties *)

(** The three signals of the decimal context. *)
Definition decimal_signal (e : exn) : Prop :=
  e = Overflow \/ e = InvalidOperation \/ e = DivisionByZero.


(** The vectors that the arithmetic of [Vector] and the constructor of
    [Line] produce. *)
Inductive produced : Vector.t -> Prop :=
| produced_add v w r : Vector.add v w = Ok r -> produced r
| produced_subtract v w r : Vector.subtract v w = Ok r -> produced r
| produced_scale v s r : Vector.scale v s = Ok r -> produced r
| produced_normalized v r : Vector.normalized v = Ok r -> produced r
| produced_parallel_to v w r : Vector.parallel_to v w = Ok r -> produced r
| produced_orthogonal_to v w r : Vector.orthogonal_to v w = Ok r -> produced r
| produced_cross v w r : Vector.cross v w = Ok r -> produced r
| produced_base_point n c tol l r :
    Line.__init__ n c tol = Ok l -> Line.base_point l = Some r -> produced r.

(** The determinant [a*e - b*d] of the system of two lines, in decimal
    arithmetic. *)
Definition determinant (a b d e : PyDecimal.dec) : result PyDecimal.dec :=
  ae <- PyDecimal.mul a e ;;
  bd <- PyDecimal.mul b d ;;
  PyDecimal.sub ae bd.

(** Cramer's rule for [a*x + b*y = c], [d*x + e*y = f] as the
    specification writes it: [x = (c*e - b*f) / (a*e - b*d)] and
    [y = (a*f - d*c) / (a*e - b*d)]. *)
Definition cramer (a b c d e f : PyDecimal.dec)
    : result (PyDecimal.dec * PyDecimal.dec) :=
  nx <- (ce <- PyDecimal.mul c e ;; bf <- PyDecimal.mul b f ;; PyDecimal.sub ce bf) ;;
  den <- determinant a b d e ;;
  x <- PyDecimal.div nx den ;;
  ny <- (af <- PyDecimal.mul a f ;; dc <- PyDecimal.mul d c ;; PyDecimal.sub af dc) ;;
  den <- determinant a b d e ;;
  y <- PyDecimal.div ny den ;;
  Ok (x, y).

(** The inputs that are empty or not iterable. *)
Definition empty_or_not_iterable (o : pyobj) : bool :=
  match iter o with
  | Raise _ => true
  | Ok [] => true
  | Ok (_ :: _) => false
  end.

(** [abs(x) < tol] and its negation, when [abs(x)] returns. *)
Definition below (tol x : PyDecimal.dec) : Prop :=
  exists a, PyDecimal.abs x = Ok a /\ PyDecimal.lt a tol = true.
Definition not_below (tol x : PyDecimal.dec) : Prop :=
  exists a, PyDecimal.abs x = Ok a /\ PyDecimal.lt a tol = false.

(** A number that [_fix] has put in the range of the context: at most
    [prec] digits, the exponent between [Etiny] and [Emax]. *)
Definition fixed (x : PyDecimal.dec) : Prop :=
  PyDecimal.Etiny PyDecimal.prec <= PyDecimal.exponent x /\
  (PyDecimal.is_zero x = true -> PyDecimal.exponent x <= PyDecimal.Emax) /\
  (PyDecimal.is_zero x = false ->
   PyDecimal.ndigits (Z.of_N (PyDecimal.coeff x)) <= PyDecimal.prec /\
   PyDecimal.adjusted x <= PyDecimal.Emax).

(** [x] written with [k] more zeros at the end of its coefficient: the
    same value at a smaller exponent. *)
Definition pad (x : PyDecimal.dec) (k : Z) : PyDecimal.dec :=
  PyDecimal.mkdec (PyDecimal.sign x)
    (Z.to_N (Z.of_N (PyDecimal.coeff x) * 10 ^ k)) (PyDecimal.exponent x - k).

(** [r] is [x] up to trailing zeros, or both are zeros. *)
Definition same (r x : PyDecimal.dec) : Prop :=
  (PyDecimal.is_zero x = true /\ PyDecimal.is_zero r = true) \/
  (PyDecimal.is_zero x = false /\ exists k, 0 <= k /\ r = pad x k).

(** The value of [x] in units of [10^m], for an exponent [m] not above
    that of [x]. *)
Definition scaled (m : Z) (x : PyDecimal.dec) : Z :=
  PyDecimal.signed x * 10 ^ (PyDecimal.exponent x - m).


(** A vector of the zero vector's coordinates: at least one coordinate,
    every one a zero. *)
Definition zero_vector (v : Vector.t) : Prop :=
  Vector.coordinates v <> [] /\
  Forall (fun x => PyDecimal.is_zero x = true) (Vector.coordinates v).

(** [n == 0] for a number. *)
Definition num_is_zero (n : pynum) : bool := PyDecimal.is_zero (num_dec n).

(** [y] is [x] negated: the same coefficient and exponent under the
    other sign; the sign of a zero is left open. *)
Definition opposite (x y : PyDecimal.dec) : Prop :=
  PyDecimal.coeff y = PyDecimal.coeff x /\
  PyDecimal.exponent y = PyDecimal.exponent x /\
  (PyDecimal.is_zero x = false -> PyDecimal.sign y = negb (PyDecimal.sign x)).

(** The constant term a line stores: [Decimal(constant_term)] for a true
    argument, [Decimal(0)] for [None] and for a zero. *)
Definition constant_of (constant_term : pyelem) : PyDecimal.dec :=
  match constant_term with
  | ENone => PyDecimal.of_int 0
  | EInt z => PyDecimal.of_int z
  | EDec d => if PyDecimal.is_zero d then PyDecimal.of_int 0 else d
  end.

(** [x] and [y] have one value: they are the same number of units of the
    smaller of their exponents. *)
Definition same_value (x y : PyDecimal.dec) : Prop :=
  scaled (Z.min (PyDecimal.exponent x) (PyDecimal.exponent y)) x
  = scaled (Z.min (PyDecimal.exponent x) (PyDecimal.exponent y)) y.

(** [y] is [x] up to the sign of a zero: the same coefficient and
    exponent, and the same sign unless they are zeros. *)
Definition alike (x y : PyDecimal.dec) : Prop :=
  PyDecimal.coeff y = PyDecimal.coeff x /\
  PyDecimal.exponent y = PyDecimal.exponent x /\
  (PyDecimal.is_zero x = false -> PyDecimal.sign y = PyDecimal.sign x).

(** *** Values of the examples *)

(** [Decimal('1e-15')], [Decimal('0.5')] *)
Definition tol_default : PyDecimal.dec := PyDecimal.mkdec false 1 (-15).
Definition tol_half : PyDecimal.dec := PyDecimal.mkdec false 5 (-1).

(** [Vector([1, 0], tolerance=Decimal('0.5'))] and [Vector([1, 1])] *)
Definition v_10_half : Vector.t :=
  Vector.mk [PyDecimal.of_int 1; PyDecimal.of_int 0] tol_half.
Definition v_11 : Vector.t :=
  Vector.mk [PyDecimal.of_int 1; PyDecimal.of_int 1] tol_default.

(** [Vector([1, 2, 0])] and [Vector(['6.984', '-5.975', '4.778'])], the
    vectors [a] and [b] of [test_vector]. *)
Definition v_a : Vector.t :=
  Vector.mk [PyDecimal.of_int 1; PyDecimal.of_int 2; PyDecimal.of_int 0] tol_default.
Definition v_b : Vector.t :=
  Vector.mk [PyDecimal.mkdec false 6984 (-3); PyDecimal.mkdec true 5975 (-3);
             PyDecimal.mkdec false 4778 (-3)] tol_default.

(** [Vector([100000000, 200000000])] *)
Definition v_big : Vector.t :=
  Vector.mk [PyDecimal.of_int 100000000; PyDecimal.of_int 200000000] tol_default.

(** [Line(v_big, 1)] and [Line(v_big, 2)], with the base points
    [(1E-8, 0)] and [(2E-8, 0)] that the constructor computes. *)
Definition line_big_1 : Line.t :=
  Line.mk v_big (PyDecimal.of_int 1) tol_default
    (Some (Vector.mk [PyDecimal.mkdec false 1 (-8); PyDecimal.mkdec false 0 0]
                     tol_default)).
Definition line_big_2 : Line.t :=
  Line.mk v_big (PyDecimal.of_int 2) tol_default
    (Some (Vector.mk [PyDecimal.mkdec false 2 (-8); PyDecimal.mkdec false 0 0]
                     tol_default)).

(** The lines [l1], [l2], [l3], [l4] and [l6] of [test_line], as the
    arguments of their constructors. *)
Definition mk_line (n1 n2 c : PyDecimal.dec) : result Line.t :=
  v <- Vector.__init__ (OList [EDec n1; EDec n2]) Vector.default_tolerance ;;
  Line.__init__ (Some v) (EDec c) Vector.default_tolerance.
Definition line_1 : result Line.t :=
  mk_line (PyDecimal.mkdec false 10115 (-3)) (PyDecimal.mkdec false 709 (-2))
          (PyDecimal.mkdec false 1 (-1)).
Definition line_2 : result Line.t :=
  mk_line (PyDecimal.mkdec false 10115 (-3)) (PyDecimal.mkdec false 709 (-2))
          (PyDecimal.mkdec false 3025 (-3)).
Definition line_3 : result Line.t :=
  mk_line (PyDecimal.mkdec false 7204 (-3)) (PyDecimal.mkdec false 3182 (-3))
          (PyDecimal.mkdec false 868 (-2)).
Definition line_4 : result Line.t :=
  mk_line (PyDecimal.mkdec false 8172 (-3)) (PyDecimal.mkdec false 4114 (-3))
          (PyDecimal.mkdec false 9883 (-3)).
Definition line_6 : result Line.t :=
  mk_line (PyDecimal.mkdec false 1773 (-3)) (PyDecimal.mkdec false 8343 (-3))
          (PyDecimal.mkdec false 9525 (-3)).

(** The lines of the examples as values. *)
Definition unwrap (r : result Line.t) (d : Line.t) : Line.t :=
  match r with
  | Ok l => l
  | Raise _ => d
  end.
Definition l1 : Line.t := Eval vm_compute in unwrap line_1 line_big_1.
Definition l2 : Line.t := Eval vm_compute in unwrap line_2 line_big_1.
Definition l3 : Line.t := Eval vm_compute in unwrap line_3 line_big_1.
Definition l4 : Line.t := Eval vm_compute in unwrap line_4 line_big_1.
Definition l6 : Line.t := Eval vm_compute in unwrap line_6 line_big_1.

(** [Line()], the line of the default arguments. *)
Definition line_0 : Line.t :=
  Eval vm_compute in unwrap (Line.__init__ None ENone Vector.default_tolerance) line_big_1.

(** [Line(Vector(['0.0001', '0.0001']), 1)] *)
Definition line_small : Line.t :=
  Eval vm_compute in
    unwrap (mk_line (PyDecimal.mkdec false 1 (-4)) (PyDecimal.mkdec false 1 (-4))
                    (PyDecimal.of_int 1)) line_big_1.

(** [Vector(['8E-16', '8E-16'])] and [Line(Vector(['8E-16', '8E-16']), 1)] *)
Definition v_tiny : Vector.t :=
  Vector.mk [PyDecimal.mkdec false 8 (-16); PyDecimal.mkdec false 8 (-16)] tol_default.
Definition line_tiny : Line.t :=
  Line.mk v_tiny (PyDecimal.of_int 1) tol_default None.



(** [Vector([0, 0])] and [Vector(['1E+600000', 0])] *)
Definition v_00 : Vector.t :=
  Vector.mk [PyDecimal.of_int 0; PyDecimal.of_int 0] tol_default.
Definition v_huge : Vector.t :=
  Vector.mk [PyDecimal.mkdec false 1 600000; PyDecimal.of_int 0] tol_default.


(** [Vector(['1.0', '1.00'], tolerance=Decimal('0.5'))] *)
Definition v_11_padded : Vector.t :=
  Vector.mk [PyDecimal.mkdec false 10 (-1); PyDecimal.mkdec false 100 (-2)] tol_half.

(** [Vector(x for x in [])], the vector without coordinates. *)
Definition v_empty : Vector.t := Vector.mk [] tol_default.

(** [Line(Vector([5]), 1)], a line on a normal vector of one coordinate,
    with the base point [(0.2, 0)] that the constructor computes. *)
Definition line_one : Line.t :=
  Line.mk (Vector.mk [PyDecimal.of_int 5] tol_default) (PyDecimal.of_int 1) tol_default
    (Some (Vector.mk [PyDecimal.mkdec false 2 (-1); PyDecimal.mkdec false 0 0]
                     tol_default)).

(** [Vector([0, 0, 0])] *)
Definition v_000 : Vector.t :=
  Vector.mk [PyDecimal.of_int 0; PyDecimal.of_int 0; PyDecimal.of_int 0] tol_default.

(** ** Properties of the decimal operations *)

Section DecimalFacts.

Import PyDecimal.

(** [_fix] keeps the sign it is given and signals nothing but [Overflow]. *)
Lemma fix_prec_sign p s c e r : fix_prec p s c e = Ok r -> sign r = s.
Proof.
  unfold fix_prec.
  destruct (c =? 0); [intros [= <-]; reflexivity|].
  destruct (Etop p <? _); [discriminate|].
  destruct (e <? _); [|intros [= <-]; reflexivity].
  destruct (p <? ndigits _); (destruct (Etop p <? _); [discriminate|]);
    intros [= <-]; reflexivity.
Qed.

Lemma fix_prec_raise p s c e x : fix_prec p s c e = Raise x -> x = Overflow.
Proof.
  unfold fix_prec.
  destruct (c =? 0); [discriminate|].
  destruct (Etop p <? _); [intros [= <-]; reflexivity|].
  destruct (e <? _); [|discriminate].
  destruct (p <? ndigits _); (destruct (Etop p <? _); [|discriminate]);
    intros [= <-]; reflexivity.
Qed.

(** A zero never overflows: its exponent is clamped. *)
Lemma fix_prec_zero p s e :
  fix_prec p s 0 e = Ok (mkdec s 0 (Z.min (Z.max e (Etiny p)) Emax)).
Proof. reflexivity. Qed.

Lemma add_raise x y e : add x y = Raise e -> e = Overflow.
Proof.
  unfold add, _fix.
  destruct (is_zero x && is_zero y); [apply fix_prec_raise|].
  destruct (_ =? 0); apply fix_prec_raise.
Qed.

Lemma sub_raise x y e : sub x y = Raise e -> e = Overflow.
Proof. apply add_raise. Qed.

Lemma mul_raise x y e : mul x y = Raise e -> e = Overflow.
Proof. apply fix_prec_raise. Qed.

Lemma mul_comm x y : mul x y = mul y x.
Proof.
  unfold mul.
  now rewrite xorb_comm, Z.mul_comm, (Z.add_comm (exponent x)).
Qed.

(** The result of [sqrt] is a zero or carries the positive sign. *)
Lemma sqrt_sign x r : sqrt x = Ok r -> is_zero r = true \/ sign r = false.
Proof.
  unfold sqrt, _fix.
  destruct (is_zero x).
  - rewrite fix_prec_zero. intros [= <-]. now left.
  - destruct (sign x); [discriminate|].
    destruct (Z.odd (exponent x)); cbv zeta iota beta;
      destruct (0 <=? _); cbv zeta iota beta;
      destruct (_ && _); intros H; right; exact (fix_prec_sign _ _ _ _ _ H).
Qed.

(** Every number that is a zero or positive is [>= 0]. *)
Lemma ge_zero x : is_zero x = true \/ sign x = false -> ge x (of_int 0) = true.
Proof.
  unfold ge, cmp. change (is_zero (of_int 0)) with true.
  destruct (is_zero x); [reflexivity|].
  intros [H|H]; [discriminate|]. now rewrite H.
Qed.

End DecimalFacts.

(** ** Digits, rounding and the range of the context *)

Section DecimalRounding.

Import PyDecimal.

Lemma ndigits_fuel_bounds (fuel : nat) (c : Z) :
  0 < c -> c < 2 ^ (Z.of_nat fuel + 1) ->
  1 <= ndigits_fuel fuel c /\
  10 ^ (ndigits_fuel fuel c - 1) <= c < 10 ^ ndigits_fuel fuel c.
Proof.
  revert c. induction fuel as [|f IH]; intros c Hc Hlt.
  - simpl in *. change (2 ^ 1) with 2 in Hlt. assert (c = 1) by lia. subst.
    simpl. lia.
  - cbn [ndigits_fuel]. destruct (Z.ltb_spec c 10) as [H10|H10].
    + change (10 ^ (1 - 1)) with 1. change (10 ^ 1) with 10. lia.
    + assert (Hq : 0 < c / 10) by (apply Z.div_str_pos; lia).
      assert (Hq' : c / 10 < 2 ^ (Z.of_nat f + 1)).
      { apply Z.div_lt_upper_bound; [lia|].
        replace (Z.of_nat (S f) + 1) with (Z.succ (Z.of_nat f + 1)) in Hlt by lia.
        rewrite Z.pow_succ_r in Hlt by lia. lia. }
      destruct (IH _ Hq Hq') as [H1 [Hlo Hhi]].
      set (d := ndigits_fuel f (c / 10)) in *.
      split; [lia|].
      replace (1 + d - 1) with (Z.succ (d - 1)) by lia.
      replace (1 + d) with (Z.succ d) by lia.
      rewrite !Z.pow_succ_r by lia.
      pose proof (Z.div_mod c 10 ltac:(lia)) as Hdm.
      pose proof (Z.mod_pos_bound c 10 ltac:(lia)) as Hm.
      lia.
Qed.

Lemma ndigits_bounds (c : Z) :
  0 < c -> 1 <= ndigits c /\ 10 ^ (ndigits c - 1) <= c < 10 ^ ndigits c.
Proof.
  intros Hc. unfold ndigits. apply ndigits_fuel_bounds; [exact Hc|].
  rewrite Z2Nat.id by apply Z.log2_nonneg.
  destruct (Z.log2_spec c Hc) as [_ H]. now rewrite Z.add_1_r.
Qed.

Lemma ndigits_unique (c k : Z) :
  0 < c -> 10 ^ (k - 1) <= c < 10 ^ k -> ndigits c = k.
Proof.
  intros Hc [Hlo Hhi]. destruct (ndigits_bounds c Hc) as [H1 [Hlo' Hhi']].
  assert (Hk : 1 <= k).
  { destruct (Z.lt_ge_cases k 1) as [H|H]; [|exact H]. exfalso.
    destruct (Z.eq_dec k 0) as [->|Hn]; [simpl in Hhi; lia|].
    rewrite Z.pow_neg_r in Hhi by lia. lia. }
  destruct (Z.lt_trichotomy (ndigits c) k) as [H|[H|H]]; [|exact H|]; exfalso.
  - assert (10 ^ ndigits c <= 10 ^ (k - 1)) by (apply Z.pow_le_mono_r; lia). lia.
  - assert (10 ^ k <= 10 ^ (ndigits c - 1)) by (apply Z.pow_le_mono_r; lia). lia.
Qed.

Lemma ndigits_mul_pow (c k : Z) :
  0 < c -> 0 <= k -> ndigits (c * 10 ^ k) = ndigits c + k.
Proof.
  intros Hc Hk. destruct (ndigits_bounds c Hc) as [H1 [Hlo Hhi]].
  assert (Hp : 0 < 10 ^ k) by (apply Z.pow_pos_nonneg; lia).
  apply ndigits_unique; [nia|].
  replace (ndigits c + k - 1) with ((ndigits c - 1) + k) by lia.
  rewrite !Z.pow_add_r by lia. nia.
Qed.

Lemma ndigits_le (c k : Z) : 0 < c -> c < 10 ^ k -> ndigits c <= k.
Proof.
  intros Hc Hlt. destruct (ndigits_bounds c Hc) as [H1 [Hlo _]].
  destruct (Z.le_gt_cases (ndigits c) k) as [H|H]; [exact H|exfalso].
  assert (0 <= k).
  { destruct (Z.lt_ge_cases k 0) as [Hn|Hn]; [|exact Hn].
    rewrite Z.pow_neg_r in Hlt by lia. lia. }
  assert (10 ^ k <= 10 ^ (ndigits c - 1)) by (apply Z.pow_le_mono_r; lia). lia.
Qed.

Lemma is_zero_mk s c e : 0 <= c -> is_zero (mkdec s (Z.to_N c) e) = (c =? 0).
Proof.
  intros H. unfold is_zero. simpl.
  destruct (Z.eqb_spec c 0) as [->|Hn]; [reflexivity|].
  apply N.eqb_neq. intros H0. apply Hn.
  rewrite <- (Z2N.id c H), H0. reflexivity.
Qed.

Lemma round_half_even_exact (c j d : Z) :
  0 <= d <= j -> round_half_even (c * 10 ^ j) d = c * 10 ^ (j - d).
Proof.
  intros [Hd Hj]. unfold round_half_even.
  destruct (Z.leb_spec d 0) as [H|H].
  - assert (d = 0) by lia. subst. now rewrite Z.sub_0_r.
  - assert (Hp : 0 < 10 ^ d) by (apply Z.pow_pos_nonneg; lia).
    replace (c * 10 ^ j) with (c * 10 ^ (j - d) * 10 ^ d)
      by (rewrite <- Z.mul_assoc, <- Z.pow_add_r by lia; f_equal; f_equal; lia).
    rewrite Z.div_mul, Z.mod_mul by lia.
    destruct (Z.ltb_spec (10 ^ d) (2 * 0)); [lia|].
    destruct (Z.eqb_spec (2 * 0) (10 ^ d)); [lia|]. reflexivity.
Qed.

Lemma round_half_even_bound (c d n : Z) :
  0 < c -> 0 < d <= n -> c < 10 ^ n ->
  0 <= round_half_even c d <= 10 ^ (n - d).
Proof.
  intros Hc [Hd Hn] Hlt. unfold round_half_even.
  destruct (Z.leb_spec d 0); [lia|].
  assert (Hp : 0 < 10 ^ d) by (apply Z.pow_pos_nonneg; lia).
  assert (Hq : 0 <= c / 10 ^ d) by (apply Z.div_pos; lia).
  assert (Hq' : c / 10 ^ d < 10 ^ (n - d)).
  { apply Z.div_lt_upper_bound; [lia|].
    rewrite <- Z.pow_add_r by lia. now replace (d + (n - d)) with n by lia. }
  destruct (_ || _); lia.
Qed.

Lemma ndigits_pow10 (k : Z) : 0 <= k -> ndigits (10 ^ k) = k + 1.
Proof.
  intros Hk. assert (Hp : 0 < 10 ^ k) by (apply Z.pow_pos_nonneg; lia).
  apply ndigits_unique; [exact Hp|].
  replace (k + 1 - 1) with k by lia. split; [lia|].
  rewrite Z.pow_add_r by lia. change (10 ^ 1) with 10. lia.
Qed.

Lemma fix_fixed (s : bool) (c e : Z) (r : dec) :
  0 <= c -> _fix s c e = Ok r -> fixed r.
Proof.
  intros Hc. unfold _fix, fix_prec.
  destruct (Z.eqb_spec c 0) as [->|Hn].
  { intros [= <-]. unfold fixed, is_zero, Etiny, Emax, Emin, prec. simpl.
    repeat split; try lia; try discriminate. }
  assert (Hpos : 0 < c) by lia.
  destruct (ndigits_bounds c Hpos) as [Hnd1 [Hlo Hhi]].
  set (nd := ndigits c) in *.
  destruct (Z.ltb_spec (Etop prec) (nd + e - prec)) as [|Htop]; [discriminate|].
  set (em := Z.max (nd + e - prec) (Etiny prec)).
  assert (Hem : nd + e - prec <= em /\ Etiny prec <= em /\ em <= Etop prec).
  { unfold em, Etiny, Etop, Emin, Emax, prec in *. lia. }
  destruct (Z.ltb_spec e em) as [Hlt|Hge].
  - unfold round_to. fold nd.
    destruct (Z.ltb_spec (nd + e - em) 0) as [Hdig|Hdig].
    + change (round_half_even 1 1) with 0. change (ndigits 0) with 1.
      change (prec <? 1) with false. cbv iota beta.
      destruct (Z.ltb_spec (Etop prec) em); [discriminate|].
      intros [= <-]. unfold fixed, is_zero; simpl.
      unfold Etiny, Etop, Emin, Emax, prec in *. repeat split; try lia; try discriminate.
    + assert (Hd : 0 < em - e <= nd) by (clear -Hlt Hdig; lia).
      pose proof (round_half_even_bound c (em - e) nd Hpos Hd Hhi) as [Hq0 Hq1].
      set (q := round_half_even c (em - e)) in *. clearbody q.
      assert (Hq2 : q <= 10 ^ prec).
      { etransitivity; [exact Hq1|]. apply Z.pow_le_mono_r; lia. }
      destruct (Z.ltb_spec prec (ndigits q)) as [Hbig|Hsmall]; cbv iota beta.
      * assert (Hq : q = 10 ^ prec).
        { destruct (Z.eq_dec q 0) as [Hz|Hq0'];
            [rewrite Hz in Hbig; change (ndigits 0) with 1 in Hbig;
             unfold prec in Hbig; lia|].
          destruct (Z.lt_ge_cases q (10 ^ prec)) as [H|H]; [|lia].
          pose proof (ndigits_le q prec ltac:(lia) H). lia. }
        destruct (Z.ltb_spec (Etop prec) (em + 1)); [discriminate|].
        intros [= <-].
        assert (Hq10 : q / 10 = 10 ^ (prec - 1))
          by (rewrite Hq; reflexivity).
        assert (Hnd10 : ndigits (q / 10) = prec)
          by (rewrite Hq10, ndigits_pow10 by (unfold prec; lia); lia).
        assert (Hpos10 : 0 < q / 10)
          by (rewrite Hq10; apply Z.pow_pos_nonneg; unfold prec; lia).
        unfold fixed, adjusted. rewrite is_zero_mk by lia.
        cbn [coeff exponent]. rewrite Z2N.id by lia. rewrite Hnd10.
        destruct (Z.eqb_spec (q / 10) 0); [lia|].
        unfold Etiny, Etop, Emin, Emax, prec in *.
        repeat split; try lia; try discriminate.
      * destruct (Z.ltb_spec (Etop prec) em); [discriminate|].
        intros [= <-]. unfold fixed, adjusted. rewrite is_zero_mk by lia.
        cbn [coeff exponent]. rewrite Z2N.id by lia.
        destruct (Z.eqb_spec q 0);
          unfold Etiny, Etop, Emin, Emax, prec in *;
          repeat split; try lia; try discriminate.
  - intros [= <-]. unfold fixed, adjusted. rewrite is_zero_mk by lia.
    cbn [coeff exponent]. rewrite Z2N.id by lia. fold nd.
    destruct (Z.eqb_spec c 0); [lia|].
    unfold Etiny, Etop, Emin, Emax, prec in *.
    repeat split; try lia; try discriminate.
Qed.

Lemma add_comm (x y : dec) : add x y = add y x.
Proof.
  unfold add.
  now rewrite (Z.min_comm (exponent y)), (andb_comm (is_zero y)),
    (andb_comm (sign y)), (Z.add_comm (signed y * _)).
Qed.

Lemma is_zero_coeff (x : dec) : is_zero x = true -> Z.of_N (coeff x) = 0.
Proof. unfold is_zero. intros H. apply N.eqb_eq in H. now rewrite H. Qed.

Lemma is_zero_pos (x : dec) : is_zero x = false -> 0 < Z.of_N (coeff x).
Proof.
  unfold is_zero. intros H. apply N.eqb_neq in H.
  destruct (coeff x); [contradiction|reflexivity].
Qed.

Lemma pad_is_zero (x : dec) (k : Z) :
  is_zero x = false -> 0 <= k -> is_zero (pad x k) = false.
Proof.
  intros Hx Hk. pose proof (is_zero_pos x Hx).
  assert (0 < 10 ^ k) by (apply Z.pow_pos_nonneg; lia).
  unfold pad. rewrite is_zero_mk by nia.
  apply Z.eqb_neq. nia.
Qed.

Lemma pad_pad (x : dec) (k j : Z) :
  0 <= k -> 0 <= j -> pad (pad x k) j = pad x (k + j).
Proof.
  intros Hk Hj. unfold pad. cbn [sign coeff exponent].
  assert (0 <= 10 ^ k) by (apply Z.pow_nonneg; lia).
  rewrite Z2N.id by (pose proof (N2Z.is_nonneg (coeff x)); nia).
  rewrite Z.pow_add_r by lia. f_equal; [f_equal|]; lia.
Qed.

(** A padded number has the value of the number. *)
Lemma eqb_pad (x : dec) (k : Z) :
  is_zero x = false -> 0 <= k -> eqb (pad x k) x = true.
Proof.
  intros Hx Hk. unfold eqb, cmp.
  rewrite (pad_is_zero x k Hx Hk), Hx.
  pose proof (is_zero_pos x Hx) as Hc.
  assert (Hp : 0 < 10 ^ k) by (apply Z.pow_pos_nonneg; lia).
  unfold pad, adjusted. cbn [sign coeff exponent].
  rewrite Z2N.id by nia. rewrite ndigits_mul_pow by lia.
  replace (ndigits (Z.of_N (coeff x)) + k + (exponent x - k) - 1)
    with (ndigits (Z.of_N (coeff x)) + exponent x - 1) by lia.
  rewrite Z.compare_refl.
  replace (Z.max 0 (exponent x - k - exponent x)) with 0 by lia.
  replace (Z.max 0 (exponent x - (exponent x - k))) with k by lia.
  rewrite Z.pow_0_r, Z.mul_1_r, Z.compare_refl.
  now destruct (sign x).
Qed.

Lemma same_eqb (r x : dec) : same r x -> eqb r x = true.
Proof.
  intros [[Hx Hr]|[Hx [k [Hk ->]]]].
  - unfold eqb, cmp. now rewrite Hr, Hx.
  - now apply eqb_pad.
Qed.

Lemma same_trans (r2 r1 x : dec) : same r2 r1 -> same r1 x -> same r2 x.
Proof.
  intros H21 [[Hx Hr1]|[Hx [k [Hk ->]]]].
  - left. destruct H21 as [[_ H]|[H _]]; [tauto|congruence].
  - right. split; [exact Hx|].
    destruct H21 as [[H _]|[_ [j [Hj ->]]]].
    + rewrite pad_is_zero in H by assumption. discriminate.
    + exists (k + j). split; [lia|]. now apply pad_pad.
Qed.

(** Adding a zero to a number of the context keeps its value. *)
Lemma add_zero_r (x z : dec) :
  fixed x -> is_zero z = true ->
  exists r, add x z = Ok r /\ fixed r /\ same r x.
Proof.
  intros [Hty [Hfz Hfn]] Hz. unfold add. rewrite Hz, andb_true_r.
  assert (Hsz : signed z = 0)
    by (unfold signed; rewrite (is_zero_coeff z Hz); now destruct (sign z)).
  rewrite Hsz, Z.mul_0_l, Z.add_0_r.
  destruct (is_zero x) eqn:Hx.
  - unfold _fix. rewrite fix_prec_zero. eexists. split; [reflexivity|].
    split; [|left; now split].
    unfold fixed, is_zero. cbn [coeff exponent].
    unfold Etiny, Emin, Emax, prec in *. repeat split; try lia; try discriminate.
  - destruct (Hfn eq_refl) as [Hnd Hadj]. pose proof (is_zero_pos x Hx) as Hc.
    set (e := Z.min (exponent x) (exponent z)).
    set (k := exponent x - e).
    assert (Hk : 0 <= k) by (unfold k, e; lia).
    assert (Hp : 0 < 10 ^ k) by (apply Z.pow_pos_nonneg; lia).
    set (c := Z.of_N (coeff x)) in *.
    assert (Hv : signed x * 10 ^ k = if sign x then - (c * 10 ^ k) else c * 10 ^ k)
      by (unfold signed; fold c; destruct (sign x); lia).
    rewrite Hv.
    assert (Hne : ((if sign x then - (c * 10 ^ k) else c * 10 ^ k) =? 0) = false)
      by (apply Z.eqb_neq; destruct (sign x); nia).
    rewrite Hne.
    assert (Hs : ((if sign x then - (c * 10 ^ k) else c * 10 ^ k) <? 0) = sign x)
      by (destruct (sign x); [apply Z.ltb_lt|apply Z.ltb_ge]; nia).
    assert (Ha : Z.abs (if sign x then - (c * 10 ^ k) else c * 10 ^ k) = c * 10 ^ k)
      by (destruct (sign x); nia).
    rewrite Hs, Ha. clear Hv Hne Hs Ha.
    unfold _fix, fix_prec.
    destruct (Z.eqb_spec (c * 10 ^ k) 0) as [|_]; [nia|].
    rewrite ndigits_mul_pow by lia.
    unfold adjusted in Hadj. fold c in Hadj, Hnd.
    set (nd := ndigits c) in *.
    destruct (Z.ltb_spec (Etop prec) (nd + k + e - prec)) as [Ho|_];
      [unfold k, Etop, Emax, prec in *; lia|].
    set (em := Z.max (nd + k + e - prec) (Etiny prec)).
    assert (Hem : e <= em \/ em <= e) by lia.
    assert (Hem' : em <= exponent x) by (unfold em, k; lia).
    destruct (Z.ltb_spec e em) as [Hlt|Hge].
    + unfold round_to. rewrite ndigits_mul_pow by lia. fold nd.
      destruct (Z.ltb_spec (nd + k + e - em) 0) as [Hd|_];
        [pose proof (ndigits_bounds c Hc); unfold k in *; lia|].
      rewrite round_half_even_exact by (unfold k; lia).
      set (j := k - (em - e)).
      assert (Hj : 0 <= j) by (unfold j, k; lia).
      assert (Hndj : ndigits (c * 10 ^ j) = nd + j) by (apply ndigits_mul_pow; lia).
      rewrite Hndj.
      destruct (Z.ltb_spec prec (nd + j)) as [Hbig|_];
        [unfold j, k, em in *; lia|].
      destruct (Z.ltb_spec (Etop prec) em) as [Ho|_];
        [unfold em, k, Etop, Etiny, Emin, Emax, prec in *; lia|].
      assert (Hr : mkdec (sign x) (Z.to_N (c * 10 ^ j)) em = pad x j).
      { unfold pad. fold c. f_equal. unfold j, k. lia. }
      rewrite Hr. eexists. split; [reflexivity|]. split.
      * unfold fixed. rewrite (pad_is_zero x j Hx Hj).
        unfold pad, adjusted. cbn [coeff exponent]. fold c.
        assert (0 < 10 ^ j) by (apply Z.pow_pos_nonneg; lia).
        rewrite Z2N.id by nia. rewrite Hndj.
        unfold j, k, em, Etiny, Emin, Emax, prec in *.
        repeat split; try lia; try discriminate.
      * right. split; [exact Hx|]. now exists j.
    + assert (Hr : mkdec (sign x) (Z.to_N (c * 10 ^ k)) e = pad x k).
      { unfold pad. fold c. f_equal. unfold k. lia. }
      rewrite Hr. eexists. split; [reflexivity|]. split.
      * unfold fixed. rewrite (pad_is_zero x k Hx Hk).
        unfold pad, adjusted. cbn [coeff exponent]. fold c.
        rewrite Z2N.id by nia. rewrite ndigits_mul_pow by lia. fold nd.
        unfold k, em, Etiny, Emin, Emax, prec in *.
        repeat split; try lia; try discriminate.
      * right. split; [exact Hx|]. now exists k.
Qed.

Lemma mul_fixed (x y r : dec) : mul x y = Ok r -> fixed r.
Proof.
  apply fix_fixed.
  pose proof (N2Z.is_nonneg (coeff x)). pose proof (N2Z.is_nonneg (coeff y)). nia.
Qed.

Lemma mul_zero_r (x z : dec) :
  is_zero z = true -> exists r, mul x z = Ok r /\ is_zero r = true /\ fixed r.
Proof.
  intros Hz. unfold mul. rewrite (is_zero_coeff z Hz), Z.mul_0_r.
  destruct (_fix _ 0 _) as [r|e] eqn:H; [|unfold _fix in H; rewrite fix_prec_zero in H; discriminate].
  exists r. split; [reflexivity|]. split.
  - unfold _fix in H. rewrite fix_prec_zero in H. now injection H as <-.
  - exact (fix_fixed _ _ _ _ (Z.le_refl 0) H).
Qed.

(** The dot product of [(a, b)] with [(q, 0)] has the value of [a * q],
    and with [(0, q)] the value of [b * q]. *)
Lemma dot_pair_left (n bp : Vector.t) (a b q z p : dec) :
  Vector.coordinates n = [a; b] -> Vector.coordinates bp = [q; z] ->
  is_zero z = true -> mul a q = Ok p ->
  exists s, Vector.dot n bp = Ok (NDec s) /\ eqb s p = true.
Proof.
  intros Hn Hbp Hz Hp. unfold Vector.dot, sum. rewrite Hn, Hbp.
  cbn [zip map fold_left]. rewrite Hp. cbn [bind num_add].
  destruct (add_zero_r p (of_int 0) (mul_fixed _ _ _ Hp) eq_refl)
    as [r1 [-> [Hf1 Hs1]]]. cbn [bind].
  destruct (mul_zero_r b z Hz) as [z2 [-> [Hz2 _]]]. cbn [bind num_add].
  destruct (add_zero_r r1 z2 Hf1 Hz2) as [r2 [-> [_ Hs2]]]. cbn [bind].
  exists r2. split; [reflexivity|].
  apply same_eqb. exact (same_trans _ _ _ Hs2 Hs1).
Qed.

Lemma dot_pair_right (n bp : Vector.t) (a b q z p : dec) :
  Vector.coordinates n = [a; b] -> Vector.coordinates bp = [z; q] ->
  is_zero z = true -> mul b q = Ok p ->
  exists s, Vector.dot n bp = Ok (NDec s) /\ eqb s p = true.
Proof.
  intros Hn Hbp Hz Hp. unfold Vector.dot, sum. rewrite Hn, Hbp.
  cbn [zip map fold_left].
  destruct (mul_zero_r a z Hz) as [z1 [-> [Hz1 Hf1]]]. cbn [bind num_add].
  destruct (add_zero_r z1 (of_int 0) Hf1 eq_refl) as [r1 [-> [_ Hs1]]].
  cbn [bind]. rewrite Hp. cbn [bind num_add].
  assert (Hr1 : is_zero r1 = true).
  { destruct Hs1 as [[_ H]|[H _]]; [exact H|congruence]. }
  rewrite add_comm.
  destruct (add_zero_r p r1 (mul_fixed _ _ _ Hp) Hr1) as [r2 [-> [_ Hs2]]].
  cbn [bind]. exists r2. split; [reflexivity|]. now apply same_eqb.
Qed.

Lemma round_half_even_error (c d : Z) :
  0 <= c -> 0 <= d -> 2 * Z.abs (c - round_half_even c d * 10 ^ d) <= 10 ^ d.
Proof.
  intros Hc Hd. unfold round_half_even.
  destruct (Z.leb_spec d 0) as [H|H].
  - assert (d = 0) by lia. subst. rewrite Z.pow_0_r. lia.
  - assert (Hp : 0 < 10 ^ d) by (apply Z.pow_pos_nonneg; lia).
    pose proof (Z.div_mod c (10 ^ d) ltac:(lia)) as Hdm.
    pose proof (Z.mod_pos_bound c (10 ^ d) Hp) as Hm.
    set (p := 10 ^ d) in *. set (q := c / p) in *. set (r := c mod p) in *.
    destruct (Z.ltb_spec p (2 * r)) as [Hup|Hdown]; cbn [orb].
    + nia.
    + destruct (Z.eqb_spec (2 * r) p) as [Heq|Hne]; cbn [andb].
      * destruct (Z.odd q); nia.
      * nia.
Qed.

Lemma pow10_split (a b : Z) : 0 <= a -> 0 <= b -> 10 ^ (a + b) = 10 ^ a * 10 ^ b.
Proof. intros. now rewrite Z.pow_add_r. Qed.

(** [_fix] moves a coefficient by at most half a unit of the last place
    of its result; [m] is any exponent below that of the argument, the
    unit in which the two values are written. *)
Lemma fix_error (s : bool) (c e m : Z) (r : dec) :
  0 <= c -> m <= e -> _fix s c e = Ok r ->
  sign r = s /\
  2 * Z.abs (c * 10 ^ (e - m) - Z.of_N (coeff r) * 10 ^ (exponent r - m))
    <= 10 ^ (exponent r - m).
Proof.
  intros Hc Hm H. split; [exact (fix_prec_sign _ _ _ _ _ H)|].
  revert H. unfold _fix, fix_prec.
  destruct (Z.eqb_spec c 0) as [->|Hn].
  { intros [= <-]. cbn [coeff exponent]. simpl (Z.of_N 0).
    rewrite !Z.mul_0_l, Z.sub_0_r. simpl (Z.abs 0).
    pose proof (Z.pow_nonneg 10 (Z.min (Z.max e (Etiny prec)) Emax - m)). lia. }
  assert (Hpos : 0 < c) by lia.
  destruct (ndigits_bounds c Hpos) as [Hnd1 [Hlo Hhi]].
  set (nd := ndigits c) in *.
  destruct (Z.ltb_spec (Etop prec) (nd + e - prec)) as [|Htop]; [discriminate|].
  set (em := Z.max (nd + e - prec) (Etiny prec)).
  assert (Hem : nd + e - prec <= em) by (unfold em; lia).
  destruct (Z.ltb_spec e em) as [Hlt|Hge].
  - assert (Hsplit : 10 ^ (em - m) = 10 ^ (e - m) * 10 ^ (em - e)).
    { rewrite <- pow10_split by lia. f_equal. lia. }
    assert (Hp1 : 0 < 10 ^ (e - m)) by (apply Z.pow_pos_nonneg; lia).
    assert (Hp2 : 0 < 10 ^ (em - e)) by (apply Z.pow_pos_nonneg; lia).
    unfold round_to. fold nd.
    destruct (Z.ltb_spec (nd + e - em) 0) as [Hdig|Hdig].
    + change (round_half_even 1 1) with 0. change (ndigits 0) with 1.
      change (prec <? 1) with false. cbv iota beta.
      destruct (Z.ltb_spec (Etop prec) em); [discriminate|].
      intros [= <-]. cbn [coeff exponent]. simpl (Z.of_N (Z.to_N 0)).
      rewrite Z.mul_0_l, Z.sub_0_r, Z.abs_eq by nia.
      (* c < 10^nd <= 10^(em - e - 1) *)
      assert (Hle : 10 ^ nd <= 10 ^ (em - e - 1)) by (apply Z.pow_le_mono_r; lia).
      assert (H10 : 10 ^ (em - e) = 10 * 10 ^ (em - e - 1)).
      { replace (em - e) with (Z.succ (em - e - 1)) at 1 by lia.
        rewrite Z.pow_succ_r by lia. reflexivity. }
      rewrite Hsplit. nia.
    + pose proof (round_half_even_error c (em - e) Hc ltac:(lia)) as Herr.
      pose proof (round_half_even_bound c (em - e) nd Hpos ltac:(lia) Hhi) as [Hq0 Hq1].
      set (q := round_half_even c (em - e)) in *. clearbody q.
      assert (Hq2 : q <= 10 ^ prec).
      { etransitivity; [exact Hq1|]. apply Z.pow_le_mono_r; lia. }
      assert (Hmain : 2 * Z.abs (c * 10 ^ (e - m) - q * 10 ^ (em - m)) <= 10 ^ (em - m)).
      { rewrite Hsplit.
        replace (c * 10 ^ (e - m) - q * (10 ^ (e - m) * 10 ^ (em - e)))
          with (10 ^ (e - m) * (c - q * 10 ^ (em - e))) by ring.
        rewrite Z.abs_mul, (Z.abs_eq (10 ^ (e - m))) by lia. nia. }
      destruct (Z.ltb_spec prec (ndigits q)) as [Hbig|Hsmall]; cbv iota beta.
      * assert (Hq : q = 10 ^ prec).
        { destruct (Z.eq_dec q 0) as [Hz|Hq0'];
            [rewrite Hz in Hbig; change (ndigits 0) with 1 in Hbig;
             unfold prec in Hbig; lia|].
          destruct (Z.lt_ge_cases q (10 ^ prec)) as [H|H]; [|lia].
          pose proof (ndigits_le q prec ltac:(lia) H). lia. }
        destruct (Z.ltb_spec (Etop prec) (em + 1)); [discriminate|].
        intros [= <-]. cbn [coeff exponent].
        assert (Hq10 : q = q / 10 * 10) by (rewrite Hq; reflexivity).
        assert (Hpos10 : 0 <= q / 10) by (apply Z.div_pos; lia).
        rewrite Z2N.id by lia.
        assert (H10 : 10 ^ (em + 1 - m) = 10 * 10 ^ (em - m)).
        { replace (em + 1 - m) with (Z.succ (em - m)) by lia.
          rewrite Z.pow_succ_r by lia. reflexivity. }
        rewrite H10.
        replace (q / 10 * (10 * 10 ^ (em - m))) with (q / 10 * 10 * 10 ^ (em - m)) by ring.
        rewrite <- Hq10.
        assert (0 < 10 ^ (em - m)) by (apply Z.pow_pos_nonneg; lia). lia.
      * destruct (Z.ltb_spec (Etop prec) em); [discriminate|].
        intros [= <-]. cbn [coeff exponent]. rewrite Z2N.id by lia. exact Hmain.
  - intros [= <-]. cbn [coeff exponent]. rewrite Z2N.id by lia.
    rewrite Z.sub_diag. simpl (Z.abs 0).
    pose proof (Z.pow_nonneg 10 (e - m)). lia.
Qed.

Lemma scaled_zero (m : Z) (x : dec) : is_zero x = true -> scaled m x = 0.
Proof.
  intros H. unfold scaled, signed. rewrite (is_zero_coeff x H).
  now destruct (sign x).
Qed.

Lemma scaled_copy_negate (m : Z) (x : dec) :
  scaled m (copy_negate x) = - scaled m x.
Proof.
  unfold scaled, signed, copy_negate. cbn [sign coeff exponent].
  destruct (sign x); cbn [negb]; lia.
Qed.

(** The sum of two decimals is their exact sum up to half a unit of its
    last place. *)
Lemma add_error (x y r : dec) (m : Z) :
  m <= exponent x -> m <= exponent y -> add x y = Ok r ->
  2 * Z.abs (scaled m x + scaled m y - scaled m r) <= 10 ^ (exponent r - m).
Proof.
  intros Hx Hy. unfold add.
  set (e := Z.min (exponent x) (exponent y)).
  assert (He : m <= e) by (unfold e; lia).
  assert (Hsx : scaled m x = signed x * 10 ^ (exponent x - e) * 10 ^ (e - m)).
  { unfold scaled. rewrite <- Z.mul_assoc, <- pow10_split by (unfold e; lia).
    f_equal. f_equal. lia. }
  assert (Hsy : scaled m y = signed y * 10 ^ (exponent y - e) * 10 ^ (e - m)).
  { unfold scaled. rewrite <- Z.mul_assoc, <- pow10_split by (unfold e; lia).
    f_equal. f_equal. lia. }
  destruct (is_zero x && is_zero y) eqn:Hz.
  - apply andb_prop in Hz. destruct Hz as [Hzx Hzy].
    intros H. destruct (fix_error _ _ _ m _ (Z.le_refl 0) He H) as [_ Herr].
    rewrite (scaled_zero m x Hzx), (scaled_zero m y Hzy).
    unfold scaled, signed.
    rewrite Z.mul_0_l, Z.sub_0_l, Z.abs_opp in Herr.
    destruct (sign r); rewrite ?Z.mul_opp_l; simpl (0 + 0);
      rewrite ?Z.sub_0_l, ?Z.opp_involutive, ?Z.abs_opp; exact Herr.
  - set (v := signed x * 10 ^ (exponent x - e) + signed y * 10 ^ (exponent y - e)).
    assert (Hv : scaled m x + scaled m y = v * 10 ^ (e - m))
      by (rewrite Hsx, Hsy; unfold v; ring).
    rewrite Hv.
    assert (Hp : 0 < 10 ^ (e - m)) by (apply Z.pow_pos_nonneg; lia).
    destruct (Z.eqb_spec v 0) as [Hv0|Hv0].
    + intros H. destruct (fix_error _ _ _ m _ (Z.le_refl 0) He H) as [_ Herr].
      rewrite Hv0. unfold scaled, signed.
      rewrite Z.mul_0_l, Z.sub_0_l, Z.abs_opp in Herr.
      destruct (sign r); rewrite ?Z.mul_opp_l, Z.mul_0_l;
        rewrite ?Z.sub_0_l, ?Z.opp_involutive, ?Z.abs_opp; exact Herr.
    + intros H.
      destruct (fix_error _ _ _ m _ (Z.abs_nonneg v) He H) as [Hs Herr].
      unfold scaled, signed. rewrite Hs.
      destruct (Z.ltb_spec v 0) as [Hneg|Hnn].
      * rewrite (Z.abs_neq v) in Herr by lia.
        replace (v * 10 ^ (e - m) - - Z.of_N (coeff r) * 10 ^ (exponent r - m))
          with (- (- v * 10 ^ (e - m) - Z.of_N (coeff r) * 10 ^ (exponent r - m)))
          by ring.
        now rewrite Z.abs_opp.
      * rewrite (Z.abs_eq v) in Herr by lia. exact Herr.
Qed.

Lemma sub_error (x y r : dec) (m : Z) :
  m <= exponent x -> m <= exponent y -> sub x y = Ok r ->
  2 * Z.abs (scaled m x - scaled m y - scaled m r) <= 10 ^ (exponent r - m).
Proof.
  intros Hx Hy H. unfold sub in H.
  pose proof (add_error x (copy_negate y) r m Hx Hy H) as Herr.
  rewrite scaled_copy_negate in Herr.
  now replace (scaled m x - scaled m y) with (scaled m x + - scaled m y) by lia.
Qed.



End DecimalRounding.

(** ** Properties of generators and of [zip] *)

Section GeneratorFacts.

Context {A B : Type}.

Lemma zip_length (l1 : list A) (l2 : list B) :
  List.length (zip l1 l2) = Nat.min (List.length l1) (List.length l2).
Proof.
  revert l2; induction l1 as [|x l1 IH]; intros [|y l2]; simpl; auto.
Qed.


Lemma zip_swap {C : Type} (f : A * B -> C) (g : B * A -> C) (l1 : list A) (l2 : list B) :
  (forall x y, f (x, y) = g (y, x)) ->
  map f (zip l1 l2) = map g (zip l2 l1).
Proof.
  intros H. revert l2; induction l1 as [|x l1 IH]; intros [|y l2]; simpl; auto.
  now rewrite H, IH.
Qed.

Lemma collect_length (g : generator A) (l : list A) :
  collect g = Ok l -> List.length l = List.length g.
Proof.
  revert l; induction g as [|item g IH]; simpl; intros l.
  - intros [= <-]. reflexivity.
  - destruct item as [x|e]; simpl; [|discriminate].
    destruct (collect g) as [l'|e]; simpl; [|discriminate].
    intros [= <-]. simpl. now rewrite (IH l').
Qed.

(** An exception of [collect] is the exception of one of the items. *)
Lemma collect_raise (P : exn -> Prop) (g : generator A) (e : exn) :
  Forall (fun item => forall e', item = Raise e' -> P e') g ->
  collect g = Raise e -> P e.
Proof.
  induction 1 as [|item g Hitem _ IH]; simpl; [discriminate|].
  destruct item as [x|e']; simpl.
  - destruct (collect g) as [l'|e'']; simpl; [discriminate|].
    intros [= <-]. now apply IH.
  - intros [= <-]. now apply Hitem.
Qed.


Lemma collect_map_Forall2 (f : B -> result A) (l : list B) (cs : list A) :
  collect (map f l) = Ok cs -> Forall2 (fun x y => f x = Ok y) l cs.
Proof.
  revert cs; induction l as [|x l IH]; simpl; intros cs.
  - intros [= <-]. constructor.
  - destruct (f x) as [y|e] eqn:Hx; simpl; [|discriminate].
    destruct (collect (map f l)) as [cs'|e]; simpl; [|discriminate].
    intros [= <-]. constructor; auto.
Qed.

End GeneratorFacts.

(** ** Properties of [Vector] *)

Section VectorFacts.

Import PyDecimal.

Lemma collect_gen_dec (g : generator dec) :
  collect (map (fun item => x <- item ;; Decimal x) (gen_dec g)) = collect g.
Proof.
  induction g as [|item g IH]; simpl; [reflexivity|].
  rewrite IH. now destruct item.
Qed.

(** [Vector(g)] on a generator of decimals: the items collected, under the
    default tolerance, or the signal of the first item that raises. *)
Lemma of_gen_ok (g : generator dec) (cs : list dec) :
  collect g = Ok cs ->
  Vector.of_gen g = Ok (Vector.mk cs Vector.default_tolerance).
Proof.
  intros H. unfold Vector.of_gen, Vector.__init__. simpl.
  now rewrite collect_gen_dec, H.
Qed.

Lemma of_gen_raise (g : generator dec) (e : exn) :
  collect g = Raise e -> decimal_signal e -> Vector.of_gen g = Raise e.
Proof.
  intros H He. unfold Vector.of_gen, Vector.__init__. simpl.
  rewrite collect_gen_dec, H. simpl.
  destruct He as [->|[->| ->]]; reflexivity.
Qed.

Lemma of_gen_inv (g : generator dec) (r : Vector.t) :
  Vector.of_gen g = Ok r ->
  collect g = Ok (Vector.coordinates r) /\
  Vector.tolerance r = Vector.default_tolerance.
Proof.
  unfold Vector.of_gen, Vector.__init__. simpl. rewrite collect_gen_dec.
  destruct (collect g) as [cs|e]; simpl.
  - intros [= <-]. auto.
  - destruct e; discriminate.
Qed.

(** An exception of [Vector(g)] on decimal operations that only signal is
    one of their signals. *)
Lemma of_gen_signal (P : exn -> Prop) (g : generator dec) (e : exn) :
  Forall (fun item => forall e', item = Raise e' -> decimal_signal e' /\ P e') g ->
  Vector.of_gen g = Raise e -> P e.
Proof.
  intros Hg. destruct (collect g) as [cs|e'] eqn:Hc.
  - rewrite (of_gen_ok _ _ Hc). discriminate.
  - assert (He' : decimal_signal e' /\ P e')
      by (apply (collect_raise (fun x => decimal_signal x /\ P x) g e' Hg Hc)).
    rewrite (of_gen_raise _ _ Hc (proj1 He')). intros [= <-]. apply He'.
Qed.

(** [sum] raises only what an item or an addition raises. *)
Lemma sum_raise (g : generator dec) (e : exn) :
  Forall (fun item => forall e', item = Raise e' -> e' = Overflow) g ->
  sum g = Raise e -> e = Overflow.
Proof.
  unfold sum.
  assert (H : forall acc : result pynum,
             (forall e', acc = Raise e' -> e' = Overflow) ->
             Forall (fun item => forall e', item = Raise e' -> e' = Overflow) g ->
             fold_left (fun acc item => a <- acc ;; x <- item ;; num_add a x) g acc
               = Raise e -> e = Overflow).
  { induction g as [|item g IH]; simpl; intros acc Hacc Hg.
    - apply Hacc.
    - inversion Hg as [|? ? Hitem Hg']; subst. apply IH; auto.
      intros e'. destruct acc as [a|ea]; simpl; [|intros [= <-]; now apply Hacc].
      destruct item as [x|ei]; simpl; [|intros [= <-]; now apply Hitem].
      destruct a as [z|a]; simpl.
      + destruct (add x (of_int z)) eqn:Hadd; simpl; [discriminate|].
        intros [= <-]. exact (add_raise _ _ _ Hadd).
      + destruct (add a x) eqn:Hadd; simpl; [discriminate|].
        intros [= <-]. exact (add_raise _ _ _ Hadd). }
  apply H. discriminate.
Qed.

End VectorFacts.

(** ** Magnitude and zero test *)

Section Magnitude.

Import PyDecimal.

(** C5.  Whenever [v.magnitude()] returns [m], [m >= 0] holds and
    [v.is_zero()] returns the truth value of [m < v.tolerance]; when
    [magnitude] raises, [is_zero] raises the same exception. *)
Theorem magnitude_nonneg_is_zero (v : Vector.t) :
  match Vector.magnitude v with
  | Ok m => ge m (of_int 0) = true /\ Vector.is_zero v = Ok (lt m (Vector.tolerance v))
  | Raise e => Vector.is_zero v = Raise e
  end.
Proof.
  unfold Vector.is_zero.
  destruct (Vector.magnitude v) as [m|e] eqn:Hm; simpl; [|reflexivity].
  split; [|reflexivity].
  apply ge_zero. unfold Vector.magnitude in Hm.
  destruct (sum _) as [[z|d]|e]; simpl in Hm; try discriminate.
  now apply sqrt_sign with d.
Qed.

End Magnitude.

(** ** Operands of unequal dimension *)

Section UnequalDimensions.

Import PyDecimal.

Lemma zip_op_raise (f : dec -> dec -> result dec) (l1 l2 : list dec) :
  (forall x y e, f x y = Raise e -> e = Overflow) ->
  Forall (fun item : result dec => forall e', item = Raise e' ->
            decimal_signal e' /\ e' = Overflow)
         (map (fun '(x, y) => f x y) (zip l1 l2)).
Proof.
  intros Hf. apply Forall_forall. intros item Hin.
  apply in_map_iff in Hin. destruct Hin as [[x y] [<- _]].
  intros e' He'. apply Hf in He'. subst. split; [now left|reflexivity].
Qed.

(** The result of a coordinatewise operation [f] of [v] and [w]: a vector
    of the smaller dimension, each coordinate [f x y] of a pair of [zip],
    or the overflow of one of these. *)
Lemma zip_op_spec (f : dec -> dec -> result dec) (v w : Vector.t) :
  (forall x y e, f x y = Raise e -> e = Overflow) ->
  match Vector.of_gen (map (fun '(x, y) => f x y)
                           (zip (Vector.coordinates v) (Vector.coordinates w))) with
  | Ok r =>
      Vector.dimension r = Z.min (Vector.dimension v) (Vector.dimension w) /\
      Forall2 (fun '(x, y) z => f x y = Ok z)
              (zip (Vector.coordinates v) (Vector.coordinates w))
              (Vector.coordinates r)
  | Raise e => e = Overflow
  end.
Proof.
  intros Hf.
  destruct (Vector.of_gen _) as [r|e] eqn:H.
  - apply of_gen_inv in H. destruct H as [H _]. split.
    + unfold Vector.dimension.
      rewrite (collect_length _ _ H), length_map, zip_length. lia.
    + apply collect_map_Forall2 in H.
      eapply Forall2_impl; [|exact H]. now intros [x y] z.
  - revert H. apply (of_gen_signal (fun e => e = Overflow)).
    now apply zip_op_raise.
Qed.



(** [Vector([1, 2, 0]).add(Vector([1, 1]))] is [Vector([2, 3])]. *)
Example add_unequal_dimensions :
  Vector.add v_a v_11
    = Ok (Vector.mk [of_int 2; of_int 3] Vector.default_tolerance) /\
  Vector.dot v_a v_11 = Ok (NDec (of_int 3)).
Proof. vm_compute. split; reflexivity. Qed.

End UnequalDimensions.

(** ** The tolerance of computed vectors *)

Section Tolerance.

Import PyDecimal.

(** A vector carries the tolerance its constructor was given. *)
Lemma init_tolerance (o : pyobj) (tol : dec) (r : Vector.t) :
  Vector.__init__ o tol = Ok r -> Vector.tolerance r = tol.
Proof.
  unfold Vector.__init__.
  destruct (truthy o); simpl; [|discriminate].
  destruct (iter o) as [g|e]; simpl; [|destruct e; discriminate].
  destruct (collect _) as [cs|e]; simpl; [|destruct e; discriminate].
  intros [= <-]. reflexivity.
Qed.

Lemma set_basepoint_tolerance (n : Vector.t) (c tol : dec) (r : Vector.t) :
  Line.set_basepoint n c tol = Ok (Some r) ->
  Vector.tolerance r = Vector.default_tolerance.
Proof.
  unfold Line.set_basepoint. cbv zeta.
  destruct (Line.first_nonzero_index_of n tol) as [i|e]; cbn [bind];
    [|destruct (String.eqb _ _); discriminate].
  destruct (Vector.__getitem__ n i) as [x|e]; cbn [bind];
    [|destruct (String.eqb _ _); discriminate].
  destruct (div c x) as [q|e]; cbn [bind];
    [|destruct (String.eqb _ _); discriminate].
  destruct (Line.list_set _ _ _) as [cs|e]; cbn [bind];
    [|destruct (String.eqb _ _); discriminate].
  destruct (Vector.__init__ _ _) as [v|e] eqn:Hv; cbn [bind];
    [|destruct (String.eqb _ _); discriminate].
  intros [= <-]. exact (init_tolerance _ _ _ Hv).
Qed.

(** C10.  Every vector that [add], [subtract], the scalar product,
    [normalized], [parallel_to], [orthogonal_to] or [cross] returns, and
    every base point that the constructor of [Line] stores, carries the
    default tolerance [1e-15], whatever the tolerances of the operands
    and of the line. *)
Theorem tolerance_not_propagated (r : Vector.t) :
  produced r -> Vector.tolerance r = Vector.default_tolerance.
Proof.
  intros H. destruct H as [v w r H|v w r H|v s r H|v r H|v w r H|v w r H|v w r H|n c tol l r H Hbp].
  - exact (init_tolerance _ _ _ H).
  - exact (init_tolerance _ _ _ H).
  - exact (init_tolerance _ _ _ H).
  - unfold Vector.normalized in H.
    destruct (Vector.magnitude v) as [m|e]; simpl in H; [|discriminate].
    destruct (is_zero m); [discriminate|]. exact (init_tolerance _ _ _ H).
  - unfold Vector.parallel_to in H.
    destruct (Vector.normalized w) as [nw|e]; simpl in H;
      [|destruct (is_ZeroDivisionError e); discriminate].
    destruct (Vector.dot v nw) as [s|e]; simpl in H;
      [|destruct (is_ZeroDivisionError e); discriminate].
    destruct (Vector.scale nw s) as [r'|e] eqn:Hs;
      [|destruct (is_ZeroDivisionError e); discriminate].
    injection H as <-. exact (init_tolerance _ _ _ Hs).
  - unfold Vector.orthogonal_to in H.
    destruct (Vector.parallel_to v w) as [p|e]; simpl in H;
      [|destruct (is_ArithmeticError e); discriminate].
    destruct (Vector.subtract v p) as [r'|e] eqn:Hs;
      [|destruct (is_ArithmeticError e); discriminate].
    injection H as <-. exact (init_tolerance _ _ _ Hs).
  - unfold Vector.cross in H.
    destruct (negb _); [discriminate|].
    repeat match type of H with
           | bind ?c _ = _ => destruct c; simpl in H; [|discriminate]
           end.
    exact (init_tolerance _ _ _ H).
  - unfold Line.__init__ in H.
    destruct (match n with Some v => Ok v | None => _ end) as [nv|e];
      simpl in H; [|discriminate].
    destruct (Decimal _) as [c'|e]; simpl in H; [|discriminate].
    destruct (Line.set_basepoint nv c' tol) as [bp|e] eqn:Hs; simpl in H;
      [|discriminate].
    injection H as <-. simpl in Hbp. subst bp.
    exact (set_basepoint_tolerance _ _ _ _ Hs).
Qed.

Lemma tolerance_not_propagated_witness :
  Vector.tolerance v_10_half = tol_half /\
  exists r, Vector.add v_10_half v_11 = Ok r /\
            Vector.tolerance r = Vector.default_tolerance.
Proof.
  split; [reflexivity|].
  assert (H : Vector.add v_10_half v_11
              = Ok (Vector.mk [of_int 2; of_int 1] Vector.default_tolerance))
    by (vm_compute; reflexivity).
  eexists. split; [exact H|].
  exact (tolerance_not_propagated _ (produced_add _ _ _ H)).
Defined.

End Tolerance.

(** ** Symmetry of the parallel test *)

Section Parallel.

Import PyDecimal.

Lemma dot_comm (v w : Vector.t) : Vector.dot v w = Vector.dot w v.
Proof.
  unfold Vector.dot. f_equal. apply zip_swap. intros x y. apply mul_comm.
Qed.

(** C7, as stated, fails: the test compares against the tolerance of the
    receiver only.  [Vector([1, 0], tolerance=Decimal('0.5'))] is
    parallel to [Vector([1, 1])], and [Vector([1, 1])] is not parallel
    to it. *)
Lemma is_parallel_to_not_symmetric :
  (Vector.__init__ (OList [EInt 1; EInt 0]) tol_half = Ok v_10_half /\
   Vector.__init__ (OList [EInt 1; EInt 1]) Vector.default_tolerance = Ok v_11) /\
  Vector.is_parallel_to v_10_half v_11 = Ok true /\
  Vector.is_parallel_to v_11 v_10_half = Ok false.
Proof. vm_compute. repeat split. Qed.

(** C7, amended.  For two vectors of one tolerance whose magnitudes are
    defined, [v.is_parallel_to(w)] and [w.is_parallel_to(v)] are the same
    result. *)
Theorem is_parallel_to_symmetric (v w : Vector.t) (mv mw : dec) :
  Vector.tolerance v = Vector.tolerance w ->
  Vector.magnitude v = Ok mv ->
  Vector.magnitude w = Ok mw ->
  Vector.is_parallel_to v w = Vector.is_parallel_to w v.
Proof.
  intros Htol Hv Hw.
  unfold Vector.is_parallel_to, Vector.is_zero.
  rewrite Hv, Hw, Htol, (dot_comm w v). cbn [bind].
  destruct (lt mv (Vector.tolerance w)), (lt mw (Vector.tolerance w));
    cbn [bind orb]; try reflexivity.
  destruct (Vector.dot v w) as [d|e]; cbn [bind]; [|reflexivity].
  destruct (num_abs d) as [a|e]; cbn [bind]; [|reflexivity].
  now rewrite (mul_comm mw mv).
Qed.

Lemma is_parallel_to_symmetric_witness :
  Vector.tolerance v_a = Vector.tolerance v_b /\
  (exists mv, Vector.magnitude v_a = Ok mv) /\
  (exists mw, Vector.magnitude v_b = Ok mw) /\
  Vector.is_parallel_to v_a v_b = Vector.is_parallel_to v_b v_a.
Proof.
  split; [reflexivity|].
  split; [eexists; vm_compute; reflexivity|].
  split; [eexists; vm_compute; reflexivity|].
  eapply (is_parallel_to_symmetric v_a v_b); vm_compute; reflexivity.
Defined.

End Parallel.

(** ** Intersection of two lines *)

Section Intersection.

Import PyDecimal.

(** [c - c] is a zero, and the absolute value of a zero is a zero. *)
Lemma sub_self (c : dec) : exists z, sub c c = Ok z /\ is_zero z = true.
Proof.
  unfold sub, add, copy_negate, signed, is_zero, _fix. simpl.
  rewrite Z.min_id, Z.sub_diag, Z.pow_0_r, !Z.mul_1_r.
  destruct (coeff c =? 0)%N; simpl.
  - rewrite fix_prec_zero. eauto.
  - replace ((if sign c then - Z.of_N (coeff c) else Z.of_N (coeff c)) +
             (if negb (sign c) then - Z.of_N (coeff c) else Z.of_N (coeff c)))
      with 0 by (destruct (sign c); simpl; lia).
    simpl. rewrite fix_prec_zero. eauto.
Qed.

Lemma abs_zero (z : dec) :
  is_zero z = true -> exists a, abs z = Ok a /\ is_zero a = true.
Proof.
  intros H. unfold abs, neg, pos, _fix. rewrite H.
  destruct (sign z); rewrite fix_prec_zero; eauto.
Qed.

(** A zero is below every tolerance that [0] is below. *)
Lemma lt_zero (z tol : dec) :
  is_zero z = true -> lt z tol = lt (of_int 0) tol.
Proof. intros H. unfold lt, cmp. now rewrite H. Qed.

(** Division by a zero signals; division by anything else can only
    overflow. *)
Lemma div_by_zero (x y : dec) :
  is_zero y = true ->
  div x y = Raise (if is_zero x then InvalidOperation else DivisionByZero).
Proof. intros H. unfold div. rewrite H. now destruct (is_zero x). Qed.

Lemma div_raise (x y : dec) (e : exn) :
  is_zero y = false -> div x y = Raise e -> e = Overflow.
Proof.
  intros H. unfold div, _fix. rewrite H.
  destruct (is_zero x); [apply fix_prec_raise|].
  destruct (0 <=? _); cbv zeta iota beta.
  - destruct (_ =? 0); [|apply fix_prec_raise].
    destruct (strip_zeros _ _ _ _). apply fix_prec_raise.
  - destruct (_ =? 0); [|apply fix_prec_raise].
    destruct (strip_zeros _ _ _ _). apply fix_prec_raise.
Qed.

Lemma determinant_raise (a b d e : dec) (x : exn) :
  determinant a b d e = Raise x -> x = Overflow.
Proof.
  unfold determinant.
  destruct (mul a e) eqn:H1; cbn [bind]; [|intros [= <-]; exact (mul_raise _ _ _ H1)].
  destruct (mul b d) eqn:H2; cbn [bind]; [|intros [= <-]; exact (mul_raise _ _ _ H2)].
  apply sub_raise.
Qed.

Lemma getitem_pair (v : Vector.t) (a b : dec) :
  Vector.coordinates v = [a; b] ->
  Vector.__getitem__ v 0 = Ok a /\ Vector.__getitem__ v 1 = Ok b.
Proof.
  intros H. unfold Vector.__getitem__, Vector.dimension. rewrite H.
  split; reflexivity.
Qed.

(** The [else] branch of [intersection] on two lines of dimension 2 is
    Cramer's rule. *)
Lemma solve_cramer (l other : Line.t) (a b d e : dec) :
  Vector.coordinates (Line.normal_vector l) = [a; b] ->
  Vector.coordinates (Line.normal_vector other) = [d; e] ->
  Line.solve l other =
    (xy <- cramer a b (Line.constant_term l) d e (Line.constant_term other) ;;
     Ok (Line.IPoint (fst xy) (snd xy))).
Proof.
  intros Hl Ho. unfold Line.solve.
  destruct (getitem_pair _ _ _ Hl) as [-> ->].
  destruct (getitem_pair _ _ _ Ho) as [-> ->].
  cbn [bind]. unfold cramer, determinant.
  destruct (mul (Line.constant_term l) e); cbn [bind]; [|reflexivity].
  destruct (mul b (Line.constant_term other)); cbn [bind]; [|reflexivity].
  destruct (sub _ _); cbn [bind]; [|reflexivity].
  destruct (mul a e); cbn [bind]; [|reflexivity].
  destruct (mul b d); cbn [bind]; [|reflexivity].
  destruct (sub _ _); cbn [bind]; [|reflexivity].
  destruct (div _ _); cbn [bind]; [|reflexivity].
  destruct (mul a (Line.constant_term other)); cbn [bind]; [|reflexivity].
  destruct (mul d (Line.constant_term l)); cbn [bind]; [|reflexivity].
  destruct (sub _ _); cbn [bind]; [|reflexivity].
  destruct (div _ _); cbn [bind]; reflexivity.
Qed.

(** What Cramer's rule raises, by the determinant. *)
Lemma cramer_raise (a b c d e f den : dec) :
  determinant a b d e = Ok den ->
  if is_zero den then
    exists x, cramer a b c d e f = Raise x /\ decimal_signal x
  else
    forall x, cramer a b c d e f = Raise x -> x = Overflow.
Proof.
  intros Hden. unfold cramer. rewrite Hden.
  destruct (is_zero den) eqn:Hz.
  - destruct (mul c e) eqn:H1; cbn [bind];
      [|exists e0; split; [reflexivity|left; exact (mul_raise _ _ _ H1)]].
    destruct (mul b f) eqn:H2; cbn [bind];
      [|exists e0; split; [reflexivity|left; exact (mul_raise _ _ _ H2)]].
    destruct (sub a0 a1) eqn:H3; cbn [bind];
      [|exists e0; split; [reflexivity|left; exact (sub_raise _ _ _ H3)]].
    rewrite (div_by_zero _ _ Hz). cbn [bind]. eexists. split; [reflexivity|].
    destruct (is_zero a2); [right; now left|right; now right].
  - intros x.
    destruct (mul c e) eqn:H1; cbn [bind]; [|intros [= <-]; exact (mul_raise _ _ _ H1)].
    destruct (mul b f) eqn:H2; cbn [bind]; [|intros [= <-]; exact (mul_raise _ _ _ H2)].
    destruct (sub a0 a1) eqn:H3; cbn [bind]; [|intros [= <-]; exact (sub_raise _ _ _ H3)].
    destruct (div a2 den) eqn:H4; cbn [bind]; [|intros [= <-]; exact (div_raise _ _ _ Hz H4)].
    destruct (mul a f) eqn:H5; cbn [bind]; [|intros [= <-]; exact (mul_raise _ _ _ H5)].
    destruct (mul d c) eqn:H6; cbn [bind]; [|intros [= <-]; exact (mul_raise _ _ _ H6)].
    destruct (sub a4 a5) eqn:H7; cbn [bind]; [|intros [= <-]; exact (sub_raise _ _ _ H7)].
    destruct (div a6 den) eqn:H8; cbn [bind]; [|intros [= <-]; exact (div_raise _ _ _ Hz H8)].
    discriminate.
Qed.

(** When the parallel test is false, so is [==], and [intersection] is
    its [else] branch. *)
Lemma intersection_not_parallel (l other : Line.t) :
  Line.is_parallel_to l other = Ok false ->
  Line.intersection l other = Line.solve l other.
Proof.
  intros H. unfold Line.intersection, Line.__eq__. rewrite H. reflexivity.
Qed.

End Intersection.

Section IntersectionClaims.

Import PyDecimal.

(** The example lines are the lines their constructors return. *)
Lemma example_lines :
  (Vector.__init__ (OList [EInt 100000000; EInt 200000000]) Vector.default_tolerance
     = Ok v_big /\
   Line.__init__ (Some v_big) (EInt 1) Vector.default_tolerance = Ok line_big_1 /\
   Line.__init__ (Some v_big) (EInt 2) Vector.default_tolerance = Ok line_big_2) /\
  (line_1 = Ok l1 /\ line_2 = Ok l2 /\ line_3 = Ok l3 /\ line_4 = Ok l4 /\
   line_6 = Ok l6) /\
  Line.__init__ None ENone Vector.default_tolerance = Ok line_0.
Proof. vm_compute. repeat split. Qed.

(** C2, as stated, fails: the parallel test compares rounded quantities
    against an absolute tolerance, so it can be false while the
    determinant is zero.  The lines [100000000 x + 200000000 y = 1] and
    [100000000 x + 200000000 y = 2] are not parallel by the test, their
    determinant is zero, and [intersection] raises the division signal. *)
Lemma intersection_divides_by_zero :
  Line.is_parallel_to line_big_1 line_big_2 = Ok false /\
  (exists den, determinant (of_int 100000000) (of_int 200000000)
                           (of_int 100000000) (of_int 200000000) = Ok den /\
               is_zero den = true) /\
  Line.intersection line_big_1 line_big_2 = Raise DivisionByZero.
Proof.
  split; [vm_compute; reflexivity|].
  split; [eexists; split; vm_compute; reflexivity|].
  vm_compute; reflexivity.
Qed.

(** C2, amended.  For two lines of dimension 2 whose parallel test is
    false, [intersection] is Cramer's rule evaluated in decimal
    arithmetic: it returns the pair [(x, y)] of the rule whenever the rule
    evaluates; when the determinant [a*e - b*d] is not zero it can raise
    nothing but an [Overflow], and when the determinant is zero it raises
    a signal of the decimal context. *)
Theorem intersection_cramer (l other : Line.t) (a b d e : dec) :
  Vector.coordinates (Line.normal_vector l) = [a; b] ->
  Vector.coordinates (Line.normal_vector other) = [d; e] ->
  Line.is_parallel_to l other = Ok false ->
  Line.intersection l other =
    (xy <- cramer a b (Line.constant_term l) d e (Line.constant_term other) ;;
     Ok (Line.IPoint (fst xy) (snd xy))) /\
  forall den, determinant a b d e = Ok den ->
    if is_zero den then
      exists x, Line.intersection l other = Raise x /\ decimal_signal x
    else
      forall x, Line.intersection l other = Raise x -> x = Overflow.
Proof.
  intros Hl Ho Hp.
  rewrite (intersection_not_parallel _ _ Hp), (solve_cramer _ _ _ _ _ _ Hl Ho).
  split; [reflexivity|].
  intros den Hden.
  pose proof (cramer_raise a b (Line.constant_term l) d e
                (Line.constant_term other) den Hden) as H.
  destruct (is_zero den).
  - destruct H as [x [-> Hx]]. exists x. now split.
  - intros x. destruct (cramer _ _ _ _ _ _) as [xy|x'] eqn:Hc; cbn [bind];
      [discriminate|]. intros [= <-]. now apply H.
Qed.

Lemma intersection_cramer_witness :
  Line.is_parallel_to l3 l4 = Ok false /\
  Line.intersection l3 l4 =
    Ok (Line.IPoint (mkdec false 117277663546464014934704696154 (-29))
                    (mkdec false 726955116633351238541400656916 (-31))).
Proof.
  assert (H : Line.is_parallel_to l3 l4 = Ok false) by (vm_compute; reflexivity).
  split; [exact H|].
  destruct (intersection_cramer l3 l4 _ _ _ _ eq_refl eq_refl H) as [-> _].
  vm_compute. reflexivity.
Defined.




End IntersectionClaims.

(** ** Construction of a vector *)

Section Construction.

Import PyDecimal.

Lemma collect_elems_none (l : list pyelem) :
  In ENone l ->
  exists msg, collect (map (fun item => x <- item ;; Decimal x) (gen_of l))
              = Raise (TypeError msg).
Proof.
  induction l as [|x l IH]; simpl; [intros []|].
  intros [->|H]; simpl; [eauto|].
  destruct x; simpl; [eauto| |];
    destruct (IH H) as [msg ->]; simpl; eauto.
Qed.

Lemma collect_elems_ok (l : list pyelem) :
  ~ In ENone l ->
  exists cs, collect (map (fun item => x <- item ;; Decimal x) (gen_of l)) = Ok cs /\
             Forall2 (fun x d => Decimal x = Ok d) l cs.
Proof.
  induction l as [|x l IH]; simpl; intros H.
  - exists []. split; [reflexivity|constructor].
  - destruct IH as [cs [Hcs HF]]; [tauto|].
    destruct x; simpl; [tauto| |]; rewrite Hcs; simpl;
      eexists; (split; [reflexivity|]); constructor; auto.
Qed.

(** C4, as stated, fails in both directions: the list [[None]] is
    neither empty nor a non-iterable and the constructor raises its
    [TypeError]; an empty generator is empty and the constructor
    returns a vector without coordinates. *)
Lemma construction_claim_fails :
  (empty_or_not_iterable (OList [ENone]) = false /\
   Vector.__init__ (OList [ENone]) Vector.default_tolerance
     = Raise (TypeError "Coordinates must be an iterable")) /\
  (empty_or_not_iterable (OGen []) = true /\
   Vector.__init__ (OGen []) Vector.default_tolerance
     = Ok (Vector.mk [] Vector.default_tolerance)).
Proof. repeat split. Qed.

(** C4, amended.  The constructor raises its [ValueError] on every input
    that is false ([None], [0], an empty list or tuple), and its
    [TypeError] on a number other than [0] and on a list or tuple that
    holds [None]; on a non-empty list or tuple of numbers it returns the
    vector of their decimals; and every vector it returns for a list or
    a tuple has coordinates. *)
Theorem construction_errors (o : pyobj) (tol : dec) :
  (truthy o = false ->
   Vector.__init__ o tol = Raise (ValueError "Coordinates must be non-empty")) /\
  (forall z, o = OInt z -> z <> 0 ->
   Vector.__init__ o tol = Raise (TypeError "Coordinates must be an iterable")) /\
  (forall l, o = OList l \/ o = OTuple l -> In ENone l ->
   Vector.__init__ o tol = Raise (TypeError "Coordinates must be an iterable")) /\
  (forall l, o = OList l \/ o = OTuple l -> l <> [] -> ~ In ENone l ->
   exists v, Vector.__init__ o tol = Ok v /\
             Forall2 (fun x d => Decimal x = Ok d) l (Vector.coordinates v) /\
             Vector.tolerance v = tol) /\
  (forall l v, o = OList l \/ o = OTuple l -> Vector.__init__ o tol = Ok v ->
   Vector.coordinates v <> [] /\
   List.length (Vector.coordinates v) = List.length l).
Proof.
  split; [|split; [|split; [|split]]].
  - intros H. unfold Vector.__init__. now rewrite H.
  - intros z -> Hz. unfold Vector.__init__. simpl.
    destruct (Z.eqb_spec z 0); [contradiction|reflexivity].
  - intros l Ho Hin.
    assert (Hl : truthy o = true /\ iter o = Ok (gen_of l))
      by (destruct Ho as [-> | ->]; destruct l; simpl in *;
          solve [tauto | congruence | split; reflexivity]).
    destruct Hl as [Ht Hi]. unfold Vector.__init__. rewrite Ht, Hi. cbn [negb bind].
    destruct (collect_elems_none l Hin) as [msg ->]. reflexivity.
  - intros l Ho Hne Hin.
    assert (Hl : truthy o = true /\ iter o = Ok (gen_of l))
      by (destruct Ho as [-> | ->]; destruct l; simpl in *;
          solve [tauto | congruence | split; reflexivity]).
    destruct Hl as [Ht Hi]. unfold Vector.__init__. rewrite Ht, Hi. cbn [negb bind].
    destruct (collect_elems_ok l Hin) as [cs [-> HF]]. cbn [bind].
    eexists. split; [reflexivity|]. split; [exact HF|reflexivity].
  - intros l v Ho. unfold Vector.__init__.
    assert (Hl : (l = [] /\ truthy o = false) \/
                 (l <> [] /\ truthy o = true /\ iter o = Ok (gen_of l))).
    { destruct Ho as [-> | ->]; destruct l; simpl;
        (left; tauto) || (right; repeat split; discriminate). }
    destruct Hl as [[_ Ht]|[Hne [Ht Hi]]]; rewrite Ht; cbn [negb]; [discriminate|].
    rewrite Hi. cbn [bind].
    destruct (collect _) as [cs|e] eqn:Hc; cbn [bind]; [|destruct e; discriminate].
    intros [= <-]. simpl.
    apply collect_length in Hc. unfold gen_of in Hc. rewrite !length_map in Hc.
    split; [|exact Hc]. destruct cs; [|discriminate].
    destruct l; [contradiction|discriminate].
Qed.

Lemma construction_errors_witness :
  Vector.__init__ (OList []) Vector.default_tolerance
    = Raise (ValueError "Coordinates must be non-empty") /\
  Vector.__init__ (OInt 5) Vector.default_tolerance
    = Raise (TypeError "Coordinates must be an iterable") /\
  Vector.__init__ (OTuple [EInt 1; ENone]) Vector.default_tolerance
    = Raise (TypeError "Coordinates must be an iterable") /\
  (exists v, Vector.__init__ (OList [EInt 1; EInt 2; EInt 0]) Vector.default_tolerance = Ok v /\
             Vector.coordinates v <> []).
Proof.
  pose proof (construction_errors (OList []) Vector.default_tolerance) as H0.
  pose proof (construction_errors (OInt 5) Vector.default_tolerance) as H1.
  pose proof (construction_errors (OTuple [EInt 1; ENone]) Vector.default_tolerance) as H2.
  pose proof (construction_errors (OList [EInt 1; EInt 2; EInt 0]) Vector.default_tolerance) as H3.
  split; [apply H0; reflexivity|].
  split; [apply (proj1 (proj2 H1) 5); [reflexivity|discriminate]|].
  split; [apply (proj1 (proj2 (proj2 H2)) [EInt 1; ENone]);
          [right; reflexivity|right; left; reflexivity]|].
  destruct (proj1 (proj2 (proj2 (proj2 H3))) [EInt 1; EInt 2; EInt 0]) as [v [Hv _]].
  - left; reflexivity.
  - discriminate.
  - intros [H|[H|[H|[]]]]; discriminate.
  - exists v. split; [exact Hv|].
    apply (proj2 (proj2 (proj2 (proj2 H3))) [EInt 1; EInt 2; EInt 0] v);
      [left; reflexivity|exact Hv].
Defined.

End Construction.

(** ** The textual form of a line *)

Section Rendering.

Import PyDecimal.

(** C8.  Both coefficients of [0.0001 x + 0.0001 y = 1] round to zero at
    three places, and the left-hand side that [__str__] renders is empty,
    not the literal [0]: the literal is written only when
    [first_nonzero_index] raises, and here it returns [0]. *)
Lemma str_empty_left_hand_side :
  mk_line (mkdec false 1 (-4)) (mkdec false 1 (-4)) (of_int 1) = Ok line_small /\
  (forall i x, Vector.__getitem__ (Line.normal_vector line_small) i = Ok x ->
     exists r, round x 3 = Ok r /\ eqb r (of_int 0) = true) /\
  Line.first_nonzero_index line_small = Ok 0 /\
  Line.lhs line_small = Ok "" /\
  Line.__str__ line_small = Ok " = 1".
Proof.
  split; [vm_compute; reflexivity|].
  split; [|repeat split].
  intros i x. unfold Vector.__getitem__. simpl.
  destruct ((0 <=? _) && _); [|discriminate].
  destruct (Z.to_nat _) as [|[|n]]; simpl.
  - intros [= <-]. eexists. split; vm_compute; reflexivity.
  - intros [= <-]. eexists. split; vm_compute; reflexivity.
  - destruct n; discriminate.
Qed.

End Rendering.

(** ** The base point of a line *)

Section BasePoint.

Import PyDecimal.

(** [first_nonzero_index] on two coordinates, case by case. *)
Lemma first_nonzero_pair (n : Vector.t) (tol a b : dec) :
  Vector.coordinates n = [a; b] ->
  match Line.first_nonzero_index_of n tol with
  | Ok i => (i = 0 /\ not_below tol a) \/
            (i = 1 /\ below tol a /\ not_below tol b)
  | Raise e => (e = Exception Line.NO_NONZERO_ELTS_FOUND_MSG /\
                below tol a /\ below tol b) \/
               (e = Overflow /\ ~ (below tol a /\ below tol b))
  end.
Proof.
  intros H. unfold Line.first_nonzero_index_of, below, not_below.
  rewrite H. simpl.
  destruct (abs a) as [a'|e] eqn:Ha; cbn [bind].
  - destruct (lt a' tol) eqn:Hlt; cbn [negb].
    + destruct (abs b) as [b'|e] eqn:Hb; cbn [bind].
      * destruct (lt b' tol) eqn:Hlt'; cbn [negb].
        -- left. eauto 10.
        -- right. eauto 10.
      * right. split.
        -- unfold abs, neg, pos, _fix in Hb.
           destruct (sign b), (is_zero b); exact (fix_prec_raise _ _ _ _ _ Hb).
        -- intros [_ [b' [[=] _]]].
    + left. eauto.
  - right. split.
    + unfold abs, neg, pos, _fix in Ha.
      destruct (sign a), (is_zero a); exact (fix_prec_raise _ _ _ _ _ Ha).
    + intros [[a' [[=] _]] _].
Qed.

(** C1, as stated, fails: [is_zero] tests the magnitude against the
    tolerance of the vector, the base point tests each coordinate against
    the tolerance of the line.  The normal vector [(8E-16, 8E-16)] has
    the magnitude 1.13E-15, so it is not zero within the tolerance 1E-15,
    and the line has no base point. *)
Lemma base_point_absent_for_nonzero_normal :
  Line.__init__ (Some v_tiny) (EInt 1) Vector.default_tolerance = Ok line_tiny /\
  Vector.is_zero (Line.normal_vector line_tiny) = Ok false /\
  Line.base_point line_tiny = None.
Proof. repeat split. Qed.

Lemma div_signal (x y : dec) (e : exn) : div x y = Raise e -> decimal_signal e.
Proof.
  destruct (is_zero y) eqn:Hy.
  - rewrite (div_by_zero _ _ Hy). intros [= <-].
    destruct (is_zero x); [right; now left|right; now right].
  - intros H. left. exact (div_raise _ _ _ Hy H).
Qed.

Lemma signal_not_caught (e : exn) :
  decimal_signal e ->
  String.eqb (exn_str e) Line.NO_NONZERO_ELTS_FOUND_MSG = false.
Proof. intros [->|[->| ->]]; reflexivity. Qed.

Lemma below_not_below (tol x : dec) : below tol x -> not_below tol x -> False.
Proof.
  intros [a [Ha Hlt]] [a' [Ha' Hlt']]. rewrite Ha in Ha'.
  injection Ha' as <-. congruence.
Qed.

(** [set_basepoint] on a normal vector of two coordinates. *)
Lemma set_basepoint_pair (n : Vector.t) (c tol a b : dec) (bp : option Vector.t) :
  Vector.coordinates n = [a; b] ->
  Line.set_basepoint n c tol = Ok bp ->
  match bp with
  | None => below tol a /\ below tol b
  | Some v =>
      Vector.tolerance v = Vector.default_tolerance /\
      ((not_below tol a /\
        exists q, div c a = Ok q /\ Vector.coordinates v = [q; mkdec false 0 0]) \/
       (below tol a /\ not_below tol b /\
        exists q, div c b = Ok q /\ Vector.coordinates v = [mkdec false 0 0; q]))
  end.
Proof.
  intros Hn. pose proof (first_nonzero_pair n tol a b Hn) as Hi.
  destruct (getitem_pair _ _ _ Hn) as [H0 H1].
  unfold Line.set_basepoint. cbv zeta.
  destruct (Line.first_nonzero_index_of n tol) as [i|e]; cbn [bind].
  - destruct Hi as [[-> Ha]|[-> [Ha Hb]]].
    + rewrite H0. cbn [bind].
      destruct (div c a) as [q|e] eqn:Hq; cbn [bind].
      * intros [= <-]. split; [reflexivity|]. left. eauto.
      * rewrite (signal_not_caught _ (div_signal _ _ _ Hq)). discriminate.
    + rewrite H1. cbn [bind].
      destruct (div c b) as [q|e] eqn:Hq; cbn [bind].
      * intros [= <-]. split; [reflexivity|]. right. eauto.
      * rewrite (signal_not_caught _ (div_signal _ _ _ Hq)). discriminate.
  - destruct Hi as [[-> [Ha Hb]]|[-> _]].
    + intros [= <-]. now split.
    + discriminate.
Qed.

(** C1, amended.  A line constructed on a normal vector [(a, b)] has no
    base point exactly when [abs(a)] and [abs(b)] are both below the
    tolerance of the line.  Otherwise its base point carries the default
    tolerance and holds [q = c / x] at the index of [x], the first of
    [a] and [b] whose absolute value is not below the tolerance, and zero
    at the other index, for the constant term [c]; and the dot product
    of the normal vector with the base point is a decimal of the value
    of [x * q], which is [c] up to the rounding of the division and of
    the product. *)
Theorem base_point_spec (n : Vector.t) (cterm : pyelem) (tol : dec)
    (l : Line.t) (a b : dec) :
  Vector.coordinates n = [a; b] ->
  Line.__init__ (Some n) cterm tol = Ok l ->
  (Line.base_point l = None <-> below tol a /\ below tol b) /\
  (forall bp, Line.base_point l = Some bp ->
     Vector.tolerance bp = Vector.default_tolerance /\
     exists x q,
       ((not_below tol a /\ x = a /\
         Vector.coordinates bp = [q; mkdec false 0 0]) \/
        (below tol a /\ not_below tol b /\ x = b /\
         Vector.coordinates bp = [mkdec false 0 0; q])) /\
       div (Line.constant_term l) x = Ok q /\
       (forall p, mul x q = Ok p ->
          exists s, Vector.dot (Line.normal_vector l) bp = Ok (NDec s) /\
                    eqb s p = true)).
Proof.
  intros Hn. unfold Line.__init__. cbn [bind].
  destruct (Decimal _) as [c|e]; cbn [bind]; [|discriminate].
  destruct (Line.set_basepoint n c tol) as [bp|e] eqn:Hbp; cbn [bind];
    [|discriminate].
  intros [= <-]. cbn [Line.base_point Line.constant_term Line.normal_vector].
  pose proof (set_basepoint_pair n c tol a b bp Hn Hbp) as H.
  split.
  - split.
    + intros ->. exact H.
    + intros [Ha Hb]. destruct bp as [v|]; [|reflexivity].
      destruct H as [_ [[Ha' _]|[_ [Hb' _]]]]; exfalso;
        eauto using below_not_below.
  - intros v ->. destruct H as [Ht H]. split; [exact Ht|].
    destruct H as [[Ha [q [Hq Hv]]]|[Ha [Hb [q [Hq Hv]]]]].
    + exists a, q. split; [left; auto|]. split; [exact Hq|].
      intros p Hp. exact (dot_pair_left n v a b q _ p Hn Hv eq_refl Hp).
    + exists b, q. split; [right; auto|]. split; [exact Hq|].
      intros p Hp. exact (dot_pair_right n v a b q _ p Hn Hv eq_refl Hp).
Qed.

Lemma base_point_spec_witness :
  (Line.base_point line_0 = None <->
   below Vector.default_tolerance (of_int 0) /\
   below Vector.default_tolerance (of_int 0)) /\
  exists bp s,
    Line.base_point l1 = Some bp /\
    mul (mkdec false 10115 (-3))
        (mkdec false 988630746416213544241225902126 (-32))
      = Ok (mkdec false 100000000000000000000000000000 (-30)) /\
    Vector.dot (Line.normal_vector l1) bp = Ok (NDec s) /\
    eqb s (mkdec false 100000000000000000000000000000 (-30)) = true.
Proof.
  split.
  - assert (H0 : Line.__init__ (Some (Vector.mk [of_int 0; of_int 0] Vector.default_tolerance))
                   ENone Vector.default_tolerance = Ok line_0)
      by (vm_compute; reflexivity).
    exact (proj1 (base_point_spec
                    (Vector.mk [of_int 0; of_int 0] Vector.default_tolerance)
                    _ _ _ (of_int 0) (of_int 0) eq_refl H0)).
  - assert (H1 : Line.__init__ (Some (Line.normal_vector l1)) (EDec (mkdec false 1 (-1)))
                   Vector.default_tolerance = Ok l1)
      by (vm_compute; reflexivity).
    assert (Hp : mul (mkdec false 10115 (-3))
                     (mkdec false 988630746416213544241225902126 (-32))
                 = Ok (mkdec false 100000000000000000000000000000 (-30)))
      by (vm_compute; reflexivity).
    assert (Hnb : ~ below Vector.default_tolerance (mkdec false 10115 (-3))).
    { intros [a' [Ha Hlt]]. vm_compute in Ha. injection Ha as <-.
      vm_compute in Hlt. discriminate. }
    destruct (proj2 (base_point_spec (Line.normal_vector l1) _ _ _
                       (mkdec false 10115 (-3)) (mkdec false 709 (-2))
                       eq_refl H1) _ eq_refl)
      as [_ [x [q [Hx [_ Hdot]]]]].
    destruct Hx as [[_ [-> Hc]]|[Hb _]]; [|contradiction].
    injection Hc as <-.
    destruct (Hdot _ Hp) as [s [Hs He]].
    eexists. exists s. split; [reflexivity|]. split; [exact Hp|].
    split; [exact Hs|exact He].
Defined.

End BasePoint.

(** ** Projection and orthogonal component *)

Section Decomposition.

Import PyDecimal.

Lemma of_gen_map_length {A : Type} (f : A -> result dec) (l : list A) (r : Vector.t) :
  Vector.of_gen (map f l) = Ok r ->
  List.length (Vector.coordinates r) = List.length l.
Proof.
  intros H. apply of_gen_inv in H. destruct H as [H _].
  apply collect_length in H. now rewrite length_map in H.
Qed.







End Decomposition.

(** ** Algebra of the vector operations *)

Section VectorAlgebra.

Import PyDecimal.


(** X1.  [add] and [dot] are commutative, exactly: the two orders give
    the same vector and the same number, or raise the same exception. *)
Theorem add_dot_commutative (v w : Vector.t) :
  Vector.add v w = Vector.add w v /\ Vector.dot v w = Vector.dot w v.
Proof.
  split; [|apply dot_comm].
  unfold Vector.add. f_equal. apply zip_swap. intros x y. apply add_comm.
Qed.

Lemma collect_sub_self (l : list dec) :
  exists zs, collect (map (fun '(x, y) => sub x y) (zip l l)) = Ok zs /\
             Forall (fun z => is_zero z = true) zs /\
             List.length zs = List.length l.
Proof.
  induction l as [|x l [zs [Hzs [HF Hlen]]]]; simpl.
  - exists []. repeat split. constructor.
  - destruct (sub_self x) as [z [-> Hz]]. cbn [bind]. rewrite Hzs. cbn [bind].
    exists (z :: zs). repeat split; [constructor; assumption|simpl; lia].
Qed.

Lemma sub_vector_self (v : Vector.t) :
  exists zs, Vector.subtract v v = Ok (Vector.mk zs Vector.default_tolerance) /\
             List.length zs = List.length (Vector.coordinates v) /\
             Forall (fun z => is_zero z = true) zs.
Proof.
  destruct (collect_sub_self (Vector.coordinates v)) as [zs [Hzs [HF Hlen]]].
  exists zs. unfold Vector.subtract. rewrite (of_gen_ok _ _ Hzs). auto.
Qed.

(** X2.  A vector minus itself never raises: it is the vector of as
    many zeros, under the default tolerance. *)
Theorem subtract_self (v : Vector.t) :
  exists r, Vector.subtract v v = Ok r /\
            Vector.dimension r = Vector.dimension v /\
            Vector.tolerance r = Vector.default_tolerance /\
            Forall (fun z => is_zero z = true) (Vector.coordinates r).
Proof.
  destruct (sub_vector_self v) as [zs [H [Hlen HF]]].
  eexists. split; [exact H|]. unfold Vector.dimension. cbn. rewrite Hlen. auto.
Qed.

Lemma add_zeros (x y : dec) :
  is_zero x = true -> is_zero y = true ->
  exists r, add x y = Ok r /\ is_zero r = true.
Proof.
  intros Hx Hy. unfold add, _fix. rewrite Hx, Hy. cbn [andb].
  rewrite fix_prec_zero. eauto.
Qed.

Lemma num_add_zeros (n : pynum) (x : dec) :
  num_is_zero n = true -> is_zero x = true ->
  exists r, num_add n x = Ok (NDec r) /\ is_zero r = true.
Proof.
  intros Hn Hx. destruct n as [z|a]; unfold num_is_zero in Hn; cbn [num_dec] in Hn;
    cbn [num_add].
  - destruct (add_zeros x (of_int z) Hx Hn) as [r [-> Hr]]. cbn [bind]. eauto.
  - destruct (add_zeros a x Hn Hx) as [r [-> Hr]]. cbn [bind]. eauto.
Qed.

(** The sum of a generator of zeros is a zero: the [int] [0] when the
    generator is empty, a [Decimal] zero otherwise. *)
Lemma sum_zeros (g : generator dec) :
  Forall (fun item => exists x, item = Ok x /\ is_zero x = true) g ->
  exists n, sum g = Ok n /\ num_is_zero n = true /\
            (g <> [] -> exists d, n = NDec d).
Proof.
  unfold sum.
  assert (H : forall n0 : pynum, num_is_zero n0 = true ->
            Forall (fun item => exists x, item = Ok x /\ is_zero x = true) g ->
            exists n, fold_left (fun acc item => a <- acc ;; x <- item ;; num_add a x)
                                g (Ok n0) = Ok n /\
                      num_is_zero n = true /\
                      (g <> [] \/ (exists d, n0 = NDec d) -> exists d, n = NDec d)).
  { induction g as [|item g IH]; intros n0 Hn0 Hg; simpl.
    - exists n0. repeat split; trivial. intros [H|H]; [congruence|exact H].
    - inversion Hg as [|? ? [x [-> Hx]] Hg']; subst. cbn [bind].
      destruct (num_add_zeros n0 x Hn0 Hx) as [r [-> Hr]].
      destruct (IH (NDec r) Hr Hg') as [n [Hn [Hz Hd]]].
      exists n. repeat split; trivial. intros _. apply Hd. right. eauto. }
  intros Hg. destruct (H (NInt 0) eq_refl Hg) as [n [Hn [Hz Hd]]].
  exists n. repeat split; trivial. intros Hne. apply Hd. now left.
Qed.

Lemma pow2_zero (x : dec) : is_zero x = true -> pow2 x = Ok (mkdec false 0 0).
Proof. intros H. unfold pow2. now rewrite H. Qed.

Lemma sqrt_zero (x : dec) :
  is_zero x = true -> exists r, sqrt x = Ok r /\ is_zero r = true.
Proof.
  intros H. unfold sqrt, _fix. rewrite H, fix_prec_zero. eauto.
Qed.

Lemma mul_zero_l (z x : dec) :
  is_zero z = true -> exists r, mul z x = Ok r /\ is_zero r = true.
Proof.
  intros Hz. rewrite mul_comm. destruct (mul_zero_r x z Hz) as [r [H [Hr _]]]. eauto.
Qed.

Lemma magnitude_zero_vector (v : Vector.t) :
  zero_vector v -> exists m, Vector.magnitude v = Ok m /\ is_zero m = true.
Proof.
  intros [Hne HF]. unfold Vector.magnitude.
  destruct (sum_zeros (map pow2 (Vector.coordinates v))) as [n [-> [Hn Hd]]].
  - apply Forall_forall. intros item Hin. apply in_map_iff in Hin.
    destruct Hin as [x [<- Hin]]. rewrite Forall_forall in HF.
    rewrite (pow2_zero x (HF x Hin)). eauto.
  - cbn [bind]. destruct Hd as [d ->].
    + destruct (Vector.coordinates v); [congruence|discriminate].
    + now apply sqrt_zero.
Qed.

Lemma dot_zero_vector_l (z w : Vector.t) :
  Forall (fun x => is_zero x = true) (Vector.coordinates z) ->
  exists n, Vector.dot z w = Ok n /\ num_is_zero n = true.
Proof.
  intros HF. unfold Vector.dot.
  destruct (sum_zeros (map (fun '(x, y) => mul x y)
              (zip (Vector.coordinates z) (Vector.coordinates w)))) as [n [Hn [Hz _]]].
  - apply Forall_forall. intros item Hin. apply in_map_iff in Hin.
    destruct Hin as [[x y] [<- Hin]].
    assert (Hx : In x (Vector.coordinates z)).
    { clear -Hin. revert Hin. generalize (Vector.coordinates w).
      induction (Vector.coordinates z) as [|a l IH]; intros [|b l'] H;
        simpl in *; try contradiction.
      destruct H as [[= -> ->]|H]; [now left|right; eauto]. }
    rewrite Forall_forall in HF. destruct (mul_zero_l x y (HF x Hx)) as [r [-> Hr]].
    eauto.
  - eauto.
Qed.

Lemma num_abs_zero (n : pynum) :
  num_is_zero n = true -> exists a, num_abs n = Ok a /\ num_is_zero a = true.
Proof.
  destruct n as [z|d]; unfold num_is_zero; cbn [num_dec num_abs]; intros H.
  - exists (NInt (Z.abs z)). split; [reflexivity|]. cbn [num_dec].
    unfold is_zero, of_int in *. cbn [coeff] in *.
    apply N.eqb_eq in H. apply N.eqb_eq. lia.
  - destruct (abs_zero d H) as [a [-> Ha]]. cbn [bind]. eauto.
Qed.

Lemma is_orthogonal_zero_dot (v w : Vector.t) (n : pynum) :
  Vector.dot v w = Ok n -> num_is_zero n = true ->
  Vector.is_orthogonal_to v w = Ok (lt (of_int 0) (Vector.tolerance v)).
Proof.
  intros Hd Hn. unfold Vector.is_orthogonal_to. rewrite Hd. cbn [bind].
  destruct (num_abs_zero n Hn) as [a [-> Ha]]. cbn [bind].
  unfold num_lt. now rewrite (lt_zero _ _ Ha).
Qed.

(** X3.  A vector of zeros has a zero for magnitude; under positive
    tolerances it is zero within tolerance, and parallel and orthogonal
    to every vector that has a magnitude, from both sides. *)
Theorem zero_vector_parallel_orthogonal (z w : Vector.t) (mw : dec) :
  zero_vector z ->
  lt (of_int 0) (Vector.tolerance z) = true ->
  lt (of_int 0) (Vector.tolerance w) = true ->
  Vector.magnitude w = Ok mw ->
  (exists m, Vector.magnitude z = Ok m /\ is_zero m = true) /\
  Vector.is_zero z = Ok true /\
  Vector.is_parallel_to z w = Ok true /\
  Vector.is_parallel_to w z = Ok true /\
  Vector.is_orthogonal_to z w = Ok true /\
  Vector.is_orthogonal_to w z = Ok true.
Proof.
  intros Hz Htz Htw Hmw.
  destruct (magnitude_zero_vector z Hz) as [m [Hm Hm0]].
  assert (Hisz : Vector.is_zero z = Ok true).
  { unfold Vector.is_zero. rewrite Hm. cbn [bind]. now rewrite (lt_zero _ _ Hm0), Htz. }
  split; [eauto|]. split; [exact Hisz|]. split; [|split; [|split]].
  - unfold Vector.is_parallel_to. now rewrite Hisz.
  - unfold Vector.is_parallel_to. rewrite Hisz.
    unfold Vector.is_zero. rewrite Hmw. cbn [bind].
    destruct (lt mw (Vector.tolerance w)); cbn [bind orb]; reflexivity.
  - destruct (dot_zero_vector_l z w (proj2 Hz)) as [n [Hd Hn]].
    now rewrite (is_orthogonal_zero_dot _ _ _ Hd Hn), Htz.
  - destruct (dot_zero_vector_l z w (proj2 Hz)) as [n [Hd Hn]].
    rewrite dot_comm in Hd.
    now rewrite (is_orthogonal_zero_dot _ _ _ Hd Hn), Htw.
Qed.

Lemma zero_vector_parallel_orthogonal_witness :
  zero_vector v_00 /\
  Vector.is_zero v_00 = Ok true /\
  Vector.is_parallel_to v_11 v_00 = Ok true /\
  Vector.is_orthogonal_to v_11 v_00 = Ok true.
Proof.
  assert (Hz : zero_vector v_00)
    by (split; [discriminate|repeat constructor]).
  assert (Ht : lt (of_int 0) tol_default = true) by (vm_compute; reflexivity).
  assert (Hm : exists m, Vector.magnitude v_11 = Ok m)
    by (eexists; vm_compute; reflexivity).
  destruct Hm as [m Hm].
  destruct (zero_vector_parallel_orthogonal v_00 v_11 m Hz Ht Ht Hm)
    as [_ [H1 [_ [H2 [_ H3]]]]].
  split; [exact Hz|]. split; [exact H1|]. split; [exact H2|exact H3].
Defined.

End VectorAlgebra.

(** ** Exceptions of normalization and projection *)

Section Projection.

Import PyDecimal.

Lemma pow2_raise (x : dec) (e : exn) : pow2 x = Raise e -> e = Overflow.
Proof.
  unfold pow2. destruct (is_zero x); [discriminate|].
  destruct (eqb _ _); [discriminate|].
  destruct (fix_prec _ _ _ _) as [t|e'] eqn:Ht; cbn [bind].
  - apply fix_prec_raise.
  - intros [= <-]. exact (fix_prec_raise _ _ _ _ _ Ht).
Qed.

Lemma pow2_sign (x r : dec) : pow2 x = Ok r -> sign r = false.
Proof.
  unfold pow2. destruct (is_zero x); [now intros [= <-]|].
  destruct (eqb _ _); [now intros [= <-]|].
  destruct (fix_prec _ _ _ _) as [t|e'] eqn:Ht; cbn [bind]; [|discriminate].
  intros H. apply fix_prec_sign in H. apply fix_prec_sign in Ht. congruence.
Qed.

Lemma add_sign (x y r : dec) :
  sign x = false -> sign y = false -> add x y = Ok r -> sign r = false.
Proof.
  intros Hx Hy. unfold add, signed. rewrite Hx, Hy. cbn [andb].
  destruct (is_zero x && is_zero y); [apply fix_prec_sign|].
  destruct (_ =? 0); [apply fix_prec_sign|].
  intros H. apply fix_prec_sign in H. rewrite H. apply Z.ltb_ge.
  assert (0 <= 10 ^ (exponent x - Z.min (exponent x) (exponent y))) by (apply Z.pow_nonneg; lia).
  assert (0 <= 10 ^ (exponent y - Z.min (exponent x) (exponent y))) by (apply Z.pow_nonneg; lia).
  nia.
Qed.

(** The sum of a generator of numbers that are not negative is an [int]
    or a [Decimal] that is not negative. *)
Lemma sum_sign (g : generator dec) (d : dec) :
  Forall (fun item => forall x, item = Ok x -> sign x = false) g ->
  sum g = Ok (NDec d) -> sign d = false.
Proof.
  unfold sum.
  assert (H : forall acc : result pynum,
            (forall a, acc = Ok a -> sign (num_dec a) = false) ->
            Forall (fun item => forall x, item = Ok x -> sign x = false) g ->
            forall n, fold_left (fun acc item => a <- acc ;; x <- item ;; num_add a x)
                                g acc = Ok n -> sign (num_dec n) = false).
  { induction g as [|item g IH]; simpl; intros acc Hacc Hg n.
    - apply Hacc.
    - inversion Hg as [|? ? Hitem Hg']; subst. apply IH; auto.
      intros a. destruct acc as [a0|e]; cbn [bind]; [|discriminate].
      destruct item as [x|e]; cbn [bind]; [|discriminate].
      pose proof (Hacc a0 eq_refl) as Ha0. pose proof (Hitem x eq_refl) as Hx.
      destruct a0 as [z|a0]; cbn [num_add num_dec] in *.
      + destruct (add x (of_int z)) as [r|e] eqn:Hadd; cbn [bind]; [|discriminate].
        intros [= <-]. exact (add_sign _ _ _ Hx Ha0 Hadd).
      + destruct (add a0 x) as [r|e] eqn:Hadd; cbn [bind]; [|discriminate].
        intros [= <-]. exact (add_sign _ _ _ Ha0 Hx Hadd). }
  intros Hg Hs. apply (H (Ok (NInt 0))) in Hs; trivial.
  intros a [= <-]. reflexivity.
Qed.

Lemma sqrt_raise (x : dec) (e : exn) :
  sign x = false -> sqrt x = Raise e -> e = Overflow.
Proof.
  intros Hx. unfold sqrt. rewrite Hx.
  destruct (is_zero x); [apply fix_prec_raise|].
  destruct (Z.odd (exponent x)); cbv zeta;
    repeat match goal with
           | |- context [if ?b then _ else _] => destruct b
           | |- context [let '(_, _) := ?p in _] => destruct p
           end; apply fix_prec_raise.
Qed.

(** The sum of no item is the [int] [0]; a sum of at least one item
    that returns is a [Decimal]. *)
Lemma sum_int (g : generator dec) (z : Z) : sum g = Ok (NInt z) -> g = [].
Proof.
  unfold sum. destruct g as [|item g]; [reflexivity|]. simpl.
  assert (H : forall (g : generator dec) (acc : result pynum),
            (forall z', acc <> Ok (NInt z')) ->
            fold_left (fun acc item => a <- acc ;; x <- item ;; num_add a x) g acc
              <> Ok (NInt z)).
  { clear. induction g as [|item g IH]; simpl; intros acc Hacc; [apply Hacc|].
    apply IH. intros z'. destruct acc as [a|e]; cbn [bind]; [|discriminate].
    destruct item as [x|e]; cbn [bind]; [|discriminate].
    destruct a as [z0|a]; cbn [num_add];
      destruct (add _ _); cbn [bind]; discriminate. }
  intros Hs. exfalso. revert Hs. apply H. intros z'.
  destruct item as [x|e]; cbn [bind]; [|discriminate].
  cbn [num_add]. destruct (add _ _); cbn [bind]; discriminate.
Qed.

(** [magnitude] raises only the [Overflow] of its arithmetic, or the
    [AttributeError] of a vector without coordinates. *)
Lemma magnitude_raise (v : Vector.t) (e : exn) :
  Vector.magnitude v = Raise e ->
  e = Overflow \/
  (e = AttributeError "'int' object has no attribute 'sqrt'" /\
   Vector.coordinates v = []).
Proof.
  unfold Vector.magnitude.
  assert (Hr : Forall (fun item : result dec => forall e', item = Raise e' -> e' = Overflow)
                 (map pow2 (Vector.coordinates v))).
  { apply Forall_forall. intros item Hin e' ->. apply in_map_iff in Hin.
    destruct Hin as [x [Hx _]]. exact (pow2_raise _ _ Hx). }
  assert (Hs : Forall (fun item : result dec => forall x, item = Ok x -> sign x = false)
                 (map pow2 (Vector.coordinates v))).
  { apply Forall_forall. intros item Hin x ->. apply in_map_iff in Hin.
    destruct Hin as [y [Hy _]]. exact (pow2_sign _ _ Hy). }
  destruct (sum _) as [[z|d]|e'] eqn:Hsum; cbn [bind].
  - intros [= <-]. right. split; [reflexivity|].
    apply sum_int in Hsum. now destruct (Vector.coordinates v).
  - intros H. left. apply (sqrt_raise d); [|exact H]. exact (sum_sign _ _ Hs Hsum).
  - intros [= <-]. left. exact (sum_raise _ _ Hr Hsum).
Qed.

Lemma of_gen_map_raise {A : Type} (f : A -> result dec) (l : list A) (e : exn) :
  (forall x e', In x l -> f x = Raise e' -> e' = Overflow) ->
  Vector.of_gen (map f l) = Raise e -> e = Overflow.
Proof.
  intros Hf. apply (of_gen_signal (fun e => e = Overflow)).
  apply Forall_forall. intros item Hin e' ->. apply in_map_iff in Hin.
  destruct Hin as [x [Hx Hin]]. rewrite (Hf x e' Hin Hx). split; [now left|reflexivity].
Qed.

Lemma scale_raise (v : Vector.t) (s : pynum) (e : exn) :
  Vector.scale v s = Raise e -> e = Overflow.
Proof.
  apply of_gen_map_raise. intros x e' _. apply mul_raise.
Qed.

Lemma dot_raise (v w : Vector.t) (e : exn) : Vector.dot v w = Raise e -> e = Overflow.
Proof.
  apply sum_raise. apply Forall_forall. intros item Hin e' ->.
  apply in_map_iff in Hin. destruct Hin as [[x y] [H _]]. exact (mul_raise _ _ _ H).
Qed.

Lemma subtract_raise (v w : Vector.t) (e : exn) :
  Vector.subtract v w = Raise e -> e = Overflow.
Proof.
  apply of_gen_map_raise. intros [x y] e' _. apply sub_raise.
Qed.

Lemma normalized_raise (w : Vector.t) (e : exn) :
  Vector.normalized w = Raise e ->
  (e = ZeroDivisionError "Cannot normalize the zero vector" /\
   exists m, Vector.magnitude w = Ok m /\ is_zero m = true) \/
  e = Overflow \/
  (e = AttributeError "'int' object has no attribute 'sqrt'" /\
   Vector.coordinates w = []).
Proof.
  unfold Vector.normalized.
  destruct (Vector.magnitude w) as [m|e'] eqn:Hm; cbn [bind].
  - destruct (is_zero m) eqn:Hz.
    + intros [= <-]. left. split; [reflexivity|eauto].
    + intros H. right. left. revert H.
      apply of_gen_map_raise. intros x e' _. now apply div_raise.
  - intros [= <-]. right. exact (magnitude_raise _ _ Hm).
Qed.

Lemma normalized_zero (w : Vector.t) (m : dec) :
  Vector.magnitude w = Ok m -> is_zero m = true ->
  Vector.normalized w = Raise (ZeroDivisionError "Cannot normalize the zero vector").
Proof.
  intros Hm Hz. unfold Vector.normalized. rewrite Hm. cbn [bind]. now rewrite Hz.
Qed.

Lemma parallel_to_zero (v w : Vector.t) (m : dec) :
  Vector.magnitude w = Ok m -> is_zero m = true ->
  Vector.parallel_to v w
    = Raise (ArithmeticError "No unique parallel component to zero vector").
Proof.
  intros Hm Hz. unfold Vector.parallel_to. now rewrite (normalized_zero _ _ Hm Hz).
Qed.

Lemma parallel_to_raise (v w : Vector.t) (e : exn) :
  Vector.parallel_to v w = Raise e ->
  (e = ArithmeticError "No unique parallel component to zero vector" /\
   exists m, Vector.magnitude w = Ok m /\ is_zero m = true) \/
  e = Overflow \/
  (e = AttributeError "'int' object has no attribute 'sqrt'" /\
   Vector.coordinates w = []).
Proof.
  unfold Vector.parallel_to.
  destruct (Vector.normalized w) as [nw|e'] eqn:Hn; cbn [bind].
  - destruct (Vector.dot v nw) as [s|e'] eqn:Hd; cbn [bind].
    + destruct (Vector.scale nw s) as [r|e'] eqn:Hs; [discriminate|].
      rewrite (scale_raise _ _ _ Hs). intros [= <-]. right. now left.
    + rewrite (dot_raise _ _ _ Hd). intros [= <-]. right. now left.
  - destruct (normalized_raise _ _ Hn) as [[-> Hm]|[->|[-> Hw]]]; cbn;
      intros [= <-]; auto.
Qed.

(** X4.  [normalized] on the magnitude [m] of the vector: it raises what
    [magnitude] raises (an [Overflow], or the [AttributeError] of a
    vector without coordinates); when [m] is a zero it raises the
    [ZeroDivisionError] of the class; otherwise it returns, unless a
    division overflows, the vector of the quotients [x / m], of the same
    dimension, under the default tolerance. *)
Theorem normalized_spec (v : Vector.t) :
  match Vector.magnitude v with
  | Raise e =>
      Vector.normalized v = Raise e /\
      (e = Overflow \/
       (e = AttributeError "'int' object has no attribute 'sqrt'" /\
        Vector.coordinates v = []))
  | Ok m =>
      if is_zero m then
        Vector.normalized v
          = Raise (ZeroDivisionError "Cannot normalize the zero vector")
      else
        match Vector.normalized v with
        | Ok r =>
            Vector.dimension r = Vector.dimension v /\
            Vector.tolerance r = Vector.default_tolerance /\
            Forall2 (fun x y => div x m = Ok y)
                    (Vector.coordinates v) (Vector.coordinates r)
        | Raise e => e = Overflow
        end
  end.
Proof.
  unfold Vector.normalized.
  destruct (Vector.magnitude v) as [m|e] eqn:Hm; cbn [bind].
  - destruct (is_zero m) eqn:Hz; [reflexivity|].
    destruct (Vector.of_gen _) as [r|e] eqn:Hr.
    + pose proof (of_gen_map_length _ _ _ Hr) as Hlen.
      apply of_gen_inv in Hr. destruct Hr as [Hc Ht].
      split; [unfold Vector.dimension; now rewrite Hlen|]. split; [exact Ht|].
      exact (collect_map_Forall2 _ _ _ Hc).
    + revert Hr. apply of_gen_map_raise. intros x e' _. now apply div_raise.
  - split; [reflexivity|]. exact (magnitude_raise _ _ Hm).
Qed.

(** X5.  [parallel_to] raises its [ArithmeticError] exactly when the
    magnitude of [other] is a zero; every other exception it raises is
    an [Overflow] of the arithmetic or the [AttributeError] of an
    [other] without coordinates. *)
Theorem parallel_to_exceptions (v w : Vector.t) (e : exn) :
  Vector.parallel_to v w = Raise e ->
  (e = ArithmeticError "No unique parallel component to zero vector" <->
   exists m, Vector.magnitude w = Ok m /\ is_zero m = true) /\
  (e = ArithmeticError "No unique parallel component to zero vector" \/
   e = Overflow \/
   (e = AttributeError "'int' object has no attribute 'sqrt'" /\
    Vector.coordinates w = [])).
Proof.
  intros H. split.
  - split.
    + intros ->. destruct (parallel_to_raise _ _ _ H) as [[_ Hm]|[Hm|[Hm _]]];
        [exact Hm|discriminate|discriminate].
    + intros [m [Hm Hz]]. rewrite (parallel_to_zero v w m Hm Hz) in H. congruence.
  - destruct (parallel_to_raise _ _ _ H) as [[-> _]|[->|[-> Hw]]]; auto.
Qed.

Lemma parallel_to_exceptions_witness :
  Vector.parallel_to v_11 v_00
    = Raise (ArithmeticError "No unique parallel component to zero vector") /\
  exists m, Vector.magnitude v_00 = Ok m /\ is_zero m = true.
Proof.
  assert (H : Vector.parallel_to v_11 v_00
              = Raise (ArithmeticError "No unique parallel component to zero vector"))
    by (vm_compute; reflexivity).
  split; [exact H|].
  exact (proj1 (proj1 (parallel_to_exceptions v_11 v_00 _ H)) eq_refl).
Defined.

(** X6.  [orthogonal_to] reports every failure of the arithmetic under
    one message: when the magnitude of [other] is a zero, when
    [parallel_to] overflows, and when the subtraction overflows, it
    raises the [ArithmeticError] of a zero vector; the only other
    exception it raises is the [AttributeError] of an [other] without
    coordinates. *)
Theorem orthogonal_to_exceptions (v w : Vector.t) :
  (forall m, Vector.magnitude w = Ok m -> is_zero m = true ->
   Vector.orthogonal_to v w
     = Raise (ArithmeticError "No unique orthogonal component to zero vector")) /\
  (Vector.parallel_to v w = Raise Overflow ->
   Vector.orthogonal_to v w
     = Raise (ArithmeticError "No unique orthogonal component to zero vector")) /\
  (forall p e, Vector.parallel_to v w = Ok p -> Vector.subtract v p = Raise e ->
   Vector.orthogonal_to v w
     = Raise (ArithmeticError "No unique orthogonal component to zero vector")) /\
  (forall e, Vector.orthogonal_to v w = Raise e ->
     e = ArithmeticError "No unique orthogonal component to zero vector" \/
     (e = AttributeError "'int' object has no attribute 'sqrt'" /\
      Vector.coordinates w = [])).
Proof.
  split; [|split; [|split]].
  - intros m Hm Hz. unfold Vector.orthogonal_to.
    now rewrite (parallel_to_zero v w m Hm Hz).
  - intros Hp. unfold Vector.orthogonal_to. now rewrite Hp.
  - intros p e Hp Hs. unfold Vector.orthogonal_to. rewrite Hp. cbn [bind].
    rewrite Hs, (subtract_raise _ _ _ Hs). reflexivity.
  - intros e. unfold Vector.orthogonal_to.
    destruct (Vector.parallel_to v w) as [p|e'] eqn:Hp; cbn [bind].
    + destruct (Vector.subtract v p) as [r|e'] eqn:Hs; [discriminate|].
      rewrite (subtract_raise _ _ _ Hs). cbn. intros [= <-]. now left.
    + destruct (parallel_to_raise _ _ _ Hp) as [[-> _]|[->|[-> Hw]]]; cbn;
        intros [= <-]; auto.
Qed.

Lemma orthogonal_to_exceptions_witness :
  Vector.parallel_to v_11 v_huge = Raise Overflow /\
  Vector.orthogonal_to v_11 v_huge
    = Raise (ArithmeticError "No unique orthogonal component to zero vector").
Proof.
  assert (H : Vector.parallel_to v_11 v_huge = Raise Overflow)
    by (vm_compute; reflexivity).
  split; [exact H|].
  exact (proj1 (proj2 (orthogonal_to_exceptions v_11 v_huge)) H).
Defined.

(** X7.  [angle_with] raises its [ArithmeticError] when the magnitude of
    one of the two vectors is a zero (of [self], or of [other] once
    [self] is normalized), whatever [math.acos] and [math.degrees] do;
    when both vectors normalize and their product returns [d], it
    returns [math.acos(d)], in degrees if asked; and an exception other
    than that [ArithmeticError] comes from [math.acos] or is an
    [Overflow] of the arithmetic or the [AttributeError] of a vector
    without coordinates. *)
Theorem angle_with_spec {float : Type} (acos : pynum -> result float)
    (degrees : float -> float) (v w : Vector.t) (in_degrees : bool) :
  (forall m, Vector.magnitude v = Ok m -> is_zero m = true ->
   Vector.angle_with acos degrees v w in_degrees
     = Raise (ArithmeticError "Cannot compute an angle with the zero vector")) /\
  (forall nv m, Vector.normalized v = Ok nv ->
   Vector.magnitude w = Ok m -> is_zero m = true ->
   Vector.angle_with acos degrees v w in_degrees
     = Raise (ArithmeticError "Cannot compute an angle with the zero vector")) /\
  (forall nv nw d a, Vector.normalized v = Ok nv -> Vector.normalized w = Ok nw ->
   Vector.dot nv nw = Ok d -> acos d = Ok a ->
   Vector.angle_with acos degrees v w in_degrees
     = Ok (if in_degrees then degrees a else a)) /\
  (forall e, Vector.angle_with acos degrees v w in_degrees = Raise e ->
   e = ArithmeticError "Cannot compute an angle with the zero vector" \/
   e = Overflow \/
   (e = AttributeError "'int' object has no attribute 'sqrt'" /\
    (Vector.coordinates v = [] \/ Vector.coordinates w = [])) \/
   exists d, acos d = Raise e).
Proof.
  split; [|split; [|split]].
  - intros m Hm Hz. unfold Vector.angle_with.
    now rewrite (normalized_zero _ _ Hm Hz).
  - intros nv m Hn Hm Hz. unfold Vector.angle_with.
    now rewrite Hn, (normalized_zero _ _ Hm Hz).
  - intros nv nw d a Hv Hw Hd Ha. unfold Vector.angle_with.
    rewrite Hv, Hw. cbn [bind]. rewrite Hd. cbn [bind]. rewrite Ha. cbn [bind].
    now destruct in_degrees.
  - intros e. unfold Vector.angle_with.
    destruct (Vector.normalized v) as [nv|e'] eqn:Hv; cbn [bind].
    + destruct (Vector.normalized w) as [nw|e'] eqn:Hw; cbn [bind].
      * destruct (Vector.dot nv nw) as [d|e'] eqn:Hd; cbn [bind].
        -- destruct (acos d) as [a|e'] eqn:Ha; cbn [bind].
           ++ destruct in_degrees; discriminate.
           ++ destruct (is_ZeroDivisionError e'); intros [= <-]; [now left|].
              right. right. right. eauto.
        -- rewrite (dot_raise _ _ _ Hd). intros [= <-]. right. now left.
      * destruct (normalized_raise _ _ Hw) as [[-> _]|[->|[-> Hc]]]; cbn;
          intros [= <-]; auto.
        right. right. left. auto.
    + destruct (normalized_raise _ _ Hv) as [[-> _]|[->|[-> Hc]]]; cbn;
        intros [= <-]; auto.
      right. right. left. auto.
Qed.

Lemma angle_with_spec_witness :
  Vector.angle_with (fun _ : pynum => Ok tt) (fun a => a) v_00 v_11 true
    = Raise (ArithmeticError "Cannot compute an angle with the zero vector") /\
  Vector.angle_with (fun _ : pynum => Ok tt) (fun a => a) v_11 v_00 false
    = Raise (ArithmeticError "Cannot compute an angle with the zero vector").
Proof.
  assert (Hm : Vector.magnitude v_00 = Ok (mkdec false 0 0)) by (vm_compute; reflexivity).
  assert (Hn : exists nv, Vector.normalized v_11 = Ok nv)
    by (eexists; vm_compute; reflexivity).
  destruct Hn as [nv Hn].
  split.
  - exact (proj1 (angle_with_spec (fun _ : pynum => Ok tt) (fun a => a) v_00 v_11 true)
                 _ Hm eq_refl).
  - exact (proj1 (proj2 (angle_with_spec (fun _ : pynum => Ok tt) (fun a => a)
                                          v_11 v_00 false))
                 nv _ Hn Hm eq_refl).
Defined.

End Projection.

(** ** The cross product *)

Section Cross.

Import PyDecimal.

Lemma dimension_3 (v : Vector.t) :
  Vector.dimension v = 3 -> exists a b c, Vector.coordinates v = [a; b; c].
Proof.
  unfold Vector.dimension.
  destruct (Vector.coordinates v) as [|a [|b [|c [|d l]]]]; simpl; try lia.
  eauto.
Qed.

Lemma getitem_triple (v : Vector.t) (a b c : dec) :
  Vector.coordinates v = [a; b; c] ->
  Vector.__getitem__ v 0 = Ok a /\ Vector.__getitem__ v 1 = Ok b /\
  Vector.__getitem__ v 2 = Ok c.
Proof.
  intros H. unfold Vector.__getitem__, Vector.dimension. rewrite H.
  repeat split; reflexivity.
Qed.

(** The three coordinates of the cross product, as [cross] computes
    them. *)
Lemma cross_triple (v w : Vector.t) (v0 v1 v2 w0 w1 w2 : dec) :
  Vector.coordinates v = [v0; v1; v2] ->
  Vector.coordinates w = [w0; w1; w2] ->
  Vector.cross v w =
    (x <- determinant v1 v2 w1 w2 ;;
     d <- determinant v0 v2 w0 w2 ;;
     y <- neg d ;;
     z <- determinant v0 v1 w0 w1 ;;
     Ok (Vector.mk [x; y; z] Vector.default_tolerance)).
Proof.
  intros Hv Hw. unfold Vector.cross, Vector.dimension at 1 2 3. rewrite Hv, Hw.
  cbn [List.length Z.of_nat Z.eqb Pos.eqb Pos.of_succ_nat Pos.succ andb negb].
  destruct (getitem_triple v _ _ _ Hv) as [-> [-> ->]].
  destruct (getitem_triple w _ _ _ Hw) as [-> [-> ->]].
  cbn [bind]. unfold determinant.
  destruct (mul v1 w2); cbn [bind]; [|reflexivity].
  destruct (mul v2 w1); cbn [bind]; [|reflexivity].
  destruct (sub _ _); cbn [bind]; [|reflexivity].
  destruct (mul v0 w2); cbn [bind]; [|reflexivity].
  destruct (mul v2 w0); cbn [bind]; [|reflexivity].
  destruct (sub _ _); cbn [bind]; [|reflexivity].
  destruct (neg _); cbn [bind]; [|reflexivity].
  destruct (mul v0 w1); cbn [bind]; [|reflexivity].
  destruct (mul v1 w0); cbn [bind]; [|reflexivity].
  destruct (sub _ _); cbn [bind]; reflexivity.
Qed.

Lemma neg_raise (x : dec) (e : exn) : neg x = Raise e -> e = Overflow.
Proof. unfold neg. destruct (is_zero x); apply fix_prec_raise. Qed.

Lemma neg_zero (x : dec) :
  is_zero x = true -> exists r, neg x = Ok r /\ is_zero r = true.
Proof.
  intros H. unfold neg, _fix. rewrite H, fix_prec_zero. eauto.
Qed.

(** [a*b - b*a] is a zero. *)
Lemma determinant_self (a b : dec) :
  match determinant a b a b with
  | Ok r => is_zero r = true
  | Raise e => e = Overflow
  end.
Proof.
  unfold determinant. rewrite (mul_comm b a).
  destruct (mul a b) as [p|e] eqn:Hp; cbn [bind]; [|exact (mul_raise _ _ _ Hp)].
  destruct (sub_self p) as [z [-> Hz]]. exact Hz.
Qed.

Lemma cross_not_three (v w : Vector.t) :
  ~ (Vector.dimension v = 3 /\ Vector.dimension w = 3) ->
  Vector.cross v w
    = Raise (Exception "Cross product is only defined in three dimensions").
Proof.
  intros Hn. unfold Vector.cross.
  destruct (Vector.dimension v =? Vector.dimension w) eqn:H1;
    destruct (Vector.dimension w =? 3) eqn:H2; cbn [andb negb]; try reflexivity.
  exfalso. apply Hn. apply Z.eqb_eq in H1, H2. lia.
Qed.

(** X8.  [cross] raises its [Exception] exactly when the two vectors are
    not both of dimension three; otherwise it raises only an
    [Overflow] of the arithmetic, and returns a vector of dimension
    three under the default tolerance.  The cross product of a vector
    with itself, when it returns, has three zeros for coordinates. *)
Theorem cross_spec (v w : Vector.t) :
  (Vector.cross v w
     = Raise (Exception "Cross product is only defined in three dimensions") <->
   ~ (Vector.dimension v = 3 /\ Vector.dimension w = 3)) /\
  match Vector.cross v w with
  | Ok r => Vector.dimension r = 3 /\ Vector.tolerance r = Vector.default_tolerance
  | Raise e =>
      e = Exception "Cross product is only defined in three dimensions" \/
      e = Overflow
  end /\
  (Vector.dimension v = 3 ->
   match Vector.cross v v with
   | Ok r => Forall (fun x => is_zero x = true) (Vector.coordinates r)
   | Raise e => e = Overflow
   end).
Proof.
  assert (Hok : forall v w, Vector.dimension v = 3 -> Vector.dimension w = 3 ->
            match Vector.cross v w with
            | Ok r => Vector.dimension r = 3 /\
                      Vector.tolerance r = Vector.default_tolerance
            | Raise e => e = Overflow
            end).
  { clear. intros v w Hv Hw.
    destruct (dimension_3 v Hv) as [v0 [v1 [v2 Hcv]]].
    destruct (dimension_3 w Hw) as [w0 [w1 [w2 Hcw]]].
    rewrite (cross_triple v w _ _ _ _ _ _ Hcv Hcw).
    destruct (determinant v1 v2 w1 w2) as [x|e] eqn:Hx; cbn [bind];
      [|exact (determinant_raise _ _ _ _ _ Hx)].
    destruct (determinant v0 v2 w0 w2) as [d|e] eqn:Hd; cbn [bind];
      [|exact (determinant_raise _ _ _ _ _ Hd)].
    destruct (neg d) as [y|e] eqn:Hy; cbn [bind]; [|exact (neg_raise _ _ Hy)].
    destruct (determinant v0 v1 w0 w1) as [z|e] eqn:Hz; cbn [bind];
      [|exact (determinant_raise _ _ _ _ _ Hz)].
    split; reflexivity. }
  pose proof (cross_not_three v w) as Hdim.
  split; [|split].
  - split; [|exact Hdim].
    intros Hc [Hv Hw]. pose proof (Hok v w Hv Hw) as H. rewrite Hc in H. discriminate.
  - destruct (Z.eq_dec (Vector.dimension v) 3) as [Hv|Hv];
      [destruct (Z.eq_dec (Vector.dimension w) 3) as [Hw|Hw]|].
    + pose proof (Hok v w Hv Hw) as H.
      destruct (Vector.cross v w); [exact H|now right].
    + rewrite Hdim by tauto. now left.
    + rewrite Hdim by tauto. now left.
  - intros Hv. destruct (dimension_3 v Hv) as [v0 [v1 [v2 Hcv]]].
    rewrite (cross_triple v v _ _ _ _ _ _ Hcv Hcv).
    pose proof (determinant_self v1 v2) as Hx.
    destruct (determinant v1 v2 v1 v2) as [x|e]; cbn [bind]; [|exact Hx].
    pose proof (determinant_self v0 v2) as Hd.
    destruct (determinant v0 v2 v0 v2) as [d|e]; cbn [bind]; [|exact Hd].
    destruct (neg_zero d Hd) as [y [-> Hy]]. cbn [bind].
    pose proof (determinant_self v0 v1) as Hz.
    destruct (determinant v0 v1 v0 v1) as [z|e]; cbn [bind]; [|exact Hz].
    cbn [Vector.coordinates]. repeat constructor; assumption.
Qed.

Lemma cross_spec_witness :
  Vector.dimension v_a = 3 /\
  exists r, Vector.cross v_a v_a = Ok r /\
            Forall (fun x => is_zero x = true) (Vector.coordinates r).
Proof.
  split; [reflexivity|].
  assert (H : exists r, Vector.cross v_a v_a = Ok r)
    by (eexists; vm_compute; reflexivity).
  destruct H as [r H]. exists r. split; [exact H|].
  pose proof (proj2 (proj2 (cross_spec v_a v_a)) eq_refl) as Hz.
  rewrite H in Hz. exact Hz.
Defined.

Lemma fix_prec_other_sign (p : Z) (s s' : bool) (c e : Z) (r : dec) :
  fix_prec p s c e = Ok r ->
  fix_prec p s' c e = Ok (mkdec s' (coeff r) (exponent r)).
Proof.
  unfold fix_prec. destruct (c =? 0); [now intros [= <-]|].
  destruct (_ <? _); [discriminate|].
  cbv zeta. destruct (e <? _); [|now intros [= <-]].
  destruct (if _ <? _ then _ else _) as [q exp_min].
  destruct (_ <? _); [discriminate|]. now intros [= <-].
Qed.

Lemma sub_swap (a b x : dec) :
  sub a b = Ok x -> exists x', sub b a = Ok x' /\ opposite x x'.
Proof.
  unfold sub, add, opposite. cbn [exponent copy_negate sign].
  rewrite (Z.min_comm (exponent b) (exponent a)).
  set (e := Z.min (exponent a) (exponent b)).
  assert (His : forall y, is_zero (copy_negate y) = is_zero y) by reflexivity.
  rewrite !His, (andb_comm (is_zero b)).
  assert (Hsg : forall y, signed (copy_negate y) = - signed y).
  { intros y. unfold signed, copy_negate. cbn [sign coeff]. destruct (sign y); cbn; lia. }
  rewrite !Hsg, !Z.mul_opp_l.
  destruct (is_zero a && is_zero b) eqn:Hz.
  - unfold _fix. rewrite !fix_prec_zero. intros [= <-]. eexists. split; [reflexivity|].
    cbn [coeff exponent is_zero]. repeat split. discriminate.
  - set (va := signed a * 10 ^ (exponent a - e)).
    set (vb := signed b * 10 ^ (exponent b - e)).
    replace (vb + - va) with (- (va + - vb)) by lia.
    destruct (Z.eqb_spec (va + - vb) 0) as [H0|H0].
    + rewrite H0. cbn [Z.opp Z.eqb]. intros H. exists x. split; [exact H|].
      repeat split. intros Hnz. unfold _fix in H. rewrite fix_prec_zero in H.
      injection H as <-. discriminate.
    + destruct (Z.eqb_spec (- (va + - vb)) 0) as [H1|H1]; [lia|].
      rewrite Z.abs_opp. intros H. unfold _fix in *.
      rewrite (fix_prec_other_sign _ _ (- (va + - vb) <? 0) _ _ _ H).
      eexists. split; [reflexivity|]. cbn [coeff exponent sign]. repeat split.
      intros _. apply fix_prec_sign in H. rewrite H.
      destruct (Z.ltb_spec (va + - vb) 0), (Z.ltb_spec (- (va + - vb)) 0);
        cbn; try reflexivity; lia.
Qed.

Lemma neg_opposite (x x' : dec) (r : dec) :
  opposite x x' -> neg x = Ok r -> exists r', neg x' = Ok r' /\ opposite r r'.
Proof.
  intros [Hc [He Hs]]. unfold neg.
  assert (Hz : is_zero x' = is_zero x) by (unfold is_zero; now rewrite Hc).
  rewrite Hz, Hc, He. destruct (is_zero x) eqn:Hx.
  - intros H. exists r. split; [exact H|]. repeat split.
    unfold _fix in H. rewrite fix_prec_zero in H. injection H as <-. discriminate.
  - intros H. unfold _fix in *.
    rewrite (fix_prec_other_sign _ _ (negb (sign x')) _ _ _ H).
    eexists. split; [reflexivity|]. cbn [coeff exponent sign]. repeat split.
    intros _. apply fix_prec_sign in H. rewrite H, (Hs eq_refl). reflexivity.
Qed.

Lemma determinant_swap (a b d e x : dec) :
  determinant a b d e = Ok x ->
  exists x', determinant d e a b = Ok x' /\ opposite x x'.
Proof.
  unfold determinant. rewrite (mul_comm d b), (mul_comm e a).
  destruct (mul a e) as [ae|?]; cbn [bind]; [|discriminate].
  destruct (mul b d) as [bd|?]; cbn [bind]; [|discriminate].
  apply sub_swap.
Qed.

(** X9.  The cross product is anticommutative, exactly: when
    [v.cross(w)] returns, [w.cross(v)] returns the vector of the negated
    coordinates (a zero coordinate may keep its sign). *)
Theorem cross_anticommutative (v w r : Vector.t) :
  Vector.cross v w = Ok r ->
  exists r', Vector.cross w v = Ok r' /\
             Forall2 opposite (Vector.coordinates r) (Vector.coordinates r').
Proof.
  intros H.
  destruct (Z.eq_dec (Vector.dimension v) 3) as [Hv|Hv];
    [|rewrite cross_not_three in H by tauto; discriminate].
  destruct (Z.eq_dec (Vector.dimension w) 3) as [Hw|Hw];
    [|rewrite cross_not_three in H by tauto; discriminate].
  destruct (dimension_3 v Hv) as [v0 [v1 [v2 Hcv]]].
  destruct (dimension_3 w Hw) as [w0 [w1 [w2 Hcw]]].
  rewrite (cross_triple v w _ _ _ _ _ _ Hcv Hcw) in H.
  rewrite (cross_triple w v _ _ _ _ _ _ Hcw Hcv).
  destruct (determinant v1 v2 w1 w2) as [x|e] eqn:Hx; cbn [bind] in H; [|discriminate].
  destruct (determinant v0 v2 w0 w2) as [d|e] eqn:Hd; cbn [bind] in H; [|discriminate].
  destruct (neg d) as [y|e] eqn:Hy; cbn [bind] in H; [|discriminate].
  destruct (determinant v0 v1 w0 w1) as [z|e] eqn:Hz; cbn [bind] in H; [|discriminate].
  injection H as <-.
  destruct (determinant_swap _ _ _ _ _ Hx) as [x' [-> Hx']].
  destruct (determinant_swap _ _ _ _ _ Hd) as [d' [-> Hd']].
  destruct (neg_opposite _ _ _ Hd' Hy) as [y' [Hy' Hyo]].
  destruct (determinant_swap _ _ _ _ _ Hz) as [z' [-> Hz']].
  cbn [bind]. rewrite Hy'. cbn [bind]. eexists. split; [reflexivity|].
  cbn [Vector.coordinates]. repeat (constructor; [assumption|]). constructor.
Qed.

Lemma cross_anticommutative_witness :
  exists r r', Vector.cross v_a v_b = Ok r /\ Vector.cross v_b v_a = Ok r' /\
               Forall2 opposite (Vector.coordinates r) (Vector.coordinates r').
Proof.
  assert (H : exists r, Vector.cross v_a v_b = Ok r)
    by (eexists; vm_compute; reflexivity).
  destruct H as [r H].
  destruct (cross_anticommutative v_a v_b r H) as [r' [H' Ho]].
  exists r, r'. auto.
Defined.

End Cross.

(** ** Lines on any normal vector *)

Section LineFacts.

Import PyDecimal.

Lemma abs_raise (x : dec) (e : exn) : abs x = Raise e -> e = Overflow.
Proof.
  unfold abs, neg, pos, _fix.
  destruct (sign x), (is_zero x); apply fix_prec_raise.
Qed.

Lemma below_or_not (tol x : dec) :
  below tol x \/ not_below tol x \/ abs x = Raise Overflow.
Proof.
  unfold below, not_below. destruct (abs x) as [a|e] eqn:Ha.
  - destruct (lt a tol) eqn:Hlt; eauto.
  - rewrite (abs_raise _ _ Ha). auto.
Qed.

(** The loop of [first_nonzero_index] from any position. *)
Lemma first_nonzero_from_spec (items : list dec) (tol : dec) (position : Z) :
  match Line.first_nonzero_from items tol position with
  | Ok i =>
      position <= i < position + Z.of_nat (List.length items) /\
      exists x, nth_error items (Z.to_nat (i - position)) = Some x /\
                not_below tol x /\
                Forall (below tol) (firstn (Z.to_nat (i - position)) items)
  | Raise e =>
      (e = Exception Line.NO_NONZERO_ELTS_FOUND_MSG /\ Forall (below tol) items) \/
      (e = Overflow /\ Exists (fun x => abs x = Raise Overflow) items)
  end.
Proof.
  revert position. induction items as [|item rest IH]; intros position.
  - left. split; [reflexivity|constructor].
  - cbn [Line.first_nonzero_from].
    destruct (abs item) as [a|e] eqn:Ha; cbn [bind].
    + destruct (lt a tol) eqn:Hlt; cbn [negb].
      * specialize (IH (position + 1)).
        assert (Hb : below tol item) by (exists a; auto).
        destruct (Line.first_nonzero_from rest tol (position + 1)) as [i|e].
        -- destruct IH as [Hi [x [Hx [Hnb HF]]]]. cbn [List.length]. split; [lia|].
           exists x. replace (Z.to_nat (i - position))
             with (S (Z.to_nat (i - (position + 1)))) by lia.
           cbn [nth_error firstn]. repeat split; trivial. now constructor.
        -- destruct IH as [[-> HF]|[-> HE]]; [left|right]; split; trivial.
           ++ now constructor.
           ++ now apply Exists_cons_tl.
      * cbn [List.length]. split; [lia|]. exists item.
        rewrite Z.sub_diag. cbn [Z.to_nat nth_error firstn].
        repeat split; [exists a; auto|constructor].
    + right. pose proof (abs_raise _ _ Ha) as ->. split; [reflexivity|].
      now apply Exists_cons_hd.
Qed.

(** X10.  [first_nonzero_index] on a normal vector of any dimension: it
    returns the position of the first coordinate whose absolute value is
    not below the tolerance of the line, every coordinate before it being
    below; it raises its [Exception] when every coordinate is below the
    tolerance, and otherwise only the [Overflow] of an [abs]. *)
Theorem first_nonzero_index_spec (l : Line.t) :
  let n := Vector.coordinates (Line.normal_vector l) in
  let tol := Line.tolerance l in
  match Line.first_nonzero_index l with
  | Ok i =>
      0 <= i < Vector.dimension (Line.normal_vector l) /\
      exists x, nth_error n (Z.to_nat i) = Some x /\ not_below tol x /\
                Forall (below tol) (firstn (Z.to_nat i) n)
  | Raise e =>
      (e = Exception Line.NO_NONZERO_ELTS_FOUND_MSG /\ Forall (below tol) n) \/
      (e = Overflow /\ Exists (fun x => abs x = Raise Overflow) n)
  end.
Proof.
  cbv zeta. unfold Line.first_nonzero_index, Line.first_nonzero_index_of.
  pose proof (first_nonzero_from_spec
                (Vector.coordinates (Line.normal_vector l)) (Line.tolerance l) 0) as H.
  destruct (Line.first_nonzero_from _ _ 0) as [i|e]; [|exact H].
  rewrite Z.sub_0_r in H. exact H.
Qed.

Lemma Decimal_constant (cterm : pyelem) :
  Decimal (if negb (elem_truthy cterm) then EDec (of_int 0) else cterm)
    = Ok (constant_of cterm).
Proof.
  destruct cterm as [|z|d]; cbn [elem_truthy negb constant_of]; try reflexivity.
  - destruct (Z.eqb_spec z 0) as [->|_]; reflexivity.
  - destruct (is_zero d); reflexivity.
Qed.







Lemma abs_zero_int : abs (of_int 0) = Ok (of_int 0).
Proof. vm_compute. reflexivity. Qed.

(** X12.  [Line()] on the default normal vector, for any constant term
    and tolerance: under a positive tolerance it is the line of the
    normal vector [(0, 0)] of that tolerance, without a base point; under
    a tolerance that is not positive the zero coordinate counts as
    nonzero, and the constructor raises the signal of the division of the
    constant term by zero. *)
Theorem init_defaults (cterm : pyelem) (tol : dec) :
  let n := Vector.mk [of_int 0; of_int 0] tol in
  let c := constant_of cterm in
  Line.__init__ None cterm tol =
    if lt (of_int 0) tol then Ok (Line.mk n c tol None)
    else Raise (if is_zero c then InvalidOperation else DivisionByZero).
Proof.
  cbv zeta. unfold Line.__init__.
  change (Vector.__init__ (OList (repeat (EInt 0) (Z.to_nat Line.dimension))) tol)
    with (Ok (Vector.mk [of_int 0; of_int 0] tol)).
  cbn [bind]. rewrite Decimal_constant. cbn [bind].
  unfold Line.set_basepoint, Line.first_nonzero_index_of. cbv zeta.
  cbn [Vector.coordinates Line.first_nonzero_from].
  rewrite abs_zero_int. cbn [bind].
  destruct (lt (of_int 0) tol); cbn [negb bind].
  - reflexivity.
  - change (Vector.__getitem__ (Vector.mk [of_int 0; of_int 0] tol) 0)
      with (Ok (of_int 0)).
    cbn [bind]. rewrite (div_by_zero _ (of_int 0) eq_refl). cbn [bind].
    destruct (is_zero (constant_of cterm)); reflexivity.
Qed.

(** [abs] does not read the sign. *)
Lemma abs_opposite (x y : dec) : opposite x y -> abs y = abs x.
Proof.
  intros [Hc [He _]]. unfold abs, neg, pos, is_zero. rewrite Hc, He.
  destruct (sign x), (sign y); reflexivity.
Qed.

Lemma is_parallel_to_zero_l (v w : Vector.t) :
  Vector.is_zero v = Ok true -> Vector.is_parallel_to v w = Ok true.
Proof. intros H. unfold Vector.is_parallel_to. now rewrite H. Qed.

Lemma is_parallel_to_zero_r (v w : Vector.t) (b : bool) :
  Vector.is_zero v = Ok b -> Vector.is_zero w = Ok true ->
  Vector.is_parallel_to v w = Ok true.
Proof.
  intros Hv Hw. unfold Vector.is_parallel_to. rewrite Hv. cbn [bind].
  destruct b; cbn [bind orb]; [reflexivity|]. now rewrite Hw.
Qed.

(** X13.  Equality of lines whose normal vectors are zero within
    tolerance: a line with such a normal vector and a line without are
    unequal, from both sides; two lines with such normal vectors are
    equal exactly when their constant terms differ by less than the
    tolerance of the left line, so that under one tolerance the test is
    symmetric. *)
Theorem eq_zero_normals (l other : Line.t) :
  Vector.is_zero (Line.normal_vector l) = Ok true ->
  (Vector.is_zero (Line.normal_vector other) = Ok false ->
   Line.__eq__ l other = Ok false /\ Line.__eq__ other l = Ok false) /\
  (Vector.is_zero (Line.normal_vector other) = Ok true ->
   Line.__eq__ l other =
     (diff <- sub (Line.constant_term l) (Line.constant_term other) ;;
      a <- abs diff ;;
      Ok (lt a (Line.tolerance l))) /\
   (Line.tolerance l = Line.tolerance other ->
    forall b, Line.__eq__ l other = Ok b -> Line.__eq__ other l = Ok b)).
Proof.
  intros Hl.
  assert (Heq : forall l other,
            Vector.is_zero (Line.normal_vector l) = Ok true ->
            Vector.is_zero (Line.normal_vector other) = Ok true ->
            Line.__eq__ l other =
              (diff <- sub (Line.constant_term l) (Line.constant_term other) ;;
               a <- abs diff ;;
               Ok (lt a (Line.tolerance l)))).
  { clear. intros l other Hl Ho. unfold Line.__eq__, Line.is_parallel_to.
    rewrite (is_parallel_to_zero_l _ _ Hl). cbn [bind]. rewrite Hl. cbn [bind].
    rewrite Ho. reflexivity. }
  split.
  - intros Ho. split; unfold Line.__eq__, Line.is_parallel_to.
    + rewrite (is_parallel_to_zero_l _ _ Hl). cbn [bind]. rewrite Hl. cbn [bind].
      now rewrite Ho.
    + rewrite (is_parallel_to_zero_r _ _ _ Ho Hl). cbn [bind]. rewrite Ho. cbn [bind].
      now rewrite Hl.
  - intros Ho. split; [exact (Heq l other Hl Ho)|].
    intros Ht b. rewrite (Heq l other Hl Ho), (Heq other l Ho Hl), <- Ht.
    destruct (sub (Line.constant_term l) (Line.constant_term other)) as [d|e] eqn:Hd;
      cbn [bind]; [|discriminate].
    destruct (sub_swap _ _ _ Hd) as [d' [-> Hop]]. cbn [bind].
    now rewrite (abs_opposite _ _ Hop).
Qed.

Lemma eq_zero_normals_witness :
  Vector.is_zero (Line.normal_vector line_0) = Ok true /\
  Vector.is_zero (Line.normal_vector l1) = Ok false /\
  Line.__eq__ line_0 l1 = Ok false /\ Line.__eq__ l1 line_0 = Ok false /\
  Line.__eq__ line_0 line_0 = Ok true.
Proof.
  assert (H0 : Vector.is_zero (Line.normal_vector line_0) = Ok true)
    by (vm_compute; reflexivity).
  assert (H1 : Vector.is_zero (Line.normal_vector l1) = Ok false)
    by (vm_compute; reflexivity).
  destruct (eq_zero_normals line_0 l1 H0) as [Hne _].
  destruct (eq_zero_normals line_0 line_0 H0) as [_ Heq].
  destruct (Hne H1) as [Ha Hb]. destruct (Heq H0) as [Hc _].
  do 4 (split; [assumption|]). rewrite Hc. vm_compute. reflexivity.
Defined.

(** X14.  Equality of lines is undefined where the two tests of a zero
    normal vector disagree: on two parallel lines whose normal vectors
    are not zero by their magnitude, a line that has no base point (each
    coordinate of its normal vector is below the tolerance) makes [==]
    raise, the [TypeError] of [None - ...] on the left and the
    [AttributeError] of [None.coordinates] on the right. *)
Theorem eq_without_base_point (l other : Line.t) :
  Line.is_parallel_to l other = Ok true ->
  Vector.is_zero (Line.normal_vector l) = Ok false ->
  Vector.is_zero (Line.normal_vector other) = Ok false ->
  (Line.base_point l = None ->
   exists msg, Line.__eq__ l other = Raise (TypeError msg)) /\
  (Line.base_point l <> None -> Line.base_point other = None ->
   exists msg, Line.__eq__ l other = Raise (AttributeError msg)).
Proof.
  intros Hp Hl Ho. unfold Line.__eq__. rewrite Hp. cbn [bind].
  rewrite Hl. cbn [bind]. rewrite Ho. cbn [bind]. split.
  - intros ->. destruct (Line.base_point other); cbn [Line.sub_base_points bind]; eauto.
  - intros Hb ->. destruct (Line.base_point l); [|congruence].
    cbn [Line.sub_base_points bind]. eauto.
Qed.

Lemma eq_without_base_point_witness :
  Line.base_point line_tiny = None /\
  exists msg, Line.__eq__ line_tiny line_tiny = Raise (TypeError msg).
Proof.
  assert (Hp : Line.is_parallel_to line_tiny line_tiny = Ok true)
    by (vm_compute; reflexivity).
  assert (Hz : Vector.is_zero (Line.normal_vector line_tiny) = Ok false)
    by (vm_compute; reflexivity).
  split; [reflexivity|].
  exact (proj1 (eq_without_base_point line_tiny line_tiny Hp Hz Hz) eq_refl).
Defined.

End LineFacts.

(** ** The left-hand side of a rendered line *)

Section LeftHandSide.

Import PyDecimal.

Lemma length_append (s1 s2 : string) :
  String.length (s1 ++ s2) = (String.length s1 + String.length s2)%nat.
Proof. induction s1 as [|c s1 IH]; simpl; [reflexivity|now rewrite IH]. Qed.

(** A term ends with ["x_"] and an index: it has at least two
    characters, and so has a line of terms. *)
Lemma join_terms_length (ts : list string) :
  ts <> [] -> Forall (fun s => (2 <= String.length s)%nat) ts ->
  (2 <= String.length (Line.join " " ts))%nat.
Proof.
  intros Hne HF. destruct ts as [|s ts]; [congruence|].
  inversion HF as [|? ? Hs _]; subst. destruct ts as [|s' ts]; simpl; [exact Hs|].
  rewrite length_append. lia.
Qed.

Lemma round_raise (x : dec) (n : Z) (e : exn) : round x n = Raise e -> decimal_signal e.
Proof.
  unfold round.
  repeat match goal with
         | |- context [if ?b then _ else _] => destruct b
         end;
    try (intros [= <-]; right; now left);
    intros H; left; exact (fix_prec_raise _ _ _ _ _ H).
Qed.

Lemma mod_raise (x y : dec) (e : exn) : mod_ x y = Raise e -> decimal_signal e.
Proof.
  unfold mod_.
  repeat match goal with
         | |- context [if ?b then _ else _] => destruct b
         end;
    try (intros [= <-]; right; now left);
    intros H; left; exact (fix_prec_raise _ _ _ _ _ H).
Qed.

Lemma whole_raise (x : dec) (e : exn) : Line.whole x = Raise e -> decimal_signal e.
Proof.
  unfold Line.whole. destruct (mod_ x (of_int 1)) as [m|e'] eqn:Hm; cbn [bind];
    [discriminate|]. intros [= <-]. exact (mod_raise _ _ _ Hm).
Qed.

Lemma num_abs_raise (n : pynum) (e : exn) : num_abs n = Raise e -> decimal_signal e.
Proof.
  destruct n as [z|d]; cbn [num_abs]; [discriminate|].
  destruct (abs d) as [a|e'] eqn:Ha; cbn [bind]; [discriminate|].
  intros [= <-]. left. exact (abs_raise _ _ Ha).
Qed.

Lemma write_coefficient_raise (p : Z) (x : dec) (b : bool) (e : exn) :
  Line.write_coefficient p x b = Raise e -> decimal_signal e.
Proof.
  unfold Line.write_coefficient.
  destruct (round x p) as [r|e'] eqn:Hr; cbn [bind];
    [|intros [= <-]; exact (round_raise _ _ _ Hr)].
  destruct (Line.whole r) as [c|e'] eqn:Hc; cbn [bind];
    [|intros [= <-]; exact (whole_raise _ _ Hc)].
  cbv zeta. destruct (num_abs c) as [a|e'] eqn:Ha; cbn [bind];
    [|intros [= <-]; exact (num_abs_raise _ _ Ha)].
  destruct (negb _); discriminate.
Qed.

Lemma getitem_raise (v : Vector.t) (i : Z) (e : exn) :
  Vector.__getitem__ v i = Raise e -> e = IndexError "tuple index out of range".
Proof.
  unfold Vector.__getitem__. destruct (_ && _); [|now intros [= <-]].
  destruct (nth_error _ _); [discriminate|now intros [= <-]].
Qed.

(** What the list comprehension of [__str__] returns and raises: a term
    for each index whose coefficient does not round to zero, each of at
    least two characters; never the exception of [first_nonzero_index]. *)
Lemma terms_spec (p : Z) (n : Vector.t) (i0 : Z) (range : list Z) :
  let zero i := exists x r, Vector.__getitem__ n i = Ok x /\
                            round x p = Ok r /\ eqb r (of_int 0) = true in
  (Forall zero range -> Line.terms p n i0 range = Ok []) /\
  match Line.terms p n i0 range with
  | Ok ts =>
      Forall (fun s => (2 <= String.length s)%nat) ts /\
      (ts = [] -> Forall zero range)
  | Raise e => String.eqb (exn_str e) Line.NO_NONZERO_ELTS_FOUND_MSG = false
  end.
Proof.
  cbv zeta. induction range as [|i range [IH1 IH2]]; cbn [Line.terms].
  - split; [reflexivity|]. split; constructor.
  - split.
    + intros H. inversion H as [|? ? [x [r [Hx [Hr Hz]]]] H']; subst.
      rewrite Hx. cbn [bind]. rewrite Hr. cbn [bind]. rewrite Hz. cbn [negb].
      exact (IH1 H').
    + destruct (Vector.__getitem__ n i) as [x|e] eqn:Hx; cbn [bind];
        [|now rewrite (getitem_raise _ _ _ Hx)].
      destruct (round x p) as [r|e] eqn:Hr; cbn [bind];
        [|exact (signal_not_caught _ (round_raise _ _ _ Hr))].
      destruct (eqb r (of_int 0)) eqn:Hz; cbn [negb].
      * destruct (Line.terms p n i0 range) as [ts|e]; [|exact IH2].
        destruct IH2 as [HF Hnil]. split; [exact HF|].
        intros H. constructor; [eauto|exact (Hnil H)].
      * destruct (Line.write_coefficient p x (i =? i0)) as [w|e] eqn:Hw; cbn [bind];
          [|exact (signal_not_caught _ (write_coefficient_raise _ _ _ _ Hw))].
        destruct (Line.terms p n i0 range) as [ts|e]; cbn [bind]; [|exact IH2].
        destruct IH2 as [HF _]. split; [|discriminate].
        constructor; [|exact HF]. rewrite !length_append. cbn [String.length]. lia.
Qed.

Lemma first_nonzero_index_raise (l : Line.t) (e : exn) :
  Line.first_nonzero_index l = Raise e ->
  e = Exception Line.NO_NONZERO_ELTS_FOUND_MSG \/ e = Overflow.
Proof.
  unfold Line.first_nonzero_index, Line.first_nonzero_index_of.
  pose proof (first_nonzero_from_spec
                (Vector.coordinates (Line.normal_vector l)) (Line.tolerance l) 0) as H.
  destruct (Line.first_nonzero_from _ _ 0) as [i|e']; [discriminate|].
  intros [= <-]. destruct H as [[-> _]|[-> _]]; auto.
Qed.

Lemma first_nonzero_all_below (l : Line.t) :
  Line.first_nonzero_index l = Raise (Exception Line.NO_NONZERO_ELTS_FOUND_MSG) <->
  Forall (below (Line.tolerance l)) (Vector.coordinates (Line.normal_vector l)).
Proof.
  unfold Line.first_nonzero_index, Line.first_nonzero_index_of.
  pose proof (first_nonzero_from_spec
                (Vector.coordinates (Line.normal_vector l)) (Line.tolerance l) 0) as H.
  destruct (Line.first_nonzero_from _ _ 0) as [i|e].
  - split; [discriminate|]. intros HF. exfalso.
    destruct H as [_ [x [Hx [Hnb _]]]]. apply nth_error_In in Hx.
    rewrite Forall_forall in HF. exact (below_not_below _ _ (HF x Hx) Hnb).
  - destruct H as [[-> HF]|[-> HE]]; [tauto|].
    split; [discriminate|]. intros HF. exfalso.
    apply Exists_exists in HE. destruct HE as [x [Hin Hr]].
    rewrite Forall_forall in HF. destruct (HF x Hin) as [a [Ha _]]. congruence.
Qed.

(** X15.  The left-hand side that [__str__] writes is the literal [0]
    exactly when every coordinate of the normal vector is below the
    tolerance of the line.  It is empty exactly when some coordinate is
    not, and yet both coefficients round to zero at three places: then
    the line is rendered without a left-hand side. *)
Theorem lhs_degenerate (l : Line.t) :
  (Line.lhs l = Ok "0" <->
   Forall (below (Line.tolerance l)) (Vector.coordinates (Line.normal_vector l))) /\
  (Line.lhs l = Ok "" <->
   (exists i, Line.first_nonzero_index l = Ok i) /\
   Forall (fun i => exists x r, Vector.__getitem__ (Line.normal_vector l) i = Ok x /\
                                round x 3 = Ok r /\ eqb r (of_int 0) = true)
          [0; 1]).
Proof.
  rewrite <- first_nonzero_all_below. unfold Line.lhs. cbv zeta.
  destruct (Line.first_nonzero_index l) as [i|e] eqn:Hi; cbn [bind].
  - destruct (terms_spec 3 (Line.normal_vector l) i [0; 1]) as [Hz Ht].
    cbv zeta in Hz, Ht.
    destruct (Line.terms 3 (Line.normal_vector l) i [0; 1]) as [ts|e]; cbn [bind].
    + destruct Ht as [HF Hnil]. destruct ts as [|t ts].
      * cbn [Line.join]. split; [split; discriminate|].
        split; [intros _; split; [eauto|exact (Hnil eq_refl)]|reflexivity].
      * assert (Hlen : (2 <= String.length (Line.join " " (t :: ts)))%nat)
          by (apply join_terms_length; [discriminate|exact HF]).
        set (j := Line.join " " (t :: ts)) in *. clearbody j.
        split; split; try discriminate.
        -- intros [= ->]. cbn in Hlen. lia.
        -- intros [= ->]. cbn in Hlen. lia.
        -- intros [_ H]. specialize (Hz H). discriminate.
    + rewrite Ht. split; split; try discriminate. intros [_ H].
      specialize (Hz H). discriminate.
  - destruct (first_nonzero_index_raise l e Hi) as [->| ->].
    + split; split; try reflexivity; try discriminate. intros [[i [=]] _].
    + split; split; try discriminate. intros [[i [=]] _].
Qed.

Lemma lhs_degenerate_witness :
  Line.lhs line_0 = Ok "0" /\ Line.lhs line_small = Ok "".
Proof.
  assert (Hb : below (Line.tolerance line_0) (of_int 0))
    by (exists (of_int 0); split; vm_compute; reflexivity).
  assert (Hi : Line.first_nonzero_index line_small = Ok 0)
    by (vm_compute; reflexivity).
  assert (Hr : round (mkdec false 1 (-4)) 3 = Ok (mkdec false 0 (-3)))
    by (vm_compute; reflexivity).
  assert (Hz : eqb (mkdec false 0 (-3)) (of_int 0) = true)
    by (vm_compute; reflexivity).
  split.
  - apply (proj2 (proj1 (lhs_degenerate line_0))).
    exact (Forall_cons _ Hb (Forall_cons _ Hb (Forall_nil _))).
  - apply (proj2 (proj2 (lhs_degenerate line_small))).
    split; [exists 0; exact Hi|].
    apply Forall_cons; [|apply Forall_cons; [|apply Forall_nil]];
      exists (mkdec false 1 (-4)), (mkdec false 0 (-3));
      (split; [reflexivity|split; [exact Hr|exact Hz]]).
Defined.

(** X16.  Rendering needs two coordinates: on a line whose normal
    vector has fewer, with a coordinate that is not below the
    tolerance, [__str__] raises, by the [IndexError] of the missing
    coordinate unless a rounding signals first. *)
Theorem str_needs_two_coordinates (l : Line.t) (i : Z) :
  Vector.dimension (Line.normal_vector l) < 2 ->
  Line.first_nonzero_index l = Ok i ->
  exists e, Line.lhs l = Raise e /\ Line.__str__ l = Raise e /\
            (e = IndexError "tuple index out of range" \/ decimal_signal e).
Proof.
  intros Hdim Hi.
  assert (Hlhs : exists e, Line.lhs l = Raise e /\
            (e = IndexError "tuple index out of range" \/ decimal_signal e)).
  { assert (H1 : Vector.__getitem__ (Line.normal_vector l) 1
                 = Raise (IndexError "tuple index out of range")).
    { unfold Vector.__getitem__. cbn [Z.ltb Z.compare].
      destruct (Z.ltb_spec 1 (Vector.dimension (Line.normal_vector l))); [lia|].
      now rewrite andb_false_r. }
    assert (Hcatch : forall e,
              e = IndexError "tuple index out of range" \/ decimal_signal e ->
              String.eqb (exn_str e) Line.NO_NONZERO_ELTS_FOUND_MSG = false).
    { intros e [->|He]; [reflexivity|exact (signal_not_caught _ He)]. }
    assert (Ht : exists e, Line.terms 3 (Line.normal_vector l) i [0; 1] = Raise e /\
              (e = IndexError "tuple index out of range" \/ decimal_signal e)).
    { cbn [Line.terms]. rewrite H1. cbn [bind].
      destruct (Vector.__getitem__ (Line.normal_vector l) 0) as [x|e] eqn:Hx;
        cbn [bind]; [|rewrite (getitem_raise _ _ _ Hx); eauto].
      destruct (round x 3) as [r|e] eqn:Hr; cbn [bind];
        [|exists e; split; [reflexivity|right; exact (round_raise _ _ _ Hr)]].
      destruct (negb (eqb r (of_int 0))); [|eauto].
      destruct (Line.write_coefficient 3 x (0 =? i)) as [w|e] eqn:Hw; cbn [bind];
        [eauto|].
      exists e. split; [reflexivity|right; exact (write_coefficient_raise _ _ _ _ Hw)]. }
    destruct Ht as [e [Ht He]]. exists e. split; [|exact He].
    unfold Line.lhs. cbv zeta. rewrite Hi. cbn [bind]. rewrite Ht. cbn [bind].
    now rewrite (Hcatch e He). }
  destruct Hlhs as [e [Hl He]]. exists e. split; [exact Hl|]. split; [|exact He].
  unfold Line.__str__. cbv zeta. now rewrite Hl.
Qed.

Lemma str_needs_two_coordinates_witness :
  Line.__init__ (Some (Vector.mk [of_int 5] tol_default)) (EInt 1) tol_default
    = Ok line_one /\
  Line.first_nonzero_index line_one = Ok 0 /\
  exists e, Line.__str__ line_one = Raise e /\
            (e = IndexError "tuple index out of range" \/ decimal_signal e).
Proof.
  assert (Hi : Line.first_nonzero_index line_one = Ok 0) by (vm_compute; reflexivity).
  assert (Hd : Vector.dimension (Line.normal_vector line_one) < 2) by reflexivity.
  split; [vm_compute; reflexivity|]. split; [exact Hi|].
  destruct (str_needs_two_coordinates line_one 0 Hd Hi) as [e [_ [Hs He]]].
  exists e. auto.
Defined.

End LeftHandSide.

(** ** Comparison and equality *)

Section Comparison.

Import PyDecimal.

Lemma pow10_pos (k : Z) : 0 <= k -> 0 < 10 ^ k.
Proof. intros H. apply Z.pow_pos_nonneg; lia. Qed.

Lemma compare_mul_pos (a b k : Z) : 0 < k -> (a * k ?= b * k) = (a ?= b).
Proof.
  intros Hk. destruct (Z.compare_spec a b) as [->|H|H].
  - apply Z.compare_refl.
  - apply Z.compare_lt_iff. nia.
  - apply Z.compare_gt_iff. nia.
Qed.

(** The comparison of two positive coefficients with their exponents, as
    [_cmp] makes it, is the comparison of the values. *)
Lemma cmp_magnitude (cx ex cy ey m : Z) :
  0 < cx -> 0 < cy -> m <= ex -> m <= ey ->
  match ndigits cx + ex - 1 ?= ndigits cy + ey - 1 with
  | Eq => cx * 10 ^ Z.max 0 (ex - ey) ?= cy * 10 ^ Z.max 0 (ey - ex)
  | c => c
  end = (cx * 10 ^ (ex - m) ?= cy * 10 ^ (ey - m)).
Proof.
  intros Hx Hy Hmx Hmy.
  destruct (ndigits_bounds cx Hx) as [Hnx [Hlx Hux]].
  destruct (ndigits_bounds cy Hy) as [Hny [Hly Huy]].
  assert (Hlt : forall c e c' e', 0 < c -> 0 < c' -> m <= e -> m <= e' ->
            1 <= ndigits c -> c < 10 ^ ndigits c -> 10 ^ (ndigits c' - 1) <= c' ->
            1 <= ndigits c' ->
            ndigits c + e - 1 < ndigits c' + e' - 1 ->
            c * 10 ^ (e - m) < c' * 10 ^ (e' - m)).
  { clear. intros c e c' e' Hc Hc' He He' Hn Hu Hl Hn' Hadj.
    apply Z.lt_le_trans with (10 ^ (ndigits c + (e - m))).
    - rewrite pow10_split by lia. pose proof (pow10_pos (e - m)). nia.
    - apply Z.le_trans with (10 ^ ((ndigits c' - 1) + (e' - m))).
      + apply Z.pow_le_mono_r; lia.
      + rewrite pow10_split by lia. pose proof (pow10_pos (e' - m)). nia. }
  destruct (Z.compare_spec (ndigits cx + ex - 1) (ndigits cy + ey - 1)) as [He|Hl|Hg].
  - destruct (Z.le_ge_cases ex ey) as [Hle|Hle].
    + rewrite (Z.max_l 0 (ex - ey)), (Z.max_r 0 (ey - ex)) by lia.
      replace (ey - m) with ((ey - ex) + (ex - m)) by lia.
      rewrite (pow10_split (ey - ex)) by lia. cbn [Z.pow]. rewrite Z.mul_1_r.
      rewrite Z.mul_assoc. symmetry. apply compare_mul_pos. apply pow10_pos. lia.
    + rewrite (Z.max_r 0 (ex - ey)), (Z.max_l 0 (ey - ex)) by lia.
      replace (ex - m) with ((ex - ey) + (ey - m)) by lia.
      rewrite (pow10_split (ex - ey)) by lia. cbn [Z.pow]. rewrite Z.mul_1_r.
      rewrite Z.mul_assoc. symmetry. apply compare_mul_pos. apply pow10_pos. lia.
  - symmetry. apply Z.compare_lt_iff. apply Hlt; assumption.
  - symmetry. apply Z.compare_gt_iff. apply Hlt; assumption.
Qed.

(** [_cmp] compares the values: for an exponent [m] not above those of
    [x] and [y], it is the comparison of the two numbers in units of
    [10^m]. *)
Lemma cmp_value (x y : dec) (m : Z) :
  m <= exponent x -> m <= exponent y ->
  cmp x y = (scaled m x ?= scaled m y).
Proof.
  intros Hmx Hmy. unfold cmp, scaled, signed, adjusted.
  pose proof (pow10_pos (exponent x - m)) as Hpx.
  pose proof (pow10_pos (exponent y - m)) as Hpy.
  destruct (is_zero x) eqn:Hzx; [apply is_zero_coeff in Hzx; rewrite Hzx|
                                  apply is_zero_pos in Hzx];
    (destruct (is_zero y) eqn:Hzy; [apply is_zero_coeff in Hzy; rewrite Hzy|
                                    apply is_zero_pos in Hzy]).
  - now destruct (sign x), (sign y).
  - replace (if sign x then - 0 else 0) with 0 by now destruct (sign x).
    cbn [Z.mul]. destruct (sign y); symmetry.
    + apply Z.compare_gt_iff. nia.
    + apply Z.compare_lt_iff. nia.
  - replace (if sign y then - 0 else 0) with 0 by now destruct (sign y).
    cbn [Z.mul]. destruct (sign x); symmetry.
    + apply Z.compare_lt_iff. nia.
    + apply Z.compare_gt_iff. nia.
  - pose proof (cmp_magnitude _ (exponent x) _ (exponent y) m Hzx Hzy Hmx Hmy) as Hc.
    destruct (sign x), (sign y); cbn [andb negb].
    + rewrite Hc. rewrite !Z.mul_opp_l, Z.compare_opp. symmetry.
      apply Z.compare_antisym.
    + symmetry. apply Z.compare_lt_iff. nia.
    + symmetry. apply Z.compare_gt_iff. nia.
    + exact Hc.
Qed.

Lemma eqb_value (x y : dec) (m : Z) :
  m <= exponent x -> m <= exponent y ->
  eqb x y = true <-> scaled m x = scaled m y.
Proof.
  intros Hx Hy. unfold eqb. rewrite (cmp_value x y m Hx Hy).
  destruct (Z.compare_spec (scaled m x) (scaled m y)); split; trivial;
    try discriminate; lia.
Qed.

Lemma eqb_refl (x : dec) : eqb x x = true.
Proof. apply (eqb_value x x (exponent x)); lia. Qed.

Lemma eqb_sym (x y : dec) : eqb x y = eqb y x.
Proof.
  unfold eqb.
  rewrite (cmp_value x y (Z.min (exponent x) (exponent y))),
          (cmp_value y x (Z.min (exponent x) (exponent y))) by lia.
  rewrite (Z.compare_antisym (scaled _ x)). now destruct (_ ?= _).
Qed.

Lemma eqb_trans (x y z : dec) : eqb x y = true -> eqb y z = true -> eqb x z = true.
Proof.
  set (m := Z.min (exponent x) (Z.min (exponent y) (exponent z))).
  rewrite (eqb_value x y m), (eqb_value y z m), (eqb_value x z m) by lia.
  congruence.
Qed.

(** [y] is the number [x]: the two have one value, whatever their
    exponents. *)
Lemma coords_eqb_Forall2 (l1 l2 : list dec) :
  Vector.coords_eqb l1 l2 = true <-> Forall2 same_value l1 l2.
Proof.
  revert l2. induction l1 as [|x l1 IH]; intros [|y l2]; cbn [Vector.coords_eqb].
  - split; [constructor|reflexivity].
  - split; [discriminate|intros H; inversion H].
  - split; [discriminate|intros H; inversion H].
  - rewrite andb_true_iff, IH.
    assert (Hv : eqb x y = true <-> same_value x y)
      by (apply eqb_value; lia).
    rewrite Hv. split.
    + intros [Hx Hl]. now constructor.
    + intros H. inversion H; subst. auto.
Qed.

(** X17.  [==] on vectors is an equivalence that compares values: two
    vectors are equal exactly when they have the same number of
    coordinates and the coordinates have pairwise the same value,
    whatever their exponents, their signs of zero and the tolerances of
    the vectors. *)
Theorem vector_eq_equivalence (u v w : Vector.t) :
  Vector.__eq__ v v = true /\
  Vector.__eq__ v w = Vector.__eq__ w v /\
  (Vector.__eq__ u v = true -> Vector.__eq__ v w = true ->
   Vector.__eq__ u w = true) /\
  (Vector.__eq__ v w = true <->
   Forall2 same_value (Vector.coordinates v) (Vector.coordinates w)) /\
  (Vector.__eq__ v w = true -> Vector.dimension v = Vector.dimension w).
Proof.
  unfold Vector.__eq__, Vector.dimension.
  generalize (Vector.coordinates u) (Vector.coordinates v) (Vector.coordinates w).
  clear. intros lu lv lw. split; [|split; [|split; [|split]]].
  - induction lv as [|x l IH]; cbn [Vector.coords_eqb]; [reflexivity|].
    now rewrite eqb_refl, IH.
  - revert lw. induction lv as [|x l IH]; intros [|y l']; cbn [Vector.coords_eqb];
      try reflexivity. now rewrite eqb_sym, IH.
  - revert lv lw. induction lu as [|x l IH]; intros [|y l'] [|z l''];
      cbn [Vector.coords_eqb]; try discriminate; trivial.
    rewrite !andb_true_iff. intros [Hxy Hl] [Hyz Hl'].
    split; [exact (eqb_trans _ _ _ Hxy Hyz)|exact (IH _ _ Hl Hl')].
  - apply coords_eqb_Forall2.
  - intros H. apply coords_eqb_Forall2 in H. f_equal. exact (Forall2_length H).
Qed.

Lemma vector_eq_equivalence_witness :
  Vector.__eq__ v_11 v_11_padded = true /\
  Vector.__eq__ v_11_padded v_11 = true /\
  Forall2 same_value (Vector.coordinates v_11) (Vector.coordinates v_11_padded).
Proof.
  assert (H : Vector.__eq__ v_11 v_11_padded = true) by (vm_compute; reflexivity).
  destruct (vector_eq_equivalence v_11 v_11 v_11_padded) as [_ [Hs [_ [Hv _]]]].
  split; [exact H|]. split; [rewrite <- Hs; exact H|exact (proj1 Hv H)].
Defined.

End Comparison.

(** ** Indexing, accuracy and scaling *)

Section Coordinates.

Import PyDecimal.

(** X18.  [v[i]] returns a coordinate exactly for [-n <= i < n], [n] the
    dimension: the coordinate at [i], counted from the end when [i] is
    negative; outside that range it raises the [IndexError] of the
    tuple. *)
Theorem getitem_spec (v : Vector.t) (i : Z) :
  let n := Vector.dimension v in
  match Vector.__getitem__ v i with
  | Ok x => - n <= i < n /\
            nth_error (Vector.coordinates v) (Z.to_nat (i mod n)) = Some x
  | Raise e => e = IndexError "tuple index out of range" /\ (i < - n \/ n <= i)
  end.
Proof.
  cbv zeta. unfold Vector.__getitem__.
  set (n := Vector.dimension v).
  assert (Hn : n = Z.of_nat (List.length (Vector.coordinates v))) by reflexivity.
  destruct (Z.ltb_spec i 0) as [Hi|Hi].
  - destruct (Z.leb_spec 0 (i + n)) as [H0|H0]; cbn [andb].
    + destruct (Z.ltb_spec (i + n) n) as [H1|H1]; [|lia].
      assert (Hm : i mod n = i + n)
        by (symmetry; apply (Z.mod_unique i n (-1)); lia).
      rewrite Hm. destruct (nth_error _ _) as [x|] eqn:Hx; [split; [lia|reflexivity]|].
      apply nth_error_None in Hx. lia.
    + split; [reflexivity|lia].
  - destruct (Z.leb_spec 0 i) as [H0|H0]; [|lia]. cbn [andb].
    destruct (Z.ltb_spec i n) as [H1|H1].
    + rewrite Z.mod_small by lia.
      destruct (nth_error _ _) as [x|] eqn:Hx; [split; [lia|reflexivity]|].
      apply nth_error_None in Hx. lia.
    + split; [reflexivity|lia].
Qed.

(** X19.  [add] and [subtract] are accurate to half a unit in the last
    place: each coordinate of the result differs from the exact sum or
    difference of the operands by at most half a unit of its own last
    digit. *)
Theorem add_subtract_accuracy (v w r : Vector.t) :
  (Vector.add v w = Ok r ->
   Forall2 (fun '(x, y) z => forall m, m <= exponent x -> m <= exponent y ->
              2 * Z.abs (scaled m x + scaled m y - scaled m z)
                <= 10 ^ (exponent z - m))
           (zip (Vector.coordinates v) (Vector.coordinates w))
           (Vector.coordinates r)) /\
  (Vector.subtract v w = Ok r ->
   Forall2 (fun '(x, y) z => forall m, m <= exponent x -> m <= exponent y ->
              2 * Z.abs (scaled m x - scaled m y - scaled m z)
                <= 10 ^ (exponent z - m))
           (zip (Vector.coordinates v) (Vector.coordinates w))
           (Vector.coordinates r)).
Proof.
  split; intros H.
  - pose proof (zip_op_spec add v w add_raise) as Hs.
    fold (Vector.add v w) in Hs. rewrite H in Hs. destruct Hs as [_ HF].
    revert HF. apply Forall2_impl. intros [x y] z Hz m Hx Hy.
    exact (add_error x y z m Hx Hy Hz).
  - pose proof (zip_op_spec sub v w sub_raise) as Hs.
    fold (Vector.subtract v w) in Hs. rewrite H in Hs. destruct Hs as [_ HF].
    revert HF. apply Forall2_impl. intros [x y] z Hz m Hx Hy.
    exact (sub_error x y z m Hx Hy Hz).
Qed.

Lemma add_subtract_accuracy_witness :
  exists r, Vector.add v_a v_b = Ok r /\
    Forall2 (fun '(x, y) z => forall m, m <= exponent x -> m <= exponent y ->
               2 * Z.abs (scaled m x + scaled m y - scaled m z)
                 <= 10 ^ (exponent z - m))
            (zip (Vector.coordinates v_a) (Vector.coordinates v_b))
            (Vector.coordinates r).
Proof.
  assert (H : exists r, Vector.add v_a v_b = Ok r)
    by (eexists; vm_compute; reflexivity).
  destruct H as [r H]. exists r. split; [exact H|].
  exact (proj1 (add_subtract_accuracy v_a v_b r) H).
Defined.

(** A number in the range of the context is left as it is by [_fix]. *)
Lemma fix_of_fixed (x : dec) :
  fixed x -> _fix (sign x) (Z.of_N (coeff x)) (exponent x) = Ok x.
Proof.
  intros [Hmin [Hzero Hnz]]. destruct x as [s c e]. cbn [sign coeff exponent] in *.
  unfold _fix, fix_prec.
  destruct (Z.eqb_spec (Z.of_N c) 0) as [H0|H0].
  - assert (Hc : c = 0%N) by lia. subst c.
    specialize (Hzero eq_refl). f_equal. f_equal. lia.
  - assert (Hz : is_zero (mkdec s c e) = false)
      by (unfold is_zero; cbn [coeff]; apply N.eqb_neq; lia).
    destruct (Hnz Hz) as [Hnd Hadj]. unfold adjusted in Hadj.
    cbn [coeff exponent] in Hadj. unfold Etop, Etiny, Emin, Emax, prec in *.
    destruct (Z.ltb_spec (999999 - 30 + 1) (ndigits (Z.of_N c) + e - 30)); [lia|].
    cbv zeta.
    destruct (Z.ltb_spec e (Z.max (ndigits (Z.of_N c) + e - 30) (-999999 - 30 + 1)));
      [lia|].
    now rewrite N2Z.id.
Qed.

Lemma mul_one (x : dec) : fixed x -> mul x (of_int 1) = Ok x.
Proof.
  intros H. unfold mul. cbn [of_int sign coeff exponent Z.ltb Z.compare Z.abs_N].
  rewrite xorb_false_r, Z.add_0_r.
  change (Z.of_N (Z.abs_N 1)) with 1. rewrite Z.mul_1_r. now apply fix_of_fixed.
Qed.

(** X20.  Scalar multiplication by a zero returns, without raising, the
    vector of as many zeros; by [1] it returns the coordinates
    unchanged, digit for digit, when they are in the range of the
    context, as every computed coordinate is.  Both results carry the
    default tolerance. *)
Theorem scale_zero_one (v : Vector.t) :
  (forall s, num_is_zero s = true ->
   exists r, Vector.scale v s = Ok r /\
             Vector.dimension r = Vector.dimension v /\
             Vector.tolerance r = Vector.default_tolerance /\
             Forall (fun x => is_zero x = true) (Vector.coordinates r)) /\
  (Forall fixed (Vector.coordinates v) ->
   Vector.scale v (NInt 1)
     = Ok (Vector.mk (Vector.coordinates v) Vector.default_tolerance)).
Proof.
  unfold Vector.scale, Vector.dimension. split.
  - intros s Hs. unfold num_is_zero in Hs.
    assert (H : exists cs,
              collect (map (fun x => mul x (num_dec s)) (Vector.coordinates v)) = Ok cs /\
              List.length cs = List.length (Vector.coordinates v) /\
              Forall (fun x => is_zero x = true) cs).
    { induction (Vector.coordinates v) as [|x l [cs [Hc [Hl HF]]]]; cbn [map collect].
      - exists []. repeat split. constructor.
      - destruct (mul_zero_r x _ Hs) as [r [-> [Hr _]]]. cbn [bind]. rewrite Hc.
        cbn [bind]. exists (r :: cs). repeat split; [cbn; lia|now constructor]. }
    destruct H as [cs [Hc [Hl HF]]]. rewrite (of_gen_ok _ _ Hc).
    eexists. split; [reflexivity|]. cbn [Vector.coordinates Vector.tolerance].
    rewrite Hl. auto.
  - intros HF. apply of_gen_ok. cbn [num_dec].
    induction HF as [|x l Hx _ IH]; cbn [map collect]; [reflexivity|].
    rewrite (mul_one x Hx). cbn [bind]. now rewrite IH.
Qed.

Lemma scale_zero_one_witness :
  (exists r, Vector.scale v_b (NInt 0) = Ok r /\
             Forall (fun x => is_zero x = true) (Vector.coordinates r)) /\
  Vector.scale v_b (NInt 1) = Ok v_b.
Proof.
  split.
  - destruct (proj1 (scale_zero_one v_b) (NInt 0) eq_refl) as [r [H [_ [_ HF]]]].
    exists r. auto.
  - apply (proj2 (scale_zero_one v_b)).
    repeat constructor; cbv; try discriminate; intros; discriminate.
Defined.

(** X21.  The test of orthogonality reads the tolerance of the left
    vector only: under one tolerance it is symmetric. *)
Theorem is_orthogonal_to_symmetric (v w : Vector.t) :
  Vector.tolerance v = Vector.tolerance w ->
  Vector.is_orthogonal_to v w = Vector.is_orthogonal_to w v.
Proof.
  intros Ht. unfold Vector.is_orthogonal_to. now rewrite dot_comm, Ht.
Qed.

Lemma is_orthogonal_to_symmetric_witness :
  Vector.tolerance v_a = Vector.tolerance v_b /\
  Vector.is_orthogonal_to v_a v_b = Vector.is_orthogonal_to v_b v_a.
Proof.
  split; [reflexivity|]. exact (is_orthogonal_to_symmetric v_a v_b eq_refl).
Defined.

End Coordinates.

(** ** Vectors without coordinates, and what [intersection] returns *)

Section Edges.

Import PyDecimal.

(** X22.  A vector without coordinates, which the constructor accepts
    from an empty generator, has no magnitude: [magnitude], [is_zero],
    [normalized] and [is_parallel_to] raise the [AttributeError] of
    [sum] returning the [int] [0], and so do the projections on it;
    its dot product with any vector is the [int] [0], and its sum with
    any vector is again without coordinates. *)
Theorem empty_vector (v w : Vector.t) :
  Vector.coordinates v = [] ->
  let e := AttributeError "'int' object has no attribute 'sqrt'" in
  Vector.__init__ (OGen []) (Vector.tolerance v) = Ok v /\
  Vector.magnitude v = Raise e /\
  Vector.is_zero v = Raise e /\
  Vector.normalized v = Raise e /\
  Vector.is_parallel_to v w = Raise e /\
  Vector.parallel_to w v = Raise e /\
  Vector.orthogonal_to w v = Raise e /\
  Vector.dot v w = Ok (NInt 0) /\
  Vector.is_orthogonal_to v w = Ok (lt (of_int 0) (Vector.tolerance v)) /\
  Vector.add v w = Ok (Vector.mk [] Vector.default_tolerance).
Proof.
  intros Hv. cbv zeta.
  assert (Hm : Vector.magnitude v
               = Raise (AttributeError "'int' object has no attribute 'sqrt'"))
    by (unfold Vector.magnitude; rewrite Hv; reflexivity).
  assert (Hn : Vector.normalized v
               = Raise (AttributeError "'int' object has no attribute 'sqrt'"))
    by (unfold Vector.normalized; rewrite Hm; reflexivity).
  assert (Hp : Vector.parallel_to w v
               = Raise (AttributeError "'int' object has no attribute 'sqrt'"))
    by (unfold Vector.parallel_to; rewrite Hn; reflexivity).
  assert (Hz : Vector.is_zero v
               = Raise (AttributeError "'int' object has no attribute 'sqrt'"))
    by (unfold Vector.is_zero; rewrite Hm; reflexivity).
  split; [destruct v as [cs tol]; cbn in Hv; subst cs; reflexivity|].
  do 3 (split; [assumption|]).
  split; [unfold Vector.is_parallel_to; rewrite Hz; reflexivity|].
  split; [exact Hp|].
  split; [unfold Vector.orthogonal_to; rewrite Hp; reflexivity|].
  split; [unfold Vector.dot; rewrite Hv; reflexivity|].
  split; [unfold Vector.is_orthogonal_to, Vector.dot; rewrite Hv; reflexivity|].
  unfold Vector.add. rewrite Hv. reflexivity.
Qed.

Lemma empty_vector_witness :
  Vector.__init__ (OGen []) tol_default = Ok v_empty /\
  Vector.magnitude v_empty
    = Raise (AttributeError "'int' object has no attribute 'sqrt'") /\
  Vector.dot v_empty v_11 = Ok (NInt 0).
Proof.
  destruct (empty_vector v_empty v_11 eq_refl) as [H0 [H1 [_ [_ [_ [_ [_ [H2 _]]]]]]]].
  split; [exact H0|]. split; [exact H1|exact H2].
Defined.

(** [==] on lines returns true only on parallel lines. *)
Lemma eq_parallel (l other : Line.t) :
  Line.__eq__ l other = Ok true -> Line.is_parallel_to l other = Ok true.
Proof.
  unfold Line.__eq__. destruct (Line.is_parallel_to l other) as [[|]|e]; cbn [bind];
    [reflexivity|discriminate|discriminate].
Qed.

Lemma solve_inv (l other : Line.t) (r : Line.intersection_result) :
  Line.solve l other = Ok r ->
  exists a b d e x y,
    Vector.__getitem__ (Line.normal_vector l) 0 = Ok a /\
    Vector.__getitem__ (Line.normal_vector l) 1 = Ok b /\
    Vector.__getitem__ (Line.normal_vector other) 0 = Ok d /\
    Vector.__getitem__ (Line.normal_vector other) 1 = Ok e /\
    cramer a b (Line.constant_term l) d e (Line.constant_term other) = Ok (x, y) /\
    r = Line.IPoint x y.
Proof.
  unfold Line.solve.
  destruct (Vector.__getitem__ (Line.normal_vector l) 0) as [a|?]; cbn [bind];
    [|discriminate].
  destruct (Vector.__getitem__ (Line.normal_vector l) 1) as [b|?]; cbn [bind];
    [|discriminate].
  destruct (Vector.__getitem__ (Line.normal_vector other) 0) as [d|?]; cbn [bind];
    [|discriminate].
  destruct (Vector.__getitem__ (Line.normal_vector other) 1) as [e|?]; cbn [bind];
    [|discriminate].
  intros H. exists a, b, d, e. unfold cramer, determinant.
  destruct (mul (Line.constant_term l) e) as [ce|?]; cbn [bind] in *; [|discriminate].
  destruct (mul b (Line.constant_term other)) as [bf|?]; cbn [bind] in *;
    [|discriminate].
  destruct (sub ce bf) as [nx|?]; cbn [bind] in *; [|discriminate].
  destruct (mul a e) as [ae|?]; cbn [bind] in *; [|discriminate].
  destruct (mul b d) as [bd|?]; cbn [bind] in *; [|discriminate].
  destruct (sub ae bd) as [den|?]; cbn [bind] in *; [|discriminate].
  destruct (div nx den) as [x|?]; cbn [bind] in *; [|discriminate].
  destruct (mul a (Line.constant_term other)) as [af|?]; cbn [bind] in *;
    [|discriminate].
  destruct (mul d (Line.constant_term l)) as [dc|?]; cbn [bind] in *; [|discriminate].
  destruct (sub af dc) as [ny|?]; cbn [bind] in *; [|discriminate].
  destruct (div ny den) as [y|?]; cbn [bind] in *; [|discriminate].
  injection H as <-. exists x, y. repeat split.
Qed.

(** X23.  What a result of [intersection] tells: the line itself is
    returned only when the two lines test equal, and then they test
    parallel; [None] only when they test parallel and not equal; a
    point only when they test not parallel, and then it is the solution
    of Cramer's rule on the first two coordinates of the normal vectors,
    which both have at least two coordinates. *)
Theorem intersection_inversion (l other : Line.t) (r : Line.intersection_result) :
  Line.intersection l other = Ok r ->
  match r with
  | Line.ISelf l' =>
      l' = l /\ Line.__eq__ l other = Ok true /\
      Line.is_parallel_to l other = Ok true
  | Line.INone =>
      Line.__eq__ l other = Ok false /\ Line.is_parallel_to l other = Ok true
  | Line.IPoint x y =>
      Line.__eq__ l other = Ok false /\ Line.is_parallel_to l other = Ok false /\
      2 <= Vector.dimension (Line.normal_vector l) /\
      2 <= Vector.dimension (Line.normal_vector other) /\
      exists a b d e,
        Vector.__getitem__ (Line.normal_vector l) 0 = Ok a /\
        Vector.__getitem__ (Line.normal_vector l) 1 = Ok b /\
        Vector.__getitem__ (Line.normal_vector other) 0 = Ok d /\
        Vector.__getitem__ (Line.normal_vector other) 1 = Ok e /\
        cramer a b (Line.constant_term l) d e (Line.constant_term other) = Ok (x, y)
  end.
Proof.
  unfold Line.intersection.
  destruct (Line.__eq__ l other) as [[|]|e] eqn:He; cbn [bind]; [| |discriminate].
  - intros [= <-]. repeat split. exact (eq_parallel _ _ He).
  - destruct (Line.is_parallel_to l other) as [[|]|e] eqn:Hp; cbn [bind];
      [| |discriminate].
    + intros [= <-]. split; reflexivity.
    + intros H. destruct (solve_inv _ _ _ H) as [a [b [d [e [x [y H']]]]]].
      destruct H' as [Ha [Hb [Hd [He' [Hc ->]]]]].
      split; [reflexivity|]. split; [reflexivity|].
      assert (Hdim : forall v z, Vector.__getitem__ v 1 = Ok z ->
                2 <= Vector.dimension v).
      { clear. intros v z. unfold Vector.__getitem__. cbn [Z.ltb Z.compare].
        destruct (Z.leb_spec 0 1); [|lia]. cbn [andb].
        destruct (Z.ltb_spec 1 (Vector.dimension v)); [lia|discriminate]. }
      split; [exact (Hdim _ _ Hb)|]. split; [exact (Hdim _ _ He')|].
      exists a, b, d, e. auto.
Qed.

Lemma intersection_inversion_witness :
  exists x y, Line.intersection l3 l4 = Ok (Line.IPoint x y) /\
              Line.is_parallel_to l3 l4 = Ok false.
Proof.
  assert (H : exists x y, Line.intersection l3 l4 = Ok (Line.IPoint x y))
    by (eexists; eexists; vm_compute; reflexivity).
  destruct H as [x [y H]]. exists x, y. split; [exact H|].
  exact (proj1 (proj2 (intersection_inversion l3 l4 _ H))).
Defined.

End Edges.

(** ** Reflexivity of equality and symmetry of the intersection *)

Section LineSymmetry.

Import PyDecimal.

Lemma is_parallel_to_is_zero (v w : Vector.t) (b : bool) :
  Vector.is_parallel_to v w = Ok b -> exists z, Vector.is_zero v = Ok z.
Proof.
  unfold Vector.is_parallel_to. destruct (Vector.is_zero v) as [z|e]; cbn [bind];
    [eauto|discriminate].
Qed.

(** X24.  A line equals itself whenever it tests parallel to itself and
    has a base point (or a normal vector that is zero within its
    positive tolerance): the connecting vector of the base point with
    itself is a vector of zeros, which is zero within the default
    tolerance it carries. *)
Theorem eq_reflexive (l : Line.t) (bp : Vector.t) :
  Line.is_parallel_to l l = Ok true ->
  Line.base_point l = Some bp -> Vector.coordinates bp <> [] ->
  lt (of_int 0) (Line.tolerance l) = true ->
  Line.__eq__ l l = Ok true /\ Line.intersection l l = Ok (Line.ISelf l).
Proof.
  intros Hp Hbp Hne Htol.
  assert (He : Line.__eq__ l l = Ok true).
  { unfold Line.__eq__. rewrite Hp. cbn [bind].
    destruct (is_parallel_to_is_zero _ _ _ Hp) as [z Hz]. rewrite Hz. cbn [bind].
    destruct z; cbn [negb].
    - destruct (sub_self (Line.constant_term l)) as [d [-> Hd]]. cbn [bind].
      destruct (abs_zero d Hd) as [a [-> Ha]]. cbn [bind].
      now rewrite (lt_zero _ _ Ha), Htol.
    - rewrite Hbp. cbn [Line.sub_base_points].
      destruct (sub_vector_self bp) as [zs [-> [Hlen HF]]]. cbn [bind].
      assert (Hzv : zero_vector (Vector.mk zs Vector.default_tolerance)).
      { split; [|exact HF]. cbn [Vector.coordinates]. intros ->.
        destruct (Vector.coordinates bp); [congruence|discriminate]. }
      destruct (magnitude_zero_vector _ Hzv) as [m [Hm Hm0]].
      unfold Vector.is_zero. rewrite Hm. cbn [bind Vector.tolerance].
      now rewrite (lt_zero _ _ Hm0). }
  split; [exact He|]. unfold Line.intersection. now rewrite He.
Qed.

Lemma eq_reflexive_witness :
  Line.is_parallel_to l1 l1 = Ok true /\
  Line.__eq__ l1 l1 = Ok true /\ Line.intersection l1 l1 = Ok (Line.ISelf l1).
Proof.
  assert (Hp : Line.is_parallel_to l1 l1 = Ok true) by (vm_compute; reflexivity).
  assert (Ht : lt (of_int 0) (Line.tolerance l1) = true) by (vm_compute; reflexivity).
  split; [exact Hp|].
  refine (eq_reflexive l1 _ Hp eq_refl _ Ht). discriminate.
Defined.

Lemma div_opposite (n n' d d' q : dec) :
  opposite n n' -> opposite d d' -> div n d = Ok q ->
  exists q', div n' d' = Ok q' /\ alike q q'.
Proof.
  intros [Hcn [Hen Hsn]] [Hcd [Hed Hsd]]. unfold div.
  assert (Hzn : is_zero n' = is_zero n) by (unfold is_zero; now rewrite Hcn).
  assert (Hzd : is_zero d' = is_zero d) by (unfold is_zero; now rewrite Hcd).
  rewrite Hzn, Hzd, Hcn, Hcd, Hen, Hed.
  destruct (is_zero d) eqn:Hd; [destruct (is_zero n); discriminate|].
  destruct (is_zero n) eqn:Hn.
  - unfold _fix. rewrite !fix_prec_zero. intros [= <-]. eexists. split; [reflexivity|].
    repeat split. discriminate.
  - rewrite (Hsn eq_refl), (Hsd eq_refl).
    replace (xorb (negb (sign n)) (negb (sign d))) with (xorb (sign n) (sign d))
      by (destruct (sign n), (sign d); reflexivity).
    intros H. exists q. split; [exact H|]. repeat split.
Qed.

(** Cramer's rule on the two lines in the other order. *)
Lemma cramer_swap (a b c d e f x y : dec) :
  cramer a b c d e f = Ok (x, y) ->
  exists x' y', cramer d e f a b c = Ok (x', y') /\ alike x x' /\ alike y y'.
Proof.
  unfold cramer, determinant.
  rewrite (mul_comm f b), (mul_comm e c), (mul_comm d b), (mul_comm e a).
  destruct (mul c e) as [ce|?]; cbn [bind]; [|discriminate].
  destruct (mul b f) as [bf|?]; cbn [bind]; [|discriminate].
  destruct (sub ce bf) as [nx|?] eqn:Hnx; cbn [bind]; [|discriminate].
  destruct (mul a e) as [ae|?]; cbn [bind]; [|discriminate].
  destruct (mul b d) as [bd|?]; cbn [bind]; [|discriminate].
  destruct (sub ae bd) as [den|?] eqn:Hden; cbn [bind]; [|discriminate].
  destruct (div nx den) as [x0|?] eqn:Hx; cbn [bind]; [|discriminate].
  destruct (mul a f) as [af|?]; cbn [bind]; [|discriminate].
  destruct (mul d c) as [dc|?]; cbn [bind]; [|discriminate].
  destruct (sub af dc) as [ny|?] eqn:Hny; cbn [bind]; [|discriminate].
  destruct (div ny den) as [y0|?] eqn:Hy; cbn [bind]; [|discriminate].
  intros [= <- <-].
  destruct (sub_swap _ _ _ Hnx) as [nx' [-> Hox]].
  destruct (sub_swap _ _ _ Hden) as [den' [-> Hod]].
  destruct (sub_swap _ _ _ Hny) as [ny' [-> Hoy]]. cbn [bind].
  destruct (div_opposite _ _ _ _ _ Hox Hod Hx) as [x' [-> Hax]].
  destruct (div_opposite _ _ _ _ _ Hoy Hod Hy) as [y' [-> Hay]]. cbn [bind].
  exists x', y'. auto.
Qed.

Lemma solve_of_cramer (l other : Line.t) (a b d e x y : dec) :
  Vector.__getitem__ (Line.normal_vector l) 0 = Ok a ->
  Vector.__getitem__ (Line.normal_vector l) 1 = Ok b ->
  Vector.__getitem__ (Line.normal_vector other) 0 = Ok d ->
  Vector.__getitem__ (Line.normal_vector other) 1 = Ok e ->
  cramer a b (Line.constant_term l) d e (Line.constant_term other) = Ok (x, y) ->
  Line.solve l other = Ok (Line.IPoint x y).
Proof.
  intros Ha Hb Hd He. unfold Line.solve, cramer, determinant.
  rewrite Ha, Hb, Hd, He. cbn [bind].
  destruct (mul (Line.constant_term l) e) as [ce|?]; cbn [bind]; [|discriminate].
  destruct (mul b (Line.constant_term other)) as [bf|?]; cbn [bind]; [|discriminate].
  destruct (sub ce bf) as [nx|?]; cbn [bind]; [|discriminate].
  destruct (mul a e) as [ae|?]; cbn [bind]; [|discriminate].
  destruct (mul b d) as [bd|?]; cbn [bind]; [|discriminate].
  destruct (sub ae bd) as [den|?]; cbn [bind]; [|discriminate].
  destruct (div nx den) as [x0|?]; cbn [bind]; [|discriminate].
  destruct (mul a (Line.constant_term other)) as [af|?]; cbn [bind]; [|discriminate].
  destruct (mul d (Line.constant_term l)) as [dc|?]; cbn [bind]; [|discriminate].
  destruct (sub af dc) as [ny|?]; cbn [bind]; [|discriminate].
  destruct (div ny den) as [y0|?]; cbn [bind]; [|discriminate].
  now intros [= <- <-].
Qed.

(** X25.  The point of intersection does not depend on the order of the
    lines: when [l.intersection(other)] returns a point and [other]
    tests not parallel to [l], [other.intersection(l)] returns the same
    point, digit for digit (a zero coordinate may change its sign). *)
Theorem intersection_symmetric (l other : Line.t) (x y : dec) :
  Line.intersection l other = Ok (Line.IPoint x y) ->
  Line.is_parallel_to other l = Ok false ->
  exists x' y', Line.intersection other l = Ok (Line.IPoint x' y') /\
                alike x x' /\ alike y y'.
Proof.
  intros H Hp'.
  assert (Hs : Line.solve l other = Ok (Line.IPoint x y)).
  { revert H. unfold Line.intersection.
    destruct (Line.__eq__ l other) as [[|]|?]; cbn [bind]; try discriminate.
    destruct (Line.is_parallel_to l other) as [[|]|?]; cbn [bind];
      try discriminate. trivial. }
  destruct (solve_inv _ _ _ Hs) as [a [b [d [e [x0 [y0 H']]]]]].
  destruct H' as [Ha [Hb [Hd [He [Hc [= <- <-]]]]]].
  destruct (cramer_swap _ _ _ _ _ _ _ _ Hc) as [x' [y' [Hc' [Hx Hy]]]].
  exists x', y'. split; [|auto].
  rewrite (intersection_not_parallel _ _ Hp').
  exact (solve_of_cramer other l d e a b x' y' Hd He Ha Hb Hc').
Qed.

Lemma intersection_symmetric_witness :
  exists x y x' y',
    Line.intersection l3 l4 = Ok (Line.IPoint x y) /\
    Line.intersection l4 l3 = Ok (Line.IPoint x' y') /\
    alike x x' /\ alike y y'.
Proof.
  assert (H : exists x y, Line.intersection l3 l4 = Ok (Line.IPoint x y))
    by (eexists; eexists; vm_compute; reflexivity).
  assert (Hp : Line.is_parallel_to l4 l3 = Ok false) by (vm_compute; reflexivity).
  destruct H as [x [y H]].
  destruct (intersection_symmetric l3 l4 x y H Hp) as [x' [y' [H' [Hx Hy]]]].
  exists x, y, x', y'. auto.
Defined.

End LineSymmetry.

(** ** Tolerances and the additive identity *)

Section ToleranceOrder.

Import PyDecimal.

Lemma lt_value (x y : dec) (m : Z) :
  m <= exponent x -> m <= exponent y ->
  lt x y = true <-> scaled m x < scaled m y.
Proof.
  intros Hx Hy. unfold lt. rewrite (cmp_value x y m Hx Hy).
  destruct (Z.compare_spec (scaled m x) (scaled m y)); split; trivial;
    try discriminate; lia.
Qed.

(** [a < t] and [not (t' < t)] give [a < t']. *)
Lemma lt_widen (a t t' : dec) :
  lt t' t = false -> lt a t = true -> lt a t' = true.
Proof.
  set (m := Z.min (exponent a) (Z.min (exponent t) (exponent t'))).
  intros Hle Hlt.
  apply (lt_value a t m) in Hlt; [|lia|lia].
  apply (lt_value a t' m); [lia|lia|].
  destruct (Z.lt_ge_cases (scaled m t') (scaled m t)) as [H|H]; [|lia].
  apply (lt_value t' t m) in H; [congruence|lia|lia].
Qed.

(** X26.  A larger tolerance keeps every positive answer: when
    [is_zero], [is_orthogonal_to] or [is_parallel_to] is true of a
    vector, it is true of the vector of the same coordinates under any
    tolerance that is not smaller. *)
Theorem tolerance_monotone (cs : list dec) (tol tol' : dec) (w : Vector.t) :
  lt tol' tol = false ->
  (Vector.is_zero (Vector.mk cs tol) = Ok true ->
   Vector.is_zero (Vector.mk cs tol') = Ok true) /\
  (Vector.is_orthogonal_to (Vector.mk cs tol) w = Ok true ->
   Vector.is_orthogonal_to (Vector.mk cs tol') w = Ok true) /\
  (Vector.is_parallel_to (Vector.mk cs tol) w = Ok true ->
   Vector.is_parallel_to (Vector.mk cs tol') w = Ok true).
Proof.
  intros Hle.
  assert (Hz : forall b, Vector.is_zero (Vector.mk cs tol) = Ok b ->
            exists b', Vector.is_zero (Vector.mk cs tol') = Ok b' /\
                       (b = true -> b' = true)).
  { intros b. unfold Vector.is_zero.
    change (Vector.magnitude (Vector.mk cs tol'))
      with (Vector.magnitude (Vector.mk cs tol)).
    destruct (Vector.magnitude (Vector.mk cs tol)) as [m|e]; cbn [bind Vector.tolerance];
      [|discriminate].
    intros [= <-]. eexists. split; [reflexivity|]. apply lt_widen, Hle. }
  split; [|split].
  - intros H. destruct (Hz true H) as [b' [-> Hb]]. now rewrite Hb.
  - unfold Vector.is_orthogonal_to.
    change (Vector.dot (Vector.mk cs tol') w) with (Vector.dot (Vector.mk cs tol) w).
    destruct (Vector.dot (Vector.mk cs tol) w) as [d|e]; cbn [bind]; [|discriminate].
    destruct (num_abs d) as [a|e]; cbn [bind Vector.tolerance]; [|discriminate].
    unfold num_lt. intros [= H]. now rewrite (lt_widen _ _ _ Hle H).
  - unfold Vector.is_parallel_to.
    destruct (Vector.is_zero (Vector.mk cs tol)) as [zv|e] eqn:Hzv; cbn [bind];
      [|discriminate].
    destruct (Hz zv eq_refl) as [zv' [-> Hzv']]. cbn [bind].
    destruct zv' ; [reflexivity|].
    destruct zv; [discriminate (Hzv' eq_refl)|].
    destruct (Vector.is_zero w) as [zw|e]; cbn [bind orb]; [|discriminate].
    destruct zw; [reflexivity|].
    change (Vector.dot (Vector.mk cs tol') w) with (Vector.dot (Vector.mk cs tol) w).
    destruct (Vector.dot (Vector.mk cs tol) w) as [d|e]; cbn [bind]; [|discriminate].
    destruct (num_abs d) as [a|e]; cbn [bind]; [|discriminate].
    change (Vector.magnitude (Vector.mk cs tol'))
      with (Vector.magnitude (Vector.mk cs tol)).
    destruct (Vector.magnitude (Vector.mk cs tol)) as [mv|e]; cbn [bind];
      [|discriminate].
    destruct (Vector.magnitude w) as [mw|e]; cbn [bind]; [|discriminate].
    destruct (mul mv mw) as [p|e]; cbn [bind]; [|discriminate].
    destruct (num_sub a p) as [diff|e]; cbn [bind]; [|discriminate].
    destruct (abs diff) as [r|e]; cbn [bind Vector.tolerance]; [|discriminate].
    intros [= H]. now rewrite (lt_widen _ _ _ Hle H).
Qed.

Lemma tolerance_monotone_witness :
  lt tol_half tol_default = false /\
  Vector.is_parallel_to v_00 v_11 = Ok true /\
  Vector.is_parallel_to (Vector.mk (Vector.coordinates v_00) tol_half) v_11 = Ok true.
Proof.
  assert (Hle : lt tol_half tol_default = false) by (vm_compute; reflexivity).
  assert (Hp : Vector.is_parallel_to v_00 v_11 = Ok true) by (vm_compute; reflexivity).
  split; [exact Hle|]. split; [exact Hp|].
  exact (proj2 (proj2 (tolerance_monotone _ tol_default tol_half v_11 Hle)) Hp).
Defined.

Lemma collect_add_zeros (l zs : list dec) :
  Forall fixed l -> Forall (fun z => is_zero z = true) zs ->
  List.length zs = List.length l ->
  exists rs, collect (map (fun '(x, y) => add x y) (zip l zs)) = Ok rs /\
             Vector.coords_eqb rs l = true.
Proof.
  intros Hl. revert zs. induction Hl as [|x l Hx _ IH]; intros [|z zs] Hz Hlen;
    try discriminate.
  - exists []. split; reflexivity.
  - inversion Hz as [|? ? Hz0 Hzs]; subst. cbn [zip map collect].
    destruct (add_zero_r x z Hx Hz0) as [r [-> [_ Hs]]]. cbn [bind].
    destruct (IH zs Hzs) as [rs [-> He]]; [cbn in Hlen; lia|]. cbn [bind].
    exists (r :: rs). split; [reflexivity|]. cbn [Vector.coords_eqb].
    now rewrite (same_eqb _ _ Hs), He.
Qed.

(** X27.  A vector of zeros is an identity of [add]: on a vector whose
    coordinates are in the range of the context, as every computed
    coordinate is, adding as many zeros returns a vector equal to it
    by [==]. *)
Theorem add_zero_identity (v z : Vector.t) :
  Forall fixed (Vector.coordinates v) ->
  Forall (fun x => is_zero x = true) (Vector.coordinates z) ->
  Vector.dimension z = Vector.dimension v ->
  exists r, Vector.add v z = Ok r /\ Vector.__eq__ r v = true /\
            Vector.add z v = Ok r.
Proof.
  intros Hv Hz Hdim.
  assert (Hlen : List.length (Vector.coordinates z) = List.length (Vector.coordinates v))
    by (apply Nat2Z.inj; exact Hdim).
  destruct (collect_add_zeros _ _ Hv Hz Hlen) as [rs [Hc He]].
  assert (Ha : Vector.add v z = Ok (Vector.mk rs Vector.default_tolerance))
    by (unfold Vector.add; now rewrite (of_gen_ok _ _ Hc)).
  eexists. split; [exact Ha|]. split; [exact He|].
  rewrite <- Ha. unfold Vector.add. f_equal. apply zip_swap. intros x y. apply add_comm.
Qed.

Lemma add_zero_identity_witness :
  exists r, Vector.add v_b v_000 = Ok r /\ Vector.__eq__ r v_b = true.
Proof.
  assert (Hv : Forall fixed (Vector.coordinates v_b))
    by (repeat constructor; cbv; try discriminate; intros; discriminate).
  assert (Hz : Forall (fun x => is_zero x = true) (Vector.coordinates v_000))
    by (repeat constructor).
  destruct (add_zero_identity v_b v_000 Hv Hz eq_refl) as [r [Ha [He _]]].
  exists r. auto.
Defined.

End ToleranceOrder.
